(** * icechips core tooling: a model of the generator and test-runner scripts

    The scripts under [scripts/generate] produce FuseSoC core files for the
    TTL chip models and drive [fusesoc] over them.  This file embeds
    [generate-core.js], [generate-cores.js], [test-core.js] and
    [test-cores.js] and proves the properties their description states.

    JavaScript strings are sequences of UTF-16 code units; they are modelled
    as [list N], one number per code unit, so that the regular expressions
    see exactly what the engine sees. *)

From Stdlib Require Import NArith ZArith String Ascii DecimalString.
From stdpp Require Import base option list sorting gmap.

#[local] Set Warnings "-clear-no-such-hyp".

Local Open Scope N_scope.

(** ** Strings *)

Abbreviation jsstring := (list N).

(** A source literal, one code unit per character (the literals of the
    scripts are ASCII, apart from two glyphs written out below). *)
Definition js (s : string) : jsstring := N_of_ascii <$> list_ascii_of_string s.
Global Arguments js : simpl never.

(** [String.prototype.startsWith], as a prefix stripper. *)
Fixpoint strip_prefix (l s : jsstring) : option jsstring :=
  match l, s with
  | [], _ => Some s
  | a :: l', b :: s' => if a =? b then strip_prefix l' s' else None
  | _ :: _, [] => None
  end.

Definition startsWith (s l : jsstring) : bool := bool_decide (is_Some (strip_prefix l s)).

(** [String.prototype.includes]: [l] occurs somewhere in [s]. *)
Fixpoint includes (s l : jsstring) : bool :=
  if startsWith s l then true
  else match s with
       | [] => false
       | _ :: s' => includes s' l
       end.

(** [String.prototype.endsWith]. *)
Definition endsWith (s l : jsstring) : bool := startsWith (reverse s) (reverse l).

(** [String.prototype.split] on a one-unit separator. *)
Fixpoint split_on (sep : N) (s : jsstring) : list jsstring :=
  match s with
  | [] => [[]]
  | c :: s' =>
      if c =? sep then [] :: split_on sep s'
      else match split_on sep s' with
           | [] => [[c]]
           | w :: ws => (c :: w) :: ws
           end
  end.

(** A string in a boolean position: only the empty string is falsy. *)
Definition nonempty (s : jsstring) : bool :=
  match s with [] => false | _ => true end.

(** ** Character classes of the regular expressions *)

Definition in_range (lo hi c : N) : bool := (lo <=? c) && (c <=? hi).

(** [LineTerminator]: LF, CR, LS, PS. *)
Definition is_line_terminator (c : N) : bool :=
  (c =? 10) || (c =? 13) || (c =? 8232) || (c =? 8233).

(** [\s]: WhiteSpace and LineTerminator. *)
Definition is_space (c : N) : bool :=
  in_range 9 13 c || (c =? 32) || (c =? 160) || (c =? 5760)
  || in_range 8192 8202 c || (c =? 8232) || (c =? 8233) || (c =? 8239)
  || (c =? 8287) || (c =? 12288) || (c =? 65279).

Definition is_digit (c : N) : bool := in_range 48 57 c.

(** [\w]: ASCII letters, digits and underscore. *)
Definition is_word (c : N) : bool :=
  in_range 97 122 c || in_range 65 90 c || is_digit c || (c =? 95).

Definition colon : N := 58.

(** [[^\s:]] *)
Definition is_core_char (c : N) : bool := negb (is_space c) && negb (c =? colon).

(** ** A backtracking matcher for the patterns of the scripts

    The patterns only repeat single character classes, so [Star] takes a
    class.  Matching is written with a continuation: a repetition first
    tries the longest run and gives units back one at a time, an
    alternation tries its branches left to right, as the engine does.
    Each pattern of the scripts has at most one capturing group. *)

Inductive regex :=
| Bol                         (* ^ *)
| Eol                         (* $ *)
| Chars (l : jsstring)        (* literal text *)
| Class (p : N → bool)        (* one unit of a class *)
| Star (p : N → bool)         (* p*, greedy *)
| Seq (r1 r2 : regex)
| Alt (r1 r2 : regex)
| Group (r : regex).          (* ( ... ), group 1 *)

Definition Plus (p : N → bool) : regex := Seq (Class p) (Star p).

(** The unit before the current position ([None] at the start of input). *)
Definition last_unit (l : jsstring) (prev : option N) : option N :=
  match last l with Some c => Some c | None => prev end.

Definition at_line_start (multiline : bool) (prev : option N) : bool :=
  match prev with
  | None => true
  | Some c => multiline && is_line_terminator c
  end.

Definition at_line_end (multiline : bool) (s : jsstring) : bool :=
  match s with
  | [] => true
  | c :: _ => multiline && is_line_terminator c
  end.

Section Matcher.
Context {R : Type}.

Fixpoint star (p : N → bool) (k : option N → jsstring → option R)
    (prev : option N) (s : jsstring) : option R :=
  match s with
  | c :: s' =>
      if p c then
        match star p k (Some c) s' with
        | Some r => Some r
        | None => k prev s
        end
      else k prev s
  | [] => k prev s
  end.

Fixpoint rmatch (multiline : bool) (r : regex) (prev : option N) (s : jsstring)
    (cap : option jsstring)
    (k : option N → jsstring → option jsstring → option R) : option R :=
  match r with
  | Bol => if at_line_start multiline prev then k prev s cap else None
  | Eol => if at_line_end multiline s then k prev s cap else None
  | Chars l =>
      match strip_prefix l s with
      | Some s' => k (last_unit l prev) s' cap
      | None => None
      end
  | Class p =>
      match s with
      | c :: s' => if p c then k (Some c) s' cap else None
      | [] => None
      end
  | Star p => star p (λ prev' s', k prev' s' cap) prev s
  | Seq r1 r2 =>
      rmatch multiline r1 prev s cap
        (λ prev' s' cap', rmatch multiline r2 prev' s' cap' k)
  | Alt r1 r2 =>
      match rmatch multiline r1 prev s cap k with
      | Some x => Some x
      | None => rmatch multiline r2 prev s cap k
      end
  | Group r0 =>
      rmatch multiline r0 prev s cap
        (λ prev' s' _, k prev' s' (Some (take (length s - length s') s)))
  end.
End Matcher.

(** A match attempt anchored at the current position; the result is the
    text of group 1. *)
Definition match_here (multiline : bool) (r : regex) (prev : option N)
    (s : jsstring) : option (option jsstring) :=
  rmatch multiline r prev s None (λ _ _ cap, Some cap).

(** The engine tries every start position from left to right. *)
Fixpoint search (multiline : bool) (r : regex) (prev : option N) (s : jsstring)
    : option (option jsstring) :=
  match match_here multiline r prev s with
  | Some cap => Some cap
  | None =>
      match s with
      | [] => None
      | c :: s' => search multiline r (Some c) s'
      end
  end.

(** [str.match(re)] for a pattern without the [g] flag: [None] is JavaScript's
    [null], [Some cap] a match whose group 1 is [cap]. *)
Definition String_match (s : jsstring) (multiline : bool) (r : regex)
    : option (option jsstring) :=
  search multiline r None s.

(** Decimal rendering of a count, as a template literal prints it. *)
Definition show_nat (n : nat) : jsstring := js (NilZero.string_of_uint (Nat.to_uint n)).

(** [Array.prototype.sort] without a comparator orders strings by their code
    units; the order is total, so the sorted array does not depend on the
    engine's algorithm. *)
Fixpoint str_leb (a b : jsstring) : bool :=
  match a, b with
  | [], _ => true
  | _ :: _, [] => false
  | x :: a', y :: b' => (x <? y) || ((x =? y) && str_leb a' b')
  end.

Definition str_le (a b : jsstring) : Prop := str_leb a b = true.

Global Instance str_le_dec : RelDecision str_le := λ a b, decide (str_leb a b = true).

Definition Array_sort (l : list jsstring) : list jsstring := merge_sort str_le l.

(** ** Values, errors and the process environment *)

(** An IEEE double, by its shape. *)
Inductive Number :=
| NaN
| Infinity (negative : bool)
| Zero (negative : bool)
| Finite (negative : bool) (mantissa : positive) (exponent : Z).

(** The values [JSON.parse] can produce.  An object lists its own properties. *)
#[local] Unset Elimination Schemes.
Inductive JSValue :=
| JNull
| JBool (b : bool)
| JNum (x : Number)
| JStr (s : jsstring)
| JArr (items : list JSValue)
| JObj (props : list (jsstring * JSValue)).
#[local] Set Elimination Schemes.

(** A thrown [Error]: its message and, for a failed child process, what the
    child wrote ([None] when the stream was not piped). *)
Record JSError := {
  error_message : jsstring;
  error_stdout : option jsstring;
  error_stderr : option jsstring
}.

Definition Error (msg : jsstring) : JSError :=
  {| error_message := msg; error_stdout := None; error_stderr := None |}.

(** ToBoolean. *)
Definition truthy (v : JSValue) : bool :=
  match v with
  | JNull => false
  | JBool b => b
  | JNum NaN | JNum (Zero _) => false
  | JNum _ => true
  | JStr s => nonempty s
  | JArr _ | JObj _ => true
  end.

Fixpoint own_property (key : jsstring) (props : list (jsstring * JSValue)) : option JSValue :=
  match props with
  | [] => None
  | (k, v) :: rest => if bool_decide (k = key) then Some v else own_property key rest
  end.

(** [value.version]: reading a property of [null] throws; a property that
    is not there reads as [undefined] ([None]).  Strings, numbers, booleans
    and arrays have no property of that name. *)
Definition get_version (value : JSValue) : JSError + option JSValue :=
  match value with
  | JNull => inl (Error (js "Cannot read properties of null (reading 'version')"))
  | JObj props => inr (own_property (js "version") props)
  | _ => inr None
  end.

(** What the engine and Node provide and the scripts only call. *)
Class Host := {
  (** [JSON.parse] *)
  JSON_parse : jsstring → JSError + JSValue;
  (** ToString of a number, an array or an object *)
  ToString_other : JSValue → JSError + jsstring;
  (** [path.join] of two segments *)
  path_join : jsstring → jsstring → jsstring
}.

(** The conversion a template literal applies to an interpolated value. *)
Definition ToString `{Host} (v : JSValue) : JSError + jsstring :=
  match v with
  | JStr s => inr s
  | JNull => inr (js "null")
  | JBool true => inr (js "true")
  | JBool false => inr (js "false")
  | _ => ToString_other v
  end.

(** The file system: what is at each path. *)
Inductive Node :=
| File (content : jsstring)
| Dir (entries : list jsstring)
| Locked.                               (* present, but access is denied *)

(** What running a command gives. *)
Inductive ProcResult :=
| Done (out : jsstring)
| Failed (msg out err : jsstring).

Inductive Stdio := Pipe | Inherit | Ignore.

(** What the process does to the outside, in order.  What a child writes to
    a stream it inherits is the child's doing and is not recorded. *)
Inductive Event :=
| FsExists (path : jsstring)
| FsRead (path : jsstring)
| FsReaddir (path : jsstring)
| FsWrite (path content : jsstring)
| Exec (command : jsstring)
| Stdout (text : jsstring)
| Stderr (text : jsstring).

Record World := {
  fs : gmap jsstring Node;
  sh : jsstring → ProcResult;
  trace : list Event;
  (* what the operating system answers when a path is opened for writing:
     [None] when it lets the process create or truncate the file, the error
     otherwise (the parent directory is missing or not writable, ...) *)
  write_error : jsstring → option JSError
}.

(** How a piece of script ends: with a value, by throwing, or by
    [process.exit]. *)
Inductive outcome (A : Type) :=
| Ret (a : A)
| Throw (e : JSError)
| Exit (code : nat).
Arguments Ret {A} a.
Arguments Throw {A} e.
Arguments Exit {A} code.

Definition M (A : Type) : Type := World → outcome A * World.

Global Instance M_ret : MRet M := λ A a w, (Ret a, w).

Global Instance M_bind : MBind M := λ A B f m w,
  match m w with
  | (Ret a, w') => f a w'
  | (Throw e, w') => (Throw e, w')
  | (Exit c, w') => (Exit c, w')
  end.

Definition throw {A} (e : JSError) : M A := λ w, (Throw e, w).

Definition process_exit {A} (code : nat) : M A := λ w, (Exit code, w).

(** [try { body } catch (error) { handler }]; [process.exit] is not caught. *)
Definition try_catch {A} (body : M A) (handler : JSError → M A) : M A := λ w,
  match body w with
  | (Throw e, w') => handler e w'
  | r => r
  end.

Definition lift {A} (r : JSError + A) : M A :=
  match r with
  | inl e => throw e
  | inr a => mret a
  end.

(** The world after more events. *)
Definition add_events (w : World) (evs : list Event) : World :=
  {| fs := fs w; sh := sh w; trace := trace w ++ evs; write_error := write_error w |}.

Definition emit (e : Event) : M unit := λ w, (Ret (), add_events w [e]).

Definition console_log (s : jsstring) : M unit := emit (Stdout (s ++ [10])).
Definition console_error (s : jsstring) : M unit := emit (Stderr (s ++ [10])).
Definition stdout_write (s : jsstring) : M unit := emit (Stdout s).

Definition quoted (path : jsstring) : jsstring := js "'" ++ path ++ js "'".

Definition the_world : M World := λ w, (Ret w, w).

Definition set_fs (files : gmap jsstring Node) : M unit := λ w,
  (Ret (), {| fs := files; sh := sh w; trace := trace w; write_error := write_error w |}).

(** [fs.existsSync] *)
Definition existsSync (path : jsstring) : M bool :=
  emit (FsExists path);;
  w ← the_world;
  mret (bool_decide (is_Some (fs w !! path))).

(** [fs.readFileSync(path, 'utf8')] *)
Definition readFileSync (path : jsstring) : M jsstring :=
  emit (FsRead path);;
  w ← the_world;
  match fs w !! path with
  | Some (File content) => mret content
  | Some (Dir _) => throw (Error (js "EISDIR: illegal operation on a directory, read"))
  | Some Locked => throw (Error (js "EACCES: permission denied, open " ++ quoted path))
  | None => throw (Error (js "ENOENT: no such file or directory, open " ++ quoted path))
  end.

(** [fs.readdirSync] *)
Definition readdirSync (path : jsstring) : M (list jsstring) :=
  emit (FsReaddir path);;
  w ← the_world;
  match fs w !! path with
  | Some (Dir entries) => mret entries
  | Some (File _) => throw (Error (js "ENOTDIR: not a directory, scandir " ++ quoted path))
  | Some Locked => throw (Error (js "EACCES: permission denied, scandir " ++ quoted path))
  | None => throw (Error (js "ENOENT: no such file or directory, scandir " ++ quoted path))
  end.

(** [fs.writeFileSync(path, content, 'utf8')]: it throws when the path is a
    directory or may not be opened, and when the operating system refuses to
    create or truncate the file. *)
Definition writeFileSync (path content : jsstring) : M unit :=
  emit (FsWrite path content);;
  w ← the_world;
  match fs w !! path with
  | Some (Dir _) =>
      throw (Error (js "EISDIR: illegal operation on a directory, open " ++ quoted path))
  | Some Locked => throw (Error (js "EACCES: permission denied, open " ++ quoted path))
  | _ =>
      match write_error w path with
      | Some e => throw e
      | None => set_fs (<[path := File content]> (fs w))
      end
  end.

(** [child_process.execSync]: the child's output comes back only when it is
    piped, and a failure throws. *)
Definition execSync (command : jsstring) (stdio : Stdio) : M (option jsstring) :=
  emit (Exec command);;
  w ← the_world;
  match sh w command, stdio with
  | Done out, Pipe => mret (Some out)
  | Done _, _ => mret None
  | Failed msg out err, Pipe =>
      throw {| error_message := msg; error_stdout := Some out; error_stderr := Some err |}
  | Failed msg _ _, _ => throw (Error msg)
  end.

(** The outcome object the operations return. *)
Record Result := {
  success : bool;
  message : jsstring;
  output : option jsstring;
  chipNumber : option jsstring;
  rtlModuleName : option jsstring;
  tbModuleName : option jsstring
}.

Definition failure (msg : jsstring) : Result :=
  {| success := false; message := msg; output := None;
     chipNumber := None; rtlModuleName := None; tbModuleName := None |}.

(** ** common/fs-file-helper.js *)

(** A file, as opposed to a directory or nothing at all. *)
Definition is_file (node : option Node) : bool :=
  match node with
  | Some (File _) | Some Locked => true
  | _ => false
  end.

Module FsReadFileHelper.
Section WithHost.
Context `{Host}.

(** Modelled from the spec: [FsReadFileHelper.isExistingFile]; the helper
    (scripts/common/fs-file-helper.js) is not among the sources.  True iff
    a file of that name, resolved against the base directory, exists; it
    never throws. *)
Definition isExistingFile (base fileName : jsstring) : M bool :=
  emit (FsExists (path_join base fileName));;
  w ← the_world;
  mret (is_file (fs w !! path_join base fileName)).

(** Modelled from the spec: [FsReadFileHelper.readFile]; same helper.  The
    whole text of the file, resolved the same way; a missing file is an
    error passed on to the caller. *)
Definition readFile (base fileName : jsstring) : M jsstring :=
  readFileSync (path_join base fileName).
End WithHost.
End FsReadFileHelper.

(** ** generate-core.js *)

Module GenerateCore.

(** [/^\s*module\s+(\w+)\s*(?:#|\(|;)/m] *)
Definition moduleRegex : regex :=
  Seq Bol (Seq (Star is_space) (Seq (Chars (js "module")) (Seq (Plus is_space)
    (Seq (Group (Plus is_word)) (Seq (Star is_space)
      (Alt (Chars (js "#")) (Alt (Chars (js "(")) (Chars (js ";"))))))))).

Definition extractModuleName (verilogContent : jsstring) : option jsstring :=
  match String_match verilogContent true moduleRegex with
  | Some m => m
  | None => None
  end.

(** The parameters are strings, as documented; the template literal is
    kept piece by piece. *)
Definition generateCoreFile (chipNumber version rtlModuleName tbModuleName : jsstring)
    : jsstring :=
  let coreName := js "icechips:ttl:" ++ chipNumber ++ js ":" ++ version in
  js "CAPI=2:
name: " ++ coreName ++ js "

# Note: File order matters for iverilog! RTL must come last because
# the testbench instantiates the DUT module, so the module must be
# defined before instantiation. Iverilog processes files sequentially
# and doesn't do multiple passes.
# Macro dependencies must also be defined first.

filesets:
  rtl:
    files:
      - includes/helper.v
      - source-7400/" ++ chipNumber ++ js ".v
    file_type: verilogSource

  tb:
    files:
      - includes/tbhelper.v
      - source-7400/" ++ chipNumber ++ js "-tb.v
    file_type: verilogSource

targets:
  default:
    filesets: [rtl]
    toplevel: " ++ rtlModuleName ++ js "
  sim:
    filesets: [tb, rtl]
    toplevel: " ++ tbModuleName ++ js "
    default_tool: icarus
    tools:
      icarus: {iverilog_options: [-g2012]}
".

Section WithHost.
Context `{Host}.

Definition getVersionFromPackageJson (projectRoot : jsstring) : M JSValue :=
  let packageJsonPath := path_join projectRoot (js "package.json") in
  text ← readFileSync packageJsonPath;
  packageJson ← lift (JSON_parse text);
  version ← lift (get_version packageJson);
  mret (match version with
        | Some v => if truthy v then v else JStr (js "0.1.0")
        | None => JStr (js "0.1.0")
        end).

(** [version] is the optional third argument: [None] is [null]. *)
Definition generateCoreForChip (chipNumber projectRoot : jsstring)
    (version : option jsstring) : M Result :=
  try_catch
    (finalVersion ←
       match version with
       | Some v => if nonempty v then mret (JStr v)
                   else getVersionFromPackageJson projectRoot
       | None => getVersionFromPackageJson projectRoot
       end;
     let sourceDir := path_join projectRoot (js "source-7400") in
     let rtlFileName := chipNumber ++ js ".v" in
     let tbFileName := chipNumber ++ js "-tb.v" in
     rtlThere ← FsReadFileHelper.isExistingFile sourceDir rtlFileName;
     if negb rtlThere then
       mret (failure (js "RTL file not found: " ++ path_join sourceDir rtlFileName))
     else
     tbThere ← FsReadFileHelper.isExistingFile sourceDir tbFileName;
     if negb tbThere then
       mret (failure (js "Testbench file not found: " ++ path_join sourceDir tbFileName))
     else
     rtlContent ← FsReadFileHelper.readFile sourceDir rtlFileName;
     tbContent ← FsReadFileHelper.readFile sourceDir tbFileName;
     let rtlModuleName := extractModuleName rtlContent in
     let tbModuleName := extractModuleName tbContent in
     match rtlModuleName, tbModuleName with
     | None, _ | Some [], _ =>
         mret (failure (js "Could not extract module name from " ++ rtlFileName))
     | _, None | _, Some [] =>
         mret (failure (js "Could not extract module name from " ++ tbFileName))
     | Some rtlName, Some tbName =>
         (* the template literal in generateCoreFile converts the version *)
         versionText ← lift (ToString finalVersion);
         let coreContent := generateCoreFile chipNumber versionText rtlName tbName in
         let coreFileName := js "icechips_" ++ chipNumber ++ js ".core" in
         let coreFilePath := path_join projectRoot coreFileName in
         writeFileSync coreFilePath coreContent;;
         mret {| success := true;
                 message := js "Generated core file: " ++ coreFilePath;
                 output := None;
                 chipNumber := Some chipNumber;
                 rtlModuleName := Some rtlName;
                 tbModuleName := Some tbName |}
     end)
    (λ error,
       mret (failure (js "Error processing " ++ chipNumber ++ js ": "
                      ++ error_message error))).
End WithHost.
End GenerateCore.

(** ** generate-cores.js *)

(** A [Set] of strings keeps its members in insertion order. *)
Definition Set_add (x : jsstring) (members : list jsstring) : list jsstring :=
  if bool_decide (x ∈ members) then members else members ++ [x].

Module GenerateCores.

(** [/^([0-9]+)\.v$/] *)
Definition chipFileRegex : regex :=
  Seq Bol (Seq (Group (Plus is_digit)) (Seq (Chars (js ".v")) Eol)).

Definition extractChipNumber (fileName : jsstring) : option jsstring :=
  match String_match fileName false chipFileRegex with
  | Some m => if negb (includes fileName (js "-tb")) then m else None
  | None => None
  end.

(** The body of the [forEach] over the directory entries. *)
Definition collect (chipNumbers : list jsstring) (fileName : jsstring) : list jsstring :=
  if endsWith fileName (js ".v") && negb (includes fileName (js "-tb.v")) then
    match extractChipNumber fileName with
    | Some chipNumber =>
        if nonempty chipNumber then Set_add chipNumber chipNumbers else chipNumbers
    | None => chipNumbers
    end
  else chipNumbers.

(** What [getAllChipNumbers] makes of a directory listing. *)
Definition chipNumbersOf (files : list jsstring) : list jsstring :=
  Array_sort (foldl collect [] files).

Definition getAllChipNumbers (sourceDir : jsstring) : M (list jsstring) :=
  files ← readdirSync sourceDir;
  mret (chipNumbersOf files).

End GenerateCores.

(** ** test-core.js *)

(** [a || b] on strings that may be missing. *)
Definition or_string (a : option jsstring) (b : jsstring) : jsstring :=
  match a with
  | Some s => if nonempty s then s else b
  | None => b
  end.

Fixpoint forEach {A} (f : A → M unit) (l : list A) : M unit :=
  match l with
  | [] => mret ()
  | x :: l' => f x;; forEach f l'
  end.

Definition when (b : bool) (m : M unit) : M unit := if b then m else mret ().

(** [args.includes('--verbose') || args.includes('-v')] *)
Definition wants_verbose (args : list jsstring) : bool :=
  bool_decide (js "--verbose" ∈ args) || bool_decide (js "-v" ∈ args).

Module TestCore.
Section WithHost.
Context `{Host}.

Definition isFuseSoCAvailable : M bool :=
  try_catch (execSync (js "which fusesoc") Ignore;; mret true)
            (λ error, mret false).

Definition getFullCoreName (chipNumber projectRoot : jsstring) : M jsstring :=
  version ← GenerateCore.getVersionFromPackageJson projectRoot;
  versionText ← lift (ToString version);
  mret (js "icechips:ttl:" ++ chipNumber ++ js ":" ++ versionText).

Definition coreFileExists (chipNumber projectRoot : jsstring) : M bool :=
  let coreFileName := js "icechips_" ++ chipNumber ++ js ".core" in
  let coreFilePath := path_join projectRoot coreFileName in
  existsSync coreFilePath.

Definition parseCoreName (input projectRoot : jsstring) : M jsstring :=
  if includes input (js ":") then mret input
  else
    let chipNumber := input in
    there ← coreFileExists chipNumber projectRoot;
    if negb there then
      throw (Error (js "Core file not found for chip " ++ chipNumber ++ js ". "
                    ++ js "Expected: icechips_" ++ chipNumber ++ js ".core"))
    else getFullCoreName chipNumber projectRoot.

Definition runFuseSoCSim (coreName : jsstring) (verbose : bool) : M Result :=
  try_catch
    (let command := js "fusesoc run --target=sim " ++ coreName in
     when verbose (console_log (js "Running: " ++ command));;
     out ← execSync command (if verbose then Inherit else Pipe);
     mret {| success := true;
             output := if verbose then None else out;
             message := js "Simulation completed successfully for " ++ coreName;
             chipNumber := None; rtlModuleName := None; tbModuleName := None |})
    (λ error,
       mret {| success := false;
               output := Some (or_string (error_stdout error)
                                 (or_string (error_stderr error) (error_message error)));
               message := js "Simulation failed for " ++ coreName ++ js ": "
                          ++ error_message error;
               chipNumber := None; rtlModuleName := None; tbModuleName := None |}).

(** [projectRoot] is where the script finds itself installed. *)
Definition main (args : list jsstring) (projectRoot : jsstring) : M unit :=
  match args with
  | [] =>
      console_error (js "Usage: node test-core.js <core-name> [--verbose]");;
      console_error (js "  <core-name> can be:");;
      console_error (js "    - Full core name: icechips:ttl:74161:0.9.2");;
      console_error (js "    - Chip number: 74161");;
      console_error (js "");;
      console_error (js "Example: node test-core.js 74161");;
      console_error (js "Example: node test-core.js icechips:ttl:74161:0.9.2 --verbose");;
      process_exit 1
  | coreNameInput :: _ =>
      available ← isFuseSoCAvailable;
      if negb available then
        console_error (js "Error: fusesoc command not found.");;
        console_error (js "");;
        console_error (js "Please install FuseSoC and ensure it is in your PATH.");;
        console_error (js "FuseSoC can be installed with: pip install fusesoc");;
        process_exit 1
      else
      let verbose := wants_verbose args in
      coreName ← try_catch (parseCoreName coreNameInput projectRoot)
                   (λ error,
                      console_error (js "Error: " ++ error_message error);;
                      process_exit 1);
      when verbose (console_log (js "Core name: " ++ coreName);;
                    console_log (js ""));;
      result ← runFuseSoCSim coreName verbose;
      if success result then
        match output result with
        | Some out => when (negb verbose && nonempty out) (console_log out)
        | None => mret ()
        end;;
        console_log (message result);;
        process_exit 0
      else
        console_error (message result);;
        match output result with
        | Some out =>
            when (nonempty out)
              (console_error (js "");;
               console_error (js "Output:");;
               console_error out)
        | None => mret ()
        end;;
        process_exit 1
  end.
End WithHost.
End TestCore.

(** ** test-cores.js *)

(** [Array.prototype.indexOf]; [None] is -1. *)
Fixpoint indexOf (x : jsstring) (l : list jsstring) : option nat :=
  match l with
  | [] => None
  | y :: l' => if bool_decide (y = x) then Some 0%nat else S <$> indexOf x l'
  end.

(** An entry of the [failures] array. *)
Record Failure := {
  failed_core : jsstring;
  failed_message : jsstring;
  failed_output : option jsstring
}.

(** The three accumulators of the test loop. *)
Record Tally := {
  successCount : nat;
  failureCount : nat;
  failures : list Failure
}.

Definition check_mark : jsstring := [10003].
Definition cross_mark : jsstring := [10007].

Module TestCores.

(** [/^(icechips:ttl:[^\s:]+)/] *)
Definition coreRegex : regex :=
  Seq Bol (Group (Seq (Chars (js "icechips:ttl:")) (Plus is_core_char))).

(** The body of the loop over the lines of the listing. *)
Definition scan_line (cores : list jsstring) (line : jsstring) : list jsstring :=
  if includes line (js "icechips:ttl:") then
    match String_match line false coreRegex with
    | Some (Some name) => cores ++ [name]
    | _ => cores
    end
  else cores.

(** What [getAllIceChipsCores] makes of the listing's text. *)
Definition coresOf (listing : jsstring) : list jsstring :=
  Array_sort (foldl scan_line [] (split_on 10 listing)).

Definition getAllIceChipsCores : M (list jsstring) :=
  try_catch
    (out ← execSync (js "fusesoc list-cores") Pipe;
     mret (coresOf (default [] out)))
    (λ error, throw (Error (js "Failed to list cores: " ++ error_message error))).

Definition filterCores (cores : list jsstring) (pattern : option jsstring)
    : list jsstring :=
  match pattern with
  | None | Some [] => cores
  | Some p => filter (λ core, includes core p = true) cores
  end.

(** The body of [cores.forEach((coreName, index) => ...)]; [total] is
    [cores.length]. *)
Definition testCore (verbose : bool) (total : nat) (tally : Tally)
    (coreName : jsstring) (index : nat) : M Tally :=
  let progress := js "[" ++ show_nat (index + 1) ++ js "/" ++ show_nat total ++ js "]" in
  (if verbose then console_log (progress ++ js " Testing " ++ coreName ++ js "...")
   else stdout_write (progress ++ js " " ++ coreName ++ js "... "));;
  result ← TestCore.runFuseSoCSim coreName verbose;
  tally' ←
    (if success result then
       (if verbose then
          console_log (progress ++ js " " ++ check_mark ++ js " " ++ coreName ++ js ": "
                       ++ message result)
        else console_log check_mark);;
       mret {| successCount := S (successCount tally);
               failureCount := failureCount tally;
               failures := failures tally |}
     else
       (if verbose then
          console_error (progress ++ js " " ++ cross_mark ++ js " " ++ coreName ++ js ": "
                         ++ message result);;
          match output result with
          | Some out => when (nonempty out) (console_error out)
          | None => mret ()
          end
        else console_log cross_mark);;
       mret {| successCount := successCount tally;
               failureCount := S (failureCount tally);
               failures := failures tally
                 ++ [{| failed_core := coreName;
                        failed_message := message result;
                        failed_output := output result |}] |});
  when verbose (console_log (js ""));;
  mret tally'.

Fixpoint testFrom (verbose : bool) (total index : nat) (cores : list jsstring)
    (tally : Tally) : M Tally :=
  match cores with
  | [] => mret tally
  | coreName :: rest =>
      tally' ← testCore verbose total tally coreName index;
      testFrom verbose total (S index) rest tally'
  end.

(** The second half of [main]: test each core, then the summary. *)
Definition testAll (cores : list jsstring) (verbose : bool) : M unit :=
  tally ← testFrom verbose (length cores) 0 cores
             {| successCount := 0; failureCount := 0; failures := [] |};
  console_log (js "");;
  console_log (js "Summary:");;
  console_log (js "  Total:   " ++ show_nat (length cores));;
  console_log (js "  Success: " ++ show_nat (successCount tally));;
  console_log (js "  Failed:  " ++ show_nat (failureCount tally));;
  if bool_decide (0 < length (failures tally))%nat then
    console_log (js "");;
    console_log (js "Failures:");;
    forEach (λ f, console_error (js "  " ++ failed_core f ++ js ": " ++ failed_message f))
            (failures tally);;
    process_exit 1
  else
    console_log (js "");;
    console_log (js "All cores passed!").

Definition main (args : list jsstring) : M unit :=
  let verbose := wants_verbose args in
  let filterPattern :=
    match indexOf (js "--filter") args with
    | Some filterIndex =>
        match args !! (filterIndex + 1)%nat with
        | Some p => if nonempty p then Some p else None
        | None => None
        end
    | None => None
    end in
  available ← TestCore.isFuseSoCAvailable;
  if negb available then
    console_error (js "Error: fusesoc command not found.");;
    console_error (js "");;
    console_error (js "Please install FuseSoC and ensure it is in your PATH.");;
    console_error (js "FuseSoC can be installed with: pip install fusesoc");;
    process_exit 1
  else
  cores ← try_catch getAllIceChipsCores
            (λ error,
               console_error (js "Error: " ++ error_message error);;
               process_exit 1);
  if bool_decide (length cores = 0%nat) then
    console_error (js "Error: No icechips cores found.");;
    console_error (js "Make sure core files are in the project root and fusesoc.conf is configured.");;
    process_exit 1
  else
  cores ←
    match filterPattern with
    | Some p =>
        let cores' := filterCores cores (Some p) in
        if bool_decide (length cores' = 0%nat) then
          console_error (js "Error: No cores match filter pattern: " ++ p);;
          process_exit 1
        else mret cores'
    | None => mret cores
    end;
  console_log (js "Found " ++ show_nat (length cores) ++ js " icechips core(s) to test:");;
  (if verbose || bool_decide (length cores ≤ 10)%nat then
     forEach (λ core, console_log (js "  " ++ core)) cores
   else
     console_log (js "  " ++ default [] (head cores) ++ js " ... "
                  ++ default [] (last cores)));;
  console_log (js "");;
  testAll cores verbose.

End TestCores.

(** ** generate-core.js, run as a script *)

Module GenerateCoreCli.
Section WithHost.
Context `{Host}.

(** [main] of generate-core.js; [args] is [process.argv.slice(2)] and
    [projectRoot] is where the script finds itself installed. *)
Definition main (args : list jsstring) (projectRoot : jsstring) : M unit :=
  match args with
  | [] =>
      console_error (js "Usage: node generate-core.js <chip-number> [version]");;
      console_error (js "Example: node generate-core.js 74161");;
      console_error (js "Example: node generate-core.js 74161 0.9.2");;
      process_exit 1
  | chipNumber :: _ =>
      (* args[1] || null *)
      let version :=
        match args !! 1%nat with
        | Some v => if nonempty v then Some v else None
        | None => None
        end in
      finalVersion ←
        match version with
        | Some v => if nonempty v then mret (JStr v)
                    else GenerateCore.getVersionFromPackageJson projectRoot
        | None => GenerateCore.getVersionFromPackageJson projectRoot
        end;
      let sourceDir := path_join projectRoot (js "source-7400") in
      let rtlFileName := chipNumber ++ js ".v" in
      let tbFileName := chipNumber ++ js "-tb.v" in
      rtlThere ← FsReadFileHelper.isExistingFile sourceDir rtlFileName;
      if negb rtlThere then
        console_error (js "Error: RTL file not found: " ++ path_join sourceDir rtlFileName);;
        process_exit 1
      else
      tbThere ← FsReadFileHelper.isExistingFile sourceDir tbFileName;
      if negb tbThere then
        console_error (js "Error: Testbench file not found: "
                       ++ path_join sourceDir tbFileName);;
        process_exit 1
      else
      rtlContent ← FsReadFileHelper.readFile sourceDir rtlFileName;
      tbContent ← FsReadFileHelper.readFile sourceDir tbFileName;
      let rtlModuleName := GenerateCore.extractModuleName rtlContent in
      let tbModuleName := GenerateCore.extractModuleName tbContent in
      match rtlModuleName, tbModuleName with
      | None, _ | Some [], _ =>
          console_error (js "Error: Could not extract module name from " ++ rtlFileName);;
          process_exit 1
      | _, None | _, Some [] =>
          console_error (js "Error: Could not extract module name from " ++ tbFileName);;
          process_exit 1
      | Some rtlName, Some tbName =>
          console_log (js "Extracted RTL module name: " ++ rtlName);;
          console_log (js "Extracted testbench module name: " ++ tbName);;
          (* the template literal in generateCoreFile converts the version *)
          versionText ← lift (ToString finalVersion);
          let coreContent :=
            GenerateCore.generateCoreFile chipNumber versionText rtlName tbName in
          let coreFileName := js "icechips_" ++ chipNumber ++ js ".core" in
          let coreFilePath := path_join projectRoot coreFileName in
          writeFileSync coreFilePath coreContent;;
          console_log (js "Generated core file: " ++ coreFilePath)
      end
  end.

(** The module body when the file is the script being run: [main] is called
    inside a [try] whose [catch] block is empty. *)
Definition script (args : list jsstring) (projectRoot : jsstring) : M unit :=
  try_catch (main args projectRoot) (λ error, mret ()).

End WithHost.
End GenerateCoreCli.

(** ** generate-cores.js, run as a script *)

(** [Array.prototype.join] *)
Fixpoint join_with (sep : jsstring) (l : list jsstring) : jsstring :=
  match l with
  | [] => []
  | [x] => x
  | x :: rest => x ++ sep ++ join_with sep rest
  end.

Module GenerateCoresCli.

(** An entry of the [failures] array. *)
Record Failure := {
  failed_chip : jsstring;
  failed_message : jsstring
}.

(** The three accumulators of the generation loop. *)
Record Tally := {
  successCount : nat;
  failureCount : nat;
  failures : list Failure
}.

Section WithHost.
Context `{Host}.

(** The body of [chipNumbers.forEach((chipNumber) => ...)]. *)
Definition processChip (projectRoot : jsstring) (version : option jsstring)
    (tally : Tally) (chipNumber : jsstring) : M Tally :=
  result ← GenerateCore.generateCoreForChip chipNumber projectRoot version;
  if success result then
    console_log (check_mark ++ js " " ++ chipNumber ++ js ": " ++ message result);;
    mret {| successCount := S (successCount tally);
            failureCount := failureCount tally;
            failures := failures tally |}
  else
    console_error (cross_mark ++ js " " ++ chipNumber ++ js ": " ++ message result);;
    mret {| successCount := successCount tally;
            failureCount := S (failureCount tally);
            failures := failures tally
              ++ [{| failed_chip := chipNumber; failed_message := message result |}] |}.

Fixpoint processFrom (projectRoot : jsstring) (version : option jsstring)
    (chipNumbers : list jsstring) (tally : Tally) : M Tally :=
  match chipNumbers with
  | [] => mret tally
  | chipNumber :: rest =>
      tally' ← processChip projectRoot version tally chipNumber;
      processFrom projectRoot version rest tally'
  end.

(** The second half of [main]: process each chip, then the summary. *)
Definition processAll (projectRoot : jsstring) (version : option jsstring)
    (chipNumbers : list jsstring) : M unit :=
  tally ← processFrom projectRoot version chipNumbers
             {| successCount := 0; failureCount := 0; failures := [] |};
  console_log (js "");;
  console_log (js "Summary:");;
  console_log (js "  Success: " ++ show_nat (successCount tally));;
  console_log (js "  Failed:  " ++ show_nat (failureCount tally));;
  if bool_decide (0 < length (failures tally))%nat then
    console_log (js "");;
    console_log (js "Failures:");;
    forEach (λ f, console_error (js "  " ++ failed_chip f ++ js ": " ++ failed_message f))
            (failures tally);;
    process_exit 1
  else mret ().

(** [main] of generate-cores.js.  It is called bare, so what it throws ends
    the process. *)
Definition main (args : list jsstring) (projectRoot : jsstring) : M unit :=
  (* args[0] || null *)
  let version :=
    match args !! 0%nat with
    | Some v => if nonempty v then Some v else None
    | None => None
    end in
  let sourceDir := path_join projectRoot (js "source-7400") in
  there ← existsSync sourceDir;
  if negb there then
    console_error (js "Error: Source directory not found: " ++ sourceDir);;
    process_exit 1
  else
  chipNumbers ← GenerateCores.getAllChipNumbers sourceDir;
  if bool_decide (length chipNumbers = 0%nat) then
    console_error (js "Error: No chip files found in source-7400 directory");;
    process_exit 1
  else
  console_log (js "Found " ++ show_nat (length chipNumbers) ++ js " chips to process:");;
  console_log (join_with (js ", ") chipNumbers);;
  console_log (js "");;
  processAll projectRoot version chipNumbers.

End WithHost.
End GenerateCoresCli.

(** * Specification vocabulary *)

(** The longest prefix of units of a class, and what follows it. *)
Fixpoint run (p : N → bool) (s : jsstring) : jsstring :=
  match s with
  | c :: s' => if p c then c :: run p s' else []
  | [] => []
  end.

Fixpoint after_run (p : N → bool) (s : jsstring) : jsstring :=
  match s with
  | c :: s' => if p c then after_run p s' else s
  | [] => []
  end.

Definition all_in (p : N → bool) (s : jsstring) : Prop := Forall (λ c, p c = true) s.

(** The unit just before position [i] of a text ([None] at position 0). *)
Definition unit_before (text : jsstring) (i : nat) : option N := last (take i text).

(** [#], [(] or [;] *)
Definition is_opener (c : N) : bool := (c =? 35) || (c =? 40) || (c =? 59).

(** A module declaration read from a position: the position starts a line,
    and from it the text is optional white space, [module], white space, an
    identifier, optional white space and an opener. *)
Definition module_decl (prev : option N) (s name : jsstring) : Prop :=
  at_line_start true prev = true ∧
  ∃ ws ws1 ws2 t rest,
    s = ws ++ js "module" ++ ws1 ++ name ++ ws2 ++ t :: rest ∧
    all_in is_space ws ∧ all_in is_space ws1 ∧ ws1 ≠ [] ∧
    all_in is_word name ∧ name ≠ [] ∧
    all_in is_space ws2 ∧ is_opener t = true.

Definition decl_at (text : jsstring) (i : nat) (name : jsstring) : Prop :=
  (i ≤ length text)%nat ∧ module_decl (unit_before text i) (drop i text) name.

(** A line of a text: it is preceded and followed by a line feed or by the
    end of the text. *)
Definition has_line (text line : jsstring) : Prop :=
  ∃ pre post, text = pre ++ line ++ post
    ∧ (pre = [] ∨ last pre = Some 10) ∧ (post = [] ∨ head post = Some 10).

(** What follows the longest run does not start with a unit of the class. *)
Definition stops (p : N → bool) (s : jsstring) : Prop :=
  match s with
  | c :: _ => p c = false
  | [] => True
  end.

(** An opener at the head of the text, or no match. *)
Definition opener_here {A} (s : jsstring) (found : A) : option A :=
  match s with
  | t :: _ => if is_opener t then Some found else None
  | [] => None
  end.

(** The module pattern read deterministically from one position. *)
Definition scan_module (prev : option N) (s : jsstring) : option (option jsstring) :=
  if at_line_start true prev then
    match strip_prefix (js "module") (after_run is_space s) with
    | Some s1 =>
        let s2 := after_run is_space s1 in
        let s3 := after_run is_space (after_run is_word s2) in
        if nonempty (run is_space s1) && nonempty (run is_word s2)
        then opener_here s3 (Some (run is_word s2))
        else None
    | None => None
    end
  else None.

(** The commands run, in order. *)
Definition execs (evs : list Event) : list jsstring :=
  omap (λ e, match e with Exec command => Some command | _ => None end) evs.

(** The file-system accesses among the events. *)
Definition touches_fs (e : Event) : bool :=
  match e with
  | FsExists _ | FsRead _ | FsReaddir _ | FsWrite _ _ => true
  | _ => false
  end.

Definition fs_events (evs : list Event) : list Event :=
  filter (λ e, touches_fs e = true) evs.

(** Strictly ascending by code units. *)
Definition str_lt (a b : jsstring) : Prop := str_le a b ∧ a ≠ b.

(** A file name of the form digits followed by [.v]. *)
Definition chip_file (fileName chip : jsstring) : Prop :=
  fileName = chip ++ js ".v" ∧ chip ≠ [] ∧ all_in is_digit chip.

(** The manifest as the description gives it (section 6), line by line, with
    the four values at their places. *)
Definition spec_manifest_lines (chipIdentifier version rtlModuleName tbModuleName : jsstring)
    : list jsstring :=
  [ js "CAPI=2:";
    js "name: icechips:ttl:" ++ chipIdentifier ++ js ":" ++ version;
    js "";
    js "# Note: File order matters for iverilog! RTL must come last because";
    js "# the testbench instantiates the DUT module, so the module must be";
    js "# defined before instantiation. Iverilog processes files sequentially";
    js "# and doesn't do multiple passes.";
    js "# Macro dependencies must also be defined first.";
    js "";
    js "filesets:";
    js "  rtl:";
    js "    files:";
    js "      - includes/helper.v";
    js "      - source-7400/" ++ chipIdentifier ++ js ".v";
    js "    file_type: verilogSource";
    js "";
    js "  tb:";
    js "    files:";
    js "      - includes/tbhelper.v";
    js "      - source-7400/" ++ chipIdentifier ++ js "-tb.v";
    js "    file_type: verilogSource";
    js "";
    js "targets:";
    js "  default:";
    js "    filesets: [rtl]";
    js "    toplevel: " ++ rtlModuleName;
    js "  sim:";
    js "    filesets: [tb, rtl]";
    js "    toplevel: " ++ tbModuleName;
    js "    default_tool: icarus";
    js "    tools:";
    js "      icarus: {iverilog_options: [-g2012]}" ].

(** The document: every line followed by a line feed. *)
Definition spec_renderManifest (chipIdentifier version rtlModuleName tbModuleName : jsstring)
    : jsstring :=
  concat ((λ line, line ++ [10]) <$>
          spec_manifest_lines chipIdentifier version rtlModuleName tbModuleName).

(** ** A host and worlds to run the model on *)

Definition dq : jsstring := [34].

(** The text [{ "version": "0.9.2" }] without its spaces. *)
Definition manifest_0_9_2 : jsstring :=
  js "{" ++ dq ++ js "version" ++ dq ++ js ":" ++ dq ++ js "0.9.2" ++ dq ++ js "}".

(** The same with an empty version string. *)
Definition manifest_empty_version : jsstring :=
  js "{" ++ dq ++ js "version" ++ dq ++ js ":" ++ dq ++ dq ++ js "}".

(** [JSON.parse], tabulated on the two documents above. *)
Definition demo_parse (text : jsstring) : JSError + JSValue :=
  if bool_decide (text = manifest_0_9_2) then
    inr (JObj [(js "version", JStr (js "0.9.2"))])
  else if bool_decide (text = manifest_empty_version) then
    inr (JObj [(js "version", JStr [])])
  else inl (Error (js "Unexpected token in JSON")).

(** Paths are joined with a slash; the segments used below need no
    normalising. *)
Definition demo_host : Host :=
  {| JSON_parse := demo_parse;
     ToString_other := λ _, inr (js "[object Object]");
     path_join := λ a b, a ++ js "/" ++ b |}.

(** A shell in which every command succeeds and prints nothing. *)
Definition quiet_shell : jsstring → ProcResult := λ _, Done [].

Definition world_of (files : list (jsstring * Node)) (shell : jsstring → ProcResult)
    : World :=
  {| fs := list_to_map files; sh := shell; trace := []; write_error := λ _, None |}.

(** A project with its manifest and the sources of chip 7400. *)
Definition repo_world : World :=
  world_of [ (js "/repo/package.json", File manifest_0_9_2);
             (js "/repo/source-7400/7400.v", File (js "module ttl_7400 #(parameter N = 4)"));
             (js "/repo/source-7400/7400-tb.v", File (js "module test;"));
             (js "/repo/icechips_7400.core", File (js "CAPI=2:")) ]
           quiet_shell.

(** The same project on a file system that takes no new content. *)
Definition read_only_world : World :=
  {| fs := fs repo_world; sh := quiet_shell; trace := [];
     write_error := λ path,
       Some (Error (js "EROFS: read-only file system, open " ++ quoted path)) |}.

(** The same project with an empty version string in its manifest. *)
Definition unversioned_world : World :=
  world_of [ (js "/repo/package.json", File manifest_empty_version) ] quiet_shell.

(** An empty disk. *)
Definition bare_world : World := world_of [] quiet_shell.

(** The optional [version] argument counts only when it is a non-empty
    string. *)
Definition supplied (version : option jsstring) : bool :=
  match version with
  | Some v => nonempty v
  | None => false
  end.

(** The probe for the orchestrator succeeds. *)
Definition fusesoc_available (w : World) : Prop :=
  ∃ out, sh w (js "which fusesoc") = Done out.

(** The message of a failed resolution. *)
Definition core_not_found (chip : jsstring) : jsstring :=
  js "Core file not found for chip " ++ chip ++ js ". "
  ++ js "Expected: icechips_" ++ chip ++ js ".core".

(** The command of a simulation run. *)
Definition sim_command (coreName : jsstring) : jsstring :=
  js "fusesoc run --target=sim " ++ coreName.

(** The simulation of a core fails in this world. *)
Definition sim_fails (w : World) (coreName : jsstring) : bool :=
  match sh w (sim_command coreName) with
  | Done _ => false
  | Failed _ _ _ => true
  end.


(** How many of the cores fail their simulation. *)
Definition count_failing (w : World) (cores : list jsstring) : nat :=
  length (filter (λ c, sim_fails w c = true) cores).

(** The five lines of the summary. *)
Definition summary_lines (total succeeded failed : nat) : list Event :=
  [ Stdout (js "" ++ [10]);
    Stdout (js "Summary:" ++ [10]);
    Stdout ((js "  Total:   " ++ show_nat total) ++ [10]);
    Stdout ((js "  Success: " ++ show_nat succeeded) ++ [10]);
    Stdout ((js "  Failed:  " ++ show_nat failed) ++ [10]) ].

(** A registry of five cores, two of which fail their simulation. *)
Definition five_cores_listing : jsstring :=
  js "icechips:ttl:7400:0.9.2 : local
icechips:ttl:7402:0.9.2 : local
icechips:ttl:7404:0.9.2 : local
icechips:ttl:7408:0.9.2 : local
icechips:ttl:7410:0.9.2 : local
".

Definition five_cores_shell (command : jsstring) : ProcResult :=
  if bool_decide (command = js "fusesoc list-cores") then Done five_cores_listing
  else if bool_decide (command = sim_command (js "icechips:ttl:7402"))
          || bool_decide (command = sim_command (js "icechips:ttl:7408"))
  then Failed (js "Command failed") [] (js "FAIL")
  else Done [].

Definition five_cores_world : World := world_of [] five_cores_shell.

(** ** More vocabulary *)

(** The text of the version a generation uses, when there is one. *)
Definition version_text `{Host} (root : jsstring) (version : option jsstring) (w : World)
    : option jsstring :=
  if supplied version then version
  else match (GenerateCore.getVersionFromPackageJson root w).1 with
       | Ret v => match ToString v with
                  | inr text => Some text
                  | inl _ => None
                  end
       | _ => None
       end.

(** The error [writeFileSync] throws at a path, if any. *)
Definition write_failure (w : World) (path : jsstring) : option JSError :=
  match fs w !! path with
  | Some (Dir _) =>
      Some (Error (js "EISDIR: illegal operation on a directory, open " ++ quoted path))
  | Some Locked => Some (Error (js "EACCES: permission denied, open " ++ quoted path))
  | _ => write_error w path
  end.

(** What a generation reads: a version, supplied or looked up, and two
    source files that each declare a module. *)
Definition generation_ready `{Host} (chip root : jsstring) (version : option jsstring)
    (w : World) (versionText rtlName tbName : jsstring) : Prop :=
  ∃ rtlText tbText,
    version_text root version w = Some versionText
    ∧ fs w !! path_join (path_join root (js "source-7400")) (chip ++ js ".v")
      = Some (File rtlText)
    ∧ fs w !! path_join (path_join root (js "source-7400")) (chip ++ js "-tb.v")
      = Some (File tbText)
    ∧ GenerateCore.extractModuleName rtlText = Some rtlName
    ∧ GenerateCore.extractModuleName tbText = Some tbName.

(** [args[i] || null] *)
Definition arg_or_null (args : list jsstring) (i : nat) : option jsstring :=
  match args !! i with
  | Some v => if nonempty v then Some v else None
  | None => None
  end.

(** What a line of the listing contributes to the discovery. *)
Definition core_of_line (line : jsstring) : option jsstring :=
  match strip_prefix (js "icechips:ttl:") line with
  | Some rest =>
      if nonempty (run is_core_char rest)
      then Some (js "icechips:ttl:" ++ run is_core_char rest)
      else None
  | None => None
  end.

(** What the process prints, on either stream. *)
Definition console_events (evs : list Event) : list Event :=
  filter (λ e, match e with Stdout _ | Stderr _ => true | _ => false end = true) evs.

(** The progress line of the bulk generator for one chip. *)
Definition chip_report (chip : jsstring) (r : Result) : Event :=
  if success r
  then Stdout ((check_mark ++ js " " ++ chip ++ js ": " ++ message r) ++ [10])
  else Stderr ((cross_mark ++ js " " ++ chip ++ js ": " ++ message r) ++ [10]).

(** The results of generating each chip in turn, as the loop of the bulk
    generator does, and the world that is left; after each generation the
    loop prints its report. *)
Fixpoint generate_each `{Host} (root : jsstring) (version : option jsstring)
    (chips : list jsstring) (w : World) : list Result * World :=
  match chips with
  | [] => ([], w)
  | chip :: rest =>
      match GenerateCore.generateCoreForChip chip root version w with
      | (Ret r, w1) =>
          let later := generate_each root version rest (add_events w1 [chip_report chip r]) in
          (r :: later.1, later.2)
      | (_, w1) => ([], w1)
      end
  end.

(** The four lines of the bulk generator's summary. *)
Definition generation_summary (succeeded failed : nat) : list Event :=
  [ Stdout (js "" ++ [10]);
    Stdout (js "Summary:" ++ [10]);
    Stdout ((js "  Success: " ++ show_nat succeeded) ++ [10]);
    Stdout ((js "  Failed:  " ++ show_nat failed) ++ [10]) ].

(** The four lines printed when the orchestrator is not installed. *)
Definition fusesoc_missing_lines : list Event :=
  [ Stderr (js "Error: fusesoc command not found." ++ [10]);
    Stderr (js "" ++ [10]);
    Stderr (js "Please install FuseSoC and ensure it is in your PATH." ++ [10]);
    Stderr (js "FuseSoC can be installed with: pip install fusesoc" ++ [10]) ].

(** A project in which chip 7402 has no test bench and the RTL of chip 7404
    declares no module. *)
Definition partial_world : World :=
  world_of [ (js "/repo/package.json", File manifest_0_9_2);
             (js "/repo/source-7400", Dir [js "7400.v"; js "7400-tb.v"; js "7402.v";
                                           js "7404.v"; js "7404-tb.v"; js "readme.v"]);
             (js "/repo/source-7400/7400.v", File (js "module ttl_7400 #(parameter N = 4)"));
             (js "/repo/source-7400/7400-tb.v", File (js "module test;"));
             (js "/repo/source-7400/7402.v", File (js "module ttl_7402 (input a);"));
             (js "/repo/source-7400/7404.v", File (js "// nothing declared here"));
             (js "/repo/source-7400/7404-tb.v", File (js "module test;")) ]
           quiet_shell.

(** A machine without the orchestrator. *)
Definition no_fusesoc_world : World :=
  world_of [] (λ command, Failed (js "Command failed: " ++ command) [] []).

(** A shell whose simulations fail in three ways. *)
Definition failing_shell (command : jsstring) : ProcResult :=
  if bool_decide (command = sim_command (js "icechips:ttl:7400:0.9.2"))
  then Failed (js "Command failed") (js "stdout text") (js "stderr text")
  else if bool_decide (command = sim_command (js "icechips:ttl:7402:0.9.2"))
  then Failed (js "Command failed") [] (js "stderr text")
  else if bool_decide (command = sim_command (js "icechips:ttl:7404:0.9.2"))
  then Failed (js "Command failed") [] []
  else Done (js "ok").

Definition failing_world : World :=
  world_of [ (js "/repo/package.json", File manifest_0_9_2);
             (js "/repo/icechips_7400.core", File (js "CAPI=2:")) ]
           failing_shell.

(** How many of the results are successes, and how many failures. *)
Definition succeeded (results : list Result) : nat :=
  length (filter (λ r, success r = true) results).

Definition failed (results : list Result) : nat :=
  length (filter (λ r, success r = false) results).

(** The pattern [main] takes from [--filter <pattern>]. *)
Definition filter_arg (args : list jsstring) : option jsstring :=
  match indexOf (js "--filter") args with
  | Some filterIndex =>
      match args !! (filterIndex + 1)%nat with
      | Some p => if nonempty p then Some p else None
      | None => None
      end
  | None => None
  end.

(** A core file left behind by a project whose manifest is gone. *)
Definition orphan_core_world : World :=
  world_of [ (js "/repo/icechips_7400.core", File (js "CAPI=2:")) ] quiet_shell.

(** The message of the result of a failed simulation. *)
Definition failure_message (w : World) (coreName : jsstring) : jsstring :=
  match sh w (sim_command coreName) with
  | Failed msg _ _ => js "Simulation failed for " ++ coreName ++ js ": " ++ msg
  | Done _ => []
  end.

(** What the quiet test loop does, core after core. *)
Fixpoint quiet_progress (w : World) (total index : nat) (cores : list jsstring)
    : list Event :=
  match cores with
  | [] => []
  | coreName :: rest =>
      [ Stdout ((js "[" ++ show_nat (index + 1) ++ js "/" ++ show_nat total ++ js "]")
                ++ js " " ++ coreName ++ js "... ");
        Exec (sim_command coreName);
        Stdout ((if sim_fails w coreName then cross_mark else check_mark) ++ [10]) ]
      ++ quiet_progress w total (S index) rest
  end.

(** What follows the summary. *)
Definition closing_lines (w : World) (cores : list jsstring) : list Event :=
  if bool_decide (count_failing w cores = 0%nat)
  then [ Stdout (js "" ++ [10]); Stdout (js "All cores passed!" ++ [10]) ]
  else [ Stdout (js "" ++ [10]); Stdout (js "Failures:" ++ [10]) ]
       ++ ((λ coreName,
              Stderr ((js "  " ++ coreName ++ js ": " ++ failure_message w coreName) ++ [10]))
             <$> filter (λ c, sim_fails w c = true) cores).

(** What the listing of the failures shows of an entry. *)
Definition failed_pair (f : Failure) : jsstring * jsstring :=
  (failed_core f, failed_message f).

(** * Properties *)

(** ** Strings *)

Lemma strip_prefix_Some l s s' : strip_prefix l s = Some s' ↔ s = l ++ s'.
Proof.
  revert s. induction l as [|a l IH]; intros s; simpl.
  - split; [intros [= ->]|intros ->]; done.
  - destruct s as [|b s]; [split; done|].
    destruct (N.eqb_spec a b) as [->|Hne].
    + rewrite IH. split; [intros ->|intros [= ->]]; done.
    + split; [done|]. intros [= ? ?]. done.
Qed.

Lemma strip_prefix_app l s : strip_prefix l (l ++ s) = Some s.
Proof. by apply strip_prefix_Some. Qed.

Lemma startsWith_true s l : startsWith s l = true ↔ ∃ post, s = l ++ post.
Proof.
  unfold startsWith. rewrite bool_decide_eq_true. split.
  - intros [s' Hs]. exists s'. by apply strip_prefix_Some.
  - intros [post ->]. rewrite strip_prefix_app. by eexists.
Qed.

Lemma includes_true s l : includes s l = true ↔ ∃ pre post, s = pre ++ l ++ post.
Proof.
  induction s as [|c s IH]; simpl.
  - destruct (startsWith [] l) eqn:E.
    + apply startsWith_true in E as [post E]. split; [|done].
      intros _. exists [], post. done.
    + split; [done|]. intros (pre & post & E').
      destruct pre; [|done]. simpl in E'.
      assert (startsWith [] l = true) by (apply startsWith_true; eauto). congruence.
  - destruct (startsWith (c :: s) l) eqn:E.
    + apply startsWith_true in E as [post E]. split; [|done].
      intros _. exists [], post. done.
    + rewrite IH. split.
      * intros (pre & post & ->). by exists (c :: pre), post.
      * intros (pre & post & E'). destruct pre as [|c' pre].
        -- assert (startsWith (c :: s) l = true) by (apply startsWith_true; eauto).
           congruence.
        -- injection E' as -> ->. eauto.
Qed.

Lemma includes_false s l :
  includes s l = false ↔ ∀ pre post, s ≠ pre ++ l ++ post.
Proof.
  rewrite <- not_true_iff_false, includes_true. split.
  - intros Hn pre post E. apply Hn. eauto.
  - intros Hn (pre & post & E). by eapply Hn.
Qed.

Lemma endsWith_true s l : endsWith s l = true ↔ ∃ pre, s = pre ++ l.
Proof.
  unfold endsWith. rewrite startsWith_true. split.
  - intros [post E]. exists (reverse post).
    apply (inj reverse). by rewrite reverse_app, reverse_involutive.
  - intros [pre ->]. exists (reverse pre). by rewrite reverse_app.
Qed.


Lemma split_on_cons_sep sep s : split_on sep (sep :: s) = [] :: split_on sep s.
Proof. simpl. by rewrite N.eqb_refl. Qed.

Lemma split_on_app_sep sep a s :
  sep ∉ a → split_on sep (a ++ sep :: s) = a :: split_on sep s.
Proof.
  induction a as [|c a IH]; intros Ha.
  - apply split_on_cons_sep.
  - simpl. destruct (N.eqb_spec c sep) as [->|Hne]; [set_solver|].
    rewrite IH; [done|set_solver].
Qed.

Lemma split_on_lines (lines : list jsstring) :
  Forall (λ line, 10 ∉ line) lines →
  split_on 10 (concat ((λ line, line ++ [10]) <$> lines)) = lines ++ [[]].
Proof.
  induction 1 as [|line lines Hline _ IH]; [done|].
  cbn [fmap list_fmap concat]. rewrite <- app_assoc. cbn [app].
  rewrite split_on_app_sep by done. by rewrite IH.
Qed.

(** ** Character classes *)

Lemma in_range_true lo hi c : in_range lo hi c = true ↔ lo ≤ c ∧ c ≤ hi.
Proof. unfold in_range. rewrite andb_true_iff, !N.leb_le. done. Qed.

Ltac class_facts :=
  unfold is_space, is_word, is_digit, is_opener, is_core_char, is_line_terminator, colon in *;
  repeat match goal with
    | H : _ = false |- _ => apply not_true_iff_false in H
    | |- _ = false => apply not_true_iff_false; intro
    end;
  rewrite ?negb_true_iff, ?andb_true_iff, ?orb_true_iff, ?negb_true_iff,
    ?in_range_true, ?N.eqb_eq, ?N.eqb_neq in *.

Lemma space_not_word c : is_space c = true → is_word c = false.
Proof. intros. class_facts. lia. Qed.

Lemma word_not_space c : is_word c = true → is_space c = false.
Proof. intros. class_facts. lia. Qed.

Lemma space_not_opener c : is_space c = true → is_opener c = false.
Proof. intros. class_facts. lia. Qed.

Lemma word_not_opener c : is_word c = true → is_opener c = false.
Proof. intros. class_facts. lia. Qed.

Lemma opener_not_space c : is_opener c = true → is_space c = false.
Proof. intros. class_facts. lia. Qed.

Lemma opener_not_word c : is_opener c = true → is_word c = false.
Proof. intros. class_facts. lia. Qed.

Lemma digit_is_word c : is_digit c = true → is_word c = true.
Proof. intros. class_facts. lia. Qed.

(** ** The matcher *)

Lemma run_after_run p s : run p s ++ after_run p s = s.
Proof. induction s as [|c s IH]; simpl; [done|]. destruct (p c); simpl; congruence. Qed.

Lemma run_all_in p s : all_in p (run p s).
Proof.
  induction s as [|c s IH]; simpl; [constructor|].
  destruct (p c) eqn:E; constructor; done.
Qed.

Lemma after_run_stops p s : stops p (after_run p s).
Proof. induction s as [|c s IH]; simpl; [done|]. destruct (p c) eqn:E; done. Qed.

Lemma run_unique p ws rest :
  all_in p ws → stops p rest → run p (ws ++ rest) = ws ∧ after_run p (ws ++ rest) = rest.
Proof.
  intros Hws Hrest. induction Hws as [|c ws Hc _ IH]; simpl.
  - destruct rest as [|c rest]; [done|]. simpl in *. by rewrite Hrest.
  - rewrite Hc. destruct IH as [-> ->]. done.
Qed.

Lemma last_unit_cons c l prev : last_unit (c :: l) prev = last_unit l (Some c).
Proof. unfold last_unit. destruct l as [|d l]; [done|]. rewrite last_cons_cons.
  destruct (last (d :: l)) eqn:E; [done|]. by apply last_None in E. Qed.

Lemma last_unit_app l1 l2 prev : last_unit (l1 ++ l2) prev = last_unit l2 (last_unit l1 prev).
Proof.
  revert prev. induction l1 as [|c l1 IH]; intros prev; simpl; [done|].
  rewrite !last_unit_cons. apply IH.
Qed.

Section MatcherFacts.
Context {R : Type}.
Implicit Types k : option N → jsstring → option R.

(** A repetition whose continuation cannot start with a unit of the class
    has one way to match: the longest run. *)
Lemma star_longest p k prev s :
  (∀ prev' c s', p c = true → k prev' (c :: s') = None) →
  star p k prev s = k (last_unit (run p s) prev) (after_run p s).
Proof.
  intros Hk. revert prev. induction s as [|c s IH]; intros prev; simpl; [done|].
  destruct (p c) eqn:E; [|done].
  rewrite IH, last_unit_cons, (Hk prev c s E).
  by destruct (k _ _).
Qed.

(** A repetition whose continuation accepts anything takes the longest run. *)
Lemma star_longest_total p k prev s :
  (∀ prev' s', is_Some (k prev' s')) →
  star p k prev s = k (last_unit (run p s) prev) (after_run p s).
Proof.
  intros Hk. revert prev. induction s as [|c s IH]; intros prev; simpl; [done|].
  destruct (p c) eqn:E; [|done].
  rewrite IH, last_unit_cons.
  by destruct (Hk (last_unit (run p s) (Some c)) (after_run p s)) as [r ->].
Qed.
End MatcherFacts.

Lemma unit_before_0 text : unit_before text 0 = None.
Proof. unfold unit_before. by rewrite take_0. Qed.

Lemma unit_before_S c text i : unit_before (c :: text) (S i) = last_unit (take i text) (Some c).
Proof.
  unfold unit_before, last_unit. simpl. destruct (take i text) as [|d l]; [done|].
  rewrite last_cons_cons. destruct (last (d :: l)) eqn:E; [done|]. by apply last_None in E.
Qed.

(** The search reports the leftmost position at which the pattern matches. *)
Lemma last_unit_nil prev : last_unit [] prev = prev.
Proof. done. Qed.

Local Ltac at_start := simpl in *; rewrite ?last_unit_nil in *.

Lemma search_Some multiline r prev s cap :
  search multiline r prev s = Some cap ↔
  ∃ i, (i ≤ length s)%nat
       ∧ match_here multiline r (last_unit (take i s) prev) (drop i s) = Some cap
       ∧ ∀ j, (j < i)%nat →
           match_here multiline r (last_unit (take j s) prev) (drop j s) = None.
Proof.
  revert prev. induction s as [|c s IH]; intros prev; simpl.
  - destruct (match_here multiline r prev []) eqn:E.
    + split.
      * intros [= ->]. exists 0%nat. split_and!; [done|done|intros; lia].
      * intros (i & Hi & Hm & _). destruct i; at_start; [congruence|lia].
    + split; [done|]. intros (i & Hi & Hm & _).
      destruct i; at_start; [congruence|lia].
  - destruct (match_here multiline r prev (c :: s)) eqn:E.
    + split.
      * intros [= ->]. exists 0%nat. split_and!; [simpl; lia|done|intros; lia].
      * intros (i & Hi & Hm & Hj). destruct i as [|i]; [at_start; congruence|].
        specialize (Hj 0%nat ltac:(lia)). at_start. congruence.
    + rewrite IH. split.
      * intros (i & Hi & Hm & Hj). exists (S i). simpl. rewrite last_unit_cons.
        split_and!; [lia|done|].
        intros [|j] Hlt; simpl; [done|]. rewrite last_unit_cons. apply Hj. lia.
      * intros (i & Hi & Hm & Hj). destruct i as [|i]; [at_start; congruence|].
        exists i. simpl in Hm, Hi. rewrite last_unit_cons in Hm.
        split_and!; [lia|done|].
        intros j Hlt. specialize (Hj (S j) ltac:(lia)). simpl in Hj.
        by rewrite last_unit_cons in Hj.
Qed.

Lemma search_None multiline r prev s :
  search multiline r prev s = None ↔
  ∀ i, (i ≤ length s)%nat →
       match_here multiline r (last_unit (take i s) prev) (drop i s) = None.
Proof.
  revert prev. induction s as [|c s IH]; intros prev; simpl.
  - destruct (match_here multiline r prev []) eqn:E.
    + split; [done|]. intros Hn. specialize (Hn 0%nat ltac:(lia)). at_start. congruence.
    + split; [|done]. intros _ i Hi. by replace i with 0%nat by lia.
  - destruct (match_here multiline r prev (c :: s)) eqn:E.
    + split; [done|]. intros Hn. specialize (Hn 0%nat ltac:(simpl; lia)). at_start. congruence.
    + rewrite IH. split.
      * intros Hn [|i] Hi; simpl; [done|]. rewrite last_unit_cons. apply Hn. simpl in Hi. lia.
      * intros Hn i Hi. specialize (Hn (S i) ltac:(simpl; lia)). simpl in Hn.
        by rewrite last_unit_cons in Hn.
Qed.

(** Without the [m] flag a pattern that starts with [^] matches at the
    start of the input or nowhere. *)
Lemma search_anchored r s :
  search false (Seq Bol r) None s = match_here false (Seq Bol r) None s.
Proof.
  assert (Hany : ∀ c s', search false (Seq Bol r) (Some c) s' = None).
  { intros c s'. revert c. induction s' as [|d s' IH]; intros c; simpl; [done|]. apply IH. }
  destruct s as [|c s]; simpl.
  - by destruct (match_here _ _ _ _).
  - destruct (match_here _ _ _ _); [done|]. apply Hany.
Qed.

Lemma take_run p s : take (length s - length (after_run p s)) s = run p s.
Proof.
  induction s as [|c s IH]; simpl; [done|].
  destruct (p c) eqn:E; simpl.
  - assert (length (after_run p s) ≤ length s)%nat.
    { rewrite <- (run_after_run p s) at 2. rewrite length_app. lia. }
    replace (S (length s) - length (after_run p s))%nat
      with (S (length s - length (after_run p s))) by lia.
    simpl. by rewrite IH.
  - by rewrite Nat.sub_diag.
Qed.

(** A literal that does not start with a unit of a class cannot start where
    such a unit stands. *)
Lemma strip_prefix_class p l c s :
  l ≠ [] → stops p l → p c = true → strip_prefix l (c :: s) = None.
Proof.
  destruct l as [|a l]; [done|]. simpl. intros _ Ha Hc.
  destruct (N.eqb_spec a c) as [->|]; [congruence|done].
Qed.

Lemma stops_app p q ws rest :
  all_in q ws → (∀ c, q c = true → p c = false) → stops p rest → stops p (ws ++ rest).
Proof. intros Hws Hq Hrest. destruct Hws as [|c ws Hc _]; simpl; auto. Qed.

(** ** extractModuleName *)

Lemma alt_opener {A} (s : jsstring) (found : A) :
  match
    match strip_prefix (js "#") s with
    | Some _ => Some found
    | None => None
    end
  with
  | Some x => Some x
  | None =>
      match
        match strip_prefix (js "(") s with
        | Some _ => Some found
        | None => None
        end
      with
      | Some x => Some x
      | None =>
          match strip_prefix (js ";") s with
          | Some _ => Some found
          | None => None
          end
      end
  end = opener_here s found.
Proof.
  destruct s as [|t s]; [done|].
  change (js "#") with [35]. change (js "(") with [40]. change (js ";") with [59].
  unfold opener_here, is_opener. cbn [strip_prefix].
  rewrite !(N.eqb_sym _ t).
  destruct (t =? 35), (t =? 40), (t =? 59); done.
Qed.

(** Backtracking never finds a second way to read the module pattern. *)
Lemma module_here prev s :
  match_here true GenerateCore.moduleRegex prev s = scan_module prev s.
Proof.
  unfold match_here, scan_module, GenerateCore.moduleRegex, Plus. cbn [rmatch].
  destruct (at_line_start true prev); [|done].
  rewrite star_longest.
  2:{ intros prev' c s' Hc. by rewrite (strip_prefix_class is_space). }
  destruct (strip_prefix _ _) as [s1|]; [|done].
  destruct s1 as [|c1 s1]; [done|]. cbn [run after_run].
  destruct (is_space c1) eqn:E1; [|done].
  rewrite star_longest.
  2:{ intros prev' c s' Hc. by rewrite (space_not_word c Hc). }
  cbn [nonempty andb].
  destruct (after_run is_space s1) as [|c2 s2]; [done|]. cbn [run after_run].
  destruct (is_word c2) eqn:E2; [|done].
  rewrite star_longest.
  2:{ intros prev' c s' Hc. rewrite star_longest.
      - cbn [run after_run]. rewrite (word_not_space c Hc). rewrite alt_opener.
        unfold opener_here. by rewrite (word_not_opener c Hc).
      - intros prev'' d s'' Hd. rewrite alt_opener.
        unfold opener_here. by rewrite (space_not_opener d Hd). }
  rewrite star_longest.
  2:{ intros prev'' d s'' Hd. rewrite alt_opener.
      unfold opener_here. by rewrite (space_not_opener d Hd). }
  rewrite alt_opener. cbn [nonempty].
  pose proof (take_run is_word (c2 :: s2)) as Ht. cbn [run after_run] in Ht.
  rewrite E2 in Ht. by rewrite Ht.
Qed.

Lemma nonempty_true s : nonempty s = true ↔ s ≠ [].
Proof. by destruct s. Qed.

Lemma opener_here_Some {A} s (found x : A) :
  opener_here s found = Some x ↔ ∃ t rest, s = t :: rest ∧ is_opener t = true ∧ x = found.
Proof.
  destruct s as [|t s]; simpl.
  - split; [done|]. by intros (? & ? & ? & _).
  - destruct (is_opener t) eqn:E.
    + split; [intros [= <-]; eauto|]. by intros (? & ? & _ & _ & ->).
    + split; [done|]. intros (? & ? & [= <- <-] & ? & _). congruence.
Qed.

Lemma scan_module_group prev s cap :
  scan_module prev s = Some cap → ∃ name, cap = Some name.
Proof.
  unfold scan_module. destruct (at_line_start true prev); [|done].
  destruct (strip_prefix _ _); [|done]. simpl.
  destruct (_ && _); [|done].
  intros (? & ? & _ & _ & ->)%opener_here_Some. eauto.
Qed.

Lemma scan_module_decl prev s name :
  scan_module prev s = Some (Some name) ↔ module_decl prev s name.
Proof.
  unfold scan_module, module_decl. split.
  - destruct (at_line_start true prev); [|done].
    destruct (strip_prefix _ _) as [s1|] eqn:Hm; [|done]. cbv zeta.
    destruct (_ && _) eqn:Hne; [|done].
    apply andb_true_iff in Hne as [Hn1 Hn2]. apply nonempty_true in Hn1, Hn2.
    intros (t & rest & Hrest & Ht & [= ->])%opener_here_Some.
    split; [done|].
    exists (run is_space s), (run is_space s1),
      (run is_space (after_run is_word (after_run is_space s1))), t, rest.
    split_and!; try done; try apply run_all_in.
    apply strip_prefix_Some in Hm.
    rewrite <- Hrest, !run_after_run, <- Hm. by rewrite run_after_run.
  - intros (-> & ws & ws1 & ws2 & t & rest & -> & Hws & Hws1 & Hne1 & Hname & Hne & Hws2 & Ht).
    assert (Hs3 : stops is_space (t :: rest)) by (by apply opener_not_space).
    assert (Hs2 : stops is_word (ws2 ++ t :: rest)).
    { eapply stops_app; [done|apply space_not_word|by apply opener_not_word]. }
    assert (Hs1 : stops is_space (name ++ ws2 ++ t :: rest)).
    { destruct Hname as [|c name Hc _]; [done|]. by apply word_not_space. }
    assert (Hs0 : stops is_space (js "module" ++ ws1 ++ name ++ ws2 ++ t :: rest)) by done.
    destruct (run_unique _ _ _ Hws Hs0) as [_ ->].
    rewrite strip_prefix_app. cbv zeta.
    destruct (run_unique _ _ _ Hws1 Hs1) as [-> ->].
    destruct (run_unique _ _ _ Hname Hs2) as [-> ->].
    destruct (run_unique _ _ _ Hws2 Hs3) as [_ ->].
    apply nonempty_true in Hne1, Hne. rewrite Hne1, Hne. simpl. by rewrite Ht.
Qed.

Lemma module_here_decl prev s name :
  match_here true GenerateCore.moduleRegex prev s = Some (Some name) ↔ module_decl prev s name.
Proof. rewrite module_here. apply scan_module_decl. Qed.

Lemma module_here_None prev s :
  match_here true GenerateCore.moduleRegex prev s = None ↔ ∀ name, ¬ module_decl prev s name.
Proof.
  rewrite module_here. split.
  - intros Hn name Hd%scan_module_decl. congruence.
  - intros Hn. destruct (scan_module prev s) as [cap|] eqn:E; [|done].
    destruct (scan_module_group _ _ _ E) as [name ->].
    by apply scan_module_decl, Hn in E.
Qed.

Lemma last_unit_None l : last_unit l None = last l.
Proof. unfold last_unit. by destruct (last l). Qed.

Lemma String_match_module_group text :
  String_match text true GenerateCore.moduleRegex ≠ Some None.
Proof.
  unfold String_match. intros (i & _ & Hm & _)%search_Some.
  rewrite module_here in Hm. by apply scan_module_group in Hm as [? ?].
Qed.

Lemma extractModuleName_Some text name :
  GenerateCore.extractModuleName text = Some name ↔
  ∃ i, decl_at text i name ∧ ∀ j other, (j < i)%nat → ¬ decl_at text j other.
Proof.
  unfold GenerateCore.extractModuleName, decl_at, unit_before.
  pose proof (String_match_module_group text) as Hgroup.
  unfold String_match in *. split.
  - destruct (search _ _ _ _) as [m|] eqn:E; [|done]. intros ->.
    apply search_Some in E as (i & Hi & Hm & Hj). rewrite last_unit_None in Hm.
    exists i. split; [split; [done|by apply module_here_decl]|].
    intros j other Hlt [_ Hd]. specialize (Hj j Hlt). rewrite last_unit_None in Hj.
    by eapply module_here_None in Hj.
  - intros (i & [Hi Hd] & Hj).
    assert (search true GenerateCore.moduleRegex None text = Some (Some name)) as ->; [|done].
    apply search_Some. exists i. rewrite last_unit_None.
    split_and!; [done|by apply module_here_decl|].
    intros j Hlt. rewrite last_unit_None. apply module_here_None.
    intros other Hd'. apply (Hj j other Hlt). split; [lia|done].
Qed.

Lemma extractModuleName_None text :
  GenerateCore.extractModuleName text = None ↔ ∀ i name, ¬ decl_at text i name.
Proof.
  unfold GenerateCore.extractModuleName, decl_at, unit_before.
  pose proof (String_match_module_group text) as Hgroup.
  unfold String_match in *. split.
  - destruct (search _ _ _ _) as [m|] eqn:E.
    { intros ->. done. }
    intros _ i name [Hi Hd]. rewrite search_None in E. specialize (E i Hi).
    rewrite last_unit_None in E. by eapply module_here_None in E.
  - intros Hn.
    assert (search true GenerateCore.moduleRegex None text = None) as ->; [|done].
    apply search_None. intros i Hi. rewrite last_unit_None. apply module_here_None.
    intros name Hd. by apply (Hn i name).
Qed.

Lemma decl_at_includes text i name : decl_at text i name → includes text (js "module") = true.
Proof.
  intros [Hi (_ & ws & ws1 & ws2 & t & rest & Hd & _)].
  apply includes_true. exists (take i text ++ ws), (ws1 ++ name ++ ws2 ++ t :: rest).
  rewrite <- (take_drop i text) at 1. rewrite Hd. by rewrite <- !app_assoc.
Qed.

(** A declaration written with one space and no space before the opener. *)
Lemma decl_at_plain pre name t rest :
  at_line_start true (last pre) = true → name ≠ [] → all_in is_word name →
  is_opener t = true →
  decl_at (pre ++ js "module " ++ name ++ t :: rest) (length pre) name.
Proof.
  intros Hstart Hne Hname Ht. split; [rewrite length_app; lia|].
  unfold unit_before. rewrite take_app_length, drop_app_length.
  split; [done|]. exists [], [32], [], t, rest.
  split_and!; try done; repeat constructor.
Qed.

(** C2, as amended: [extractModuleName] returns the identifier of the
    leftmost module declaration, where a declaration is read from the start
    of a line as optional white space, [module], white space, a run of word
    characters, optional white space and one of [#], [(], [;]; it returns
    null exactly when the text has no such declaration, in particular when
    it does not contain [module].  So a text whose first declaration is the
    line [module foo(] gives [foo], and likewise for [module bar;]. *)
Theorem extractModuleName_first_declaration (text : jsstring) :
  (∀ name, GenerateCore.extractModuleName text = Some name ↔
     ∃ i, decl_at text i name ∧ ∀ j other, (j < i)%nat → ¬ decl_at text j other)
  ∧ (GenerateCore.extractModuleName text = None ↔ ∀ i name, ¬ decl_at text i name)
  ∧ (includes text (js "module") = false → GenerateCore.extractModuleName text = None)
  ∧ (∀ pre name t rest,
       text = pre ++ js "module " ++ name ++ t :: rest →
       at_line_start true (last pre) = true →
       name ≠ [] → all_in is_word name → is_opener t = true →
       (∀ j other, (j < length pre)%nat → ¬ decl_at text j other) →
       GenerateCore.extractModuleName text = Some name).
Proof.
  split_and!.
  - intros name. apply extractModuleName_Some.
  - apply extractModuleName_None.
  - intros Hno. apply extractModuleName_None. intros i name Hd%decl_at_includes. congruence.
  - intros pre name t rest -> Hstart Hne Hname Ht Hfirst.
    apply extractModuleName_Some. exists (length pre). split; [|done].
    by apply decl_at_plain.
Qed.

Lemma extractModuleName_first_declaration_witness :
  includes (js "assign y = a & b;") (js "module") = false
  ∧ GenerateCore.extractModuleName (js "assign y = a & b;") = None.
Proof.
  split; [vm_compute; reflexivity|].
  refine (proj1 (proj2 (proj2 (extractModuleName_first_declaration (js "assign y = a & b;")))) _).
  vm_compute; reflexivity.
Defined.

(** [module foo(] and [module bar;] on the first line. *)
Example extractModuleName_foo rest :
  GenerateCore.extractModuleName (js "module foo(" ++ rest) = Some (js "foo").
Proof.
  apply extractModuleName_Some. exists 0%nat. split; [|intros; lia].
  apply (decl_at_plain [] (js "foo") 40 rest); try done. repeat constructor.
Qed.

Example extractModuleName_bar rest :
  GenerateCore.extractModuleName (js "module bar;" ++ rest) = Some (js "bar").
Proof.
  apply extractModuleName_Some. exists 0%nat. split; [|intros; lia].
  apply (decl_at_plain [] (js "bar") 59 rest); try done. repeat constructor.
Qed.

(** C2, as stated, fails: a text can contain the line [module foo(] after an
    earlier declaration, and the earlier identifier is returned. *)
Lemma extractModuleName_not_any_line :
  ¬ ∀ text, has_line text (js "module foo(") →
            GenerateCore.extractModuleName text = Some (js "foo").
Proof.
  intros Hclaim.
  specialize (Hclaim (js "module a;" ++ [10] ++ js "module foo(")).
  assert (GenerateCore.extractModuleName (js "module a;" ++ [10] ++ js "module foo(")
          = Some (js "a")) as Hrun by (vm_compute; reflexivity).
  rewrite Hrun in Hclaim. discriminate Hclaim.
  exists (js "module a;" ++ [10]), []. split_and!; [done|by right|by left].
Qed.

(** ** Effects *)

Lemma add_events_nil w : add_events w [] = w.
Proof. destruct w. unfold add_events. simpl. by rewrite app_nil_r. Qed.

Lemma add_events_app w evs1 evs2 :
  add_events (add_events w evs1) evs2 = add_events w (evs1 ++ evs2).
Proof. unfold add_events. simpl. by rewrite app_assoc. Qed.

Lemma fs_add_events w evs : fs (add_events w evs) = fs w.
Proof. done. Qed.

Lemma sh_add_events w evs : sh (add_events w evs) = sh w.
Proof. done. Qed.

Lemma write_error_add_events w evs : write_error (add_events w evs) = write_error w.
Proof. done. Qed.

Lemma execs_app evs1 evs2 : execs (evs1 ++ evs2) = execs evs1 ++ execs evs2.
Proof. apply omap_app. Qed.

(** Unfolds the monad until the next choice the script makes. *)
Ltac run :=
  repeat (progress (unfold mbind, M_bind, mret, M_ret, throw, lift, emit, the_world, set_fs,
                      try_catch, process_exit, when, console_log, console_error,
                      stdout_write in *;
                    cbn [fst snd] in *;
                    rewrite ?fs_add_events, ?sh_add_events, ?write_error_add_events,
                      ?add_events_app in * )).

Lemma writeFileSync_runs path content w :
  writeFileSync path content w
  = match write_failure w path with
    | Some e => (Throw e, add_events w [FsWrite path content])
    | None =>
        (Ret (), {| fs := <[path := File content]> (fs w); sh := sh w;
                    trace := trace (add_events w [FsWrite path content]);
                    write_error := write_error w |})
    end.
Proof.
  unfold writeFileSync, write_failure. run.
  destruct (fs w !! path) as [[| |]|]; try done; by destruct (write_error w path).
Qed.

(** ** Sorting *)

Global Instance str_le_total : Total str_le.
Proof.
  intros a. unfold str_le. induction a as [|x a IH]; intros [|y b]; simpl; auto.
  destruct (N.ltb_spec x y), (N.ltb_spec y x), (N.eqb_spec x y), (N.eqb_spec y x);
    simpl; auto; lia.
Qed.

Global Instance str_le_trans : Transitive str_le.
Proof.
  intros a. unfold str_le. induction a as [|x a IH]; intros [|y b] [|z c]; simpl; auto;
    try discriminate.
  destruct (N.ltb_spec x y), (N.ltb_spec y z), (N.ltb_spec x z),
    (N.eqb_spec x y), (N.eqb_spec y z), (N.eqb_spec x z); simpl; auto; try lia;
    try discriminate.
  apply IH.
Qed.

Lemma sorted_strict (l : list jsstring) :
  StronglySorted str_le l → NoDup l → StronglySorted str_lt l.
Proof.
  induction 1 as [|a l Hs IH Ha]; intros Hnd; constructor.
  - apply IH. by apply NoDup_cons in Hnd as [_ ?].
  - apply NoDup_cons in Hnd as [Hin _].
    apply Forall_forall. intros b Hb. split.
    + by eapply Forall_forall in Ha.
    + intros ->. done.
Qed.

Lemma Array_sort_elem x l : x ∈ Array_sort l ↔ x ∈ l.
Proof. unfold Array_sort. by rewrite merge_sort_Permutation. Qed.

Lemma Array_sort_sorted l : NoDup l → StronglySorted str_lt (Array_sort l).
Proof.
  intros Hnd. apply sorted_strict.
  - apply StronglySorted_merge_sort; apply _.
  - unfold Array_sort. by rewrite merge_sort_Permutation.
Qed.

(** ** Chip discovery *)

Lemma chip_here prev s :
  match_here false GenerateCores.chipFileRegex prev s =
    if at_line_start false prev then
      if nonempty (run is_digit s) then
        match strip_prefix (js ".v") (after_run is_digit s) with
        | Some [] => Some (Some (run is_digit s))
        | _ => None
        end
      else None
    else None.
Proof.
  unfold match_here, GenerateCores.chipFileRegex, Plus. cbn [rmatch].
  destruct (at_line_start false prev); [|done].
  destruct s as [|c s]; [done|]. cbn [run after_run].
  destruct (is_digit c) eqn:E; [|done].
  rewrite star_longest.
  2:{ intros prev' d s' Hd. by rewrite (strip_prefix_class is_digit). }
  cbn [nonempty].
  destruct (strip_prefix _ _) as [[|x r]|]; [|done..].
  cbn [at_line_end].
  pose proof (take_run is_digit (c :: s)) as Ht. cbn [run after_run] in Ht.
  rewrite E in Ht. by rewrite Ht.
Qed.

Lemma no_hyphen d tail needle :
  all_in is_digit d → 45 ∉ tail → 45 ∈ needle → includes (d ++ tail) needle = false.
Proof.
  intros Hd Htail Hneedle. apply includes_false. intros pre post E.
  assert (45 ∈ d ++ tail) as [Hin|Hin]%elem_of_app; [| |done].
  { rewrite E. set_solver. }
  unfold all_in in Hd. rewrite Forall_forall in Hd. by apply Hd in Hin.
Qed.

Lemma extractChipNumber_Some f d :
  GenerateCores.extractChipNumber f = Some d ↔
  f = d ++ js ".v" ∧ d ≠ [] ∧ all_in is_digit d.
Proof.
  unfold GenerateCores.extractChipNumber, String_match.
  pose proof (chip_here None f) as Hc. unfold GenerateCores.chipFileRegex in *.
  rewrite search_anchored, Hc. clear Hc. cbn [at_line_start]. split.
  - destruct (nonempty _) eqn:Hne; [|done].
    destruct (strip_prefix _ _) as [[|x r]|] eqn:Hs; [|done..].
    destruct (negb _); [|done]. intros [= <-].
    apply strip_prefix_Some in Hs. rewrite app_nil_r in Hs.
    split_and!; [by rewrite <- Hs, run_after_run|by apply nonempty_true|apply run_all_in].
  - intros (-> & Hne & Hd).
    destruct (run_unique is_digit d (js ".v") Hd) as [-> ->]; [done|].
    apply nonempty_true in Hne. rewrite Hne.
    change (strip_prefix (js ".v") (js ".v")) with (Some (@nil N)).
    rewrite (no_hyphen d (js ".v") (js "-tb")); [done|done| |]; vm_compute; set_solver.
Qed.

Lemma collect_chip acc f :
  GenerateCores.collect acc f =
    match GenerateCores.extractChipNumber f with
    | Some x => Set_add x acc
    | None => acc
    end.
Proof.
  unfold GenerateCores.collect.
  destruct (GenerateCores.extractChipNumber f) as [d|] eqn:E.
  - apply extractChipNumber_Some in E as (-> & Hne & Hd).
    assert (endsWith (d ++ js ".v") (js ".v") = true) as ->
      by (apply endsWith_true; eauto).
    rewrite (no_hyphen d (js ".v") (js "-tb.v")); [|done|vm_compute; set_solver..].
    apply nonempty_true in Hne. by rewrite Hne.
  - by destruct (_ && _).
Qed.

Lemma elem_of_Set_add x y l : x ∈ Set_add y l ↔ x ∈ l ∨ x = y.
Proof. unfold Set_add. case_bool_decide; set_solver. Qed.

Lemma NoDup_Set_add y l : NoDup l → NoDup (Set_add y l).
Proof.
  unfold Set_add. case_bool_decide; [done|]. intros Hnd.
  apply NoDup_app. split_and!; [done|set_solver|apply NoDup_singleton].
Qed.

Lemma collected_elem x acc files :
  x ∈ foldl GenerateCores.collect acc files ↔
  x ∈ acc ∨ ∃ f, f ∈ files ∧ GenerateCores.extractChipNumber f = Some x.
Proof.
  revert acc. induction files as [|f files IH]; intros acc; simpl.
  - split; [auto|]. intros [?|(f & Hf & _)]; [done|]. by apply elem_of_nil in Hf.
  - rewrite IH, collect_chip. destruct (GenerateCores.extractChipNumber f) as [d|] eqn:E.
    + rewrite elem_of_Set_add. split.
      * intros [[?| ->]|(g & Hg & Hx)]; [auto|right; exists f|right; exists g];
          split; try done; set_solver.
      * intros [?|(g & [->|Hg]%elem_of_cons & Hx)]; [auto| |right; eauto].
        left. right. congruence.
    + split.
      * intros [?|(g & Hg & Hx)]; [auto|]. right; exists g. split; [set_solver|done].
      * intros [?|(g & [->|Hg]%elem_of_cons & Hx)]; [auto|congruence|right; eauto].
Qed.

Lemma collected_NoDup acc files :
  NoDup acc → NoDup (foldl GenerateCores.collect acc files).
Proof.
  revert acc. induction files as [|f files IH]; intros acc Hnd; simpl; [done|].
  apply IH. rewrite collect_chip. destruct (GenerateCores.extractChipNumber f); [|done].
  by apply NoDup_Set_add.
Qed.

Lemma chipNumbersOf_skip pre f post :
  GenerateCores.extractChipNumber f = None →
  GenerateCores.chipNumbersOf (pre ++ f :: post) = GenerateCores.chipNumbersOf (pre ++ post).
Proof.
  intros Hf. unfold GenerateCores.chipNumbersOf. rewrite !foldl_app. simpl.
  by rewrite collect_chip, Hf.
Qed.

(** C4: from a directory listing the discovery returns exactly the digit
    sequences of the names of the form digits followed by [.v], without
    duplicates and in ascending order of their code units (the order of
    [Array.prototype.sort]); a name that does not have that form, such as
    [readme.v], contributes nothing, so it is never tried as a chip. *)
Theorem chip_discovery (files : list jsstring) :
  (∀ chip, chip ∈ GenerateCores.chipNumbersOf files ↔
           ∃ fileName, fileName ∈ files ∧ chip_file fileName chip)
  ∧ NoDup (GenerateCores.chipNumbersOf files)
  ∧ StronglySorted str_lt (GenerateCores.chipNumbersOf files)
  ∧ (∀ pre f post, files = pre ++ f :: post → (∀ chip, ¬ chip_file f chip) →
       GenerateCores.chipNumbersOf files = GenerateCores.chipNumbersOf (pre ++ post))
  ∧ (∀ sourceDir w, fs w !! sourceDir = Some (Dir files) →
       GenerateCores.getAllChipNumbers sourceDir w
       = (Ret (GenerateCores.chipNumbersOf files), add_events w [FsReaddir sourceDir])).
Proof.
  assert (Hnd : NoDup (foldl GenerateCores.collect [] files))
    by (apply collected_NoDup, NoDup_nil_2).
  split_and!.
  - intros chip. unfold GenerateCores.chipNumbersOf.
    rewrite Array_sort_elem, collected_elem. split.
    + intros [Hin|(f & Hf & Hx)]; [by apply elem_of_nil in Hin|].
      exists f. split; [done|]. by apply extractChipNumber_Some.
    + intros (f & Hf & Hx). right. exists f. split; [done|].
      by apply extractChipNumber_Some.
  - unfold GenerateCores.chipNumbersOf, Array_sort. by rewrite merge_sort_Permutation.
  - by apply Array_sort_sorted.
  - intros pre f post -> Hf. apply chipNumbersOf_skip.
    destruct (GenerateCores.extractChipNumber f) as [d|] eqn:E; [|done].
    apply extractChipNumber_Some in E. by apply Hf in E.
  - intros sourceDir w Hdir. unfold GenerateCores.getAllChipNumbers, readdirSync.
    run. by rewrite Hdir.
Qed.

Lemma chip_discovery_witness :
  (∀ chip, ¬ chip_file (js "readme.v") chip)
  ∧ GenerateCores.chipNumbersOf [js "7400.v"; js "readme.v"]
    = GenerateCores.chipNumbersOf ([js "7400.v"] ++ []).
Proof.
  assert (Hreadme : ∀ chip, ¬ chip_file (js "readme.v") chip).
  { intros chip (Hname & _ & Hdigits).
    destruct Hdigits as [|c chip Hc _]; [done|].
    injection Hname as <- _. done. }
  split; [done|].
  refine (proj1 (proj2 (proj2 (proj2 (chip_discovery [js "7400.v"; js "readme.v"]))))
            [js "7400.v"] (js "readme.v") [] _ Hreadme).
  reflexivity.
Defined.

(** The listing of the description: two chips, their test benches and a
    stray [readme.v]. *)
Example chip_discovery_listing :
  GenerateCores.chipNumbersOf
    [js "74161.v"; js "74161-tb.v"; js "7400.v"; js "7400-tb.v"; js "readme.v"]
  = [js "7400"; js "74161"].
Proof. vm_compute. reflexivity. Qed.

(** The order is that of the strings, not of the numbers they spell. *)
Example chip_discovery_order :
  GenerateCores.chipNumbersOf [js "99.v"; js "100.v"] = [js "100"; js "99"].
Proof. vm_compute. reflexivity. Qed.

(** ** The manifest *)

Lemma manifest_lines_plain c v r t :
  10 ∉ c → 10 ∉ v → 10 ∉ r → 10 ∉ t →
  Forall (λ line, 10 ∉ line) (spec_manifest_lines c v r t).
Proof.
  intros Hc Hv Hr Ht. unfold spec_manifest_lines.
  repeat (apply Forall_cons; split; [|]); try apply Forall_nil;
    rewrite ?elem_of_app; try (vm_compute; set_solver).
  all: intros Hin; repeat destruct Hin as [Hin|Hin]; try done;
    revert Hin; vm_compute; set_solver.
Qed.

(** C3: [generateCoreFile] is a function of its four arguments alone (it
    lives outside the monad of effects, so it reads and writes nothing and
    equal arguments give equal text), and its text is the manifest of the
    description with the chip number, the version and the two module names
    at the documented places: when the values hold no line feed, the lines
    of the text are those of the description, with the name on the second
    line, the two source files on lines 14 and 20 and the two top levels on
    lines 26 and 29. *)
Theorem generateCoreFile_renders_manifest
    (chipNumber version rtlModuleName tbModuleName : jsstring) :
  GenerateCore.generateCoreFile chipNumber version rtlModuleName tbModuleName
  = spec_renderManifest chipNumber version rtlModuleName tbModuleName
  ∧ (10 ∉ chipNumber → 10 ∉ version → 10 ∉ rtlModuleName → 10 ∉ tbModuleName →
     let lines :=
       split_on 10
         (GenerateCore.generateCoreFile chipNumber version rtlModuleName tbModuleName) in
     lines = spec_manifest_lines chipNumber version rtlModuleName tbModuleName ++ [[]]
     ∧ lines !! 1%nat = Some (js "name: icechips:ttl:" ++ chipNumber ++ js ":" ++ version)
     ∧ lines !! 13%nat = Some (js "      - source-7400/" ++ chipNumber ++ js ".v")
     ∧ lines !! 19%nat = Some (js "      - source-7400/" ++ chipNumber ++ js "-tb.v")
     ∧ lines !! 25%nat = Some (js "    toplevel: " ++ rtlModuleName)
     ∧ lines !! 28%nat = Some (js "    toplevel: " ++ tbModuleName)).
Proof.
  assert (Hrender :
    GenerateCore.generateCoreFile chipNumber version rtlModuleName tbModuleName
    = spec_renderManifest chipNumber version rtlModuleName tbModuleName).
  { unfold GenerateCore.generateCoreFile, spec_renderManifest, spec_manifest_lines.
    cbn [fmap list_fmap concat].
    repeat rewrite <- app_assoc.
    repeat (reflexivity || f_equal). }
  split; [done|].
  intros Hc Hv Hr Ht lines.
  assert (Hlines : lines
    = spec_manifest_lines chipNumber version rtlModuleName tbModuleName ++ [[]]).
  { unfold lines. rewrite Hrender. unfold spec_renderManifest.
    by apply split_on_lines, manifest_lines_plain. }
  split; [done|]. rewrite Hlines. split_and!; reflexivity.
Qed.

Lemma generateCoreFile_renders_manifest_witness :
  (10 ∉ js "74161") ∧ (10 ∉ js "0.9.2") ∧ (10 ∉ js "ttl_74161") ∧ (10 ∉ js "test")
  ∧ split_on 10 (GenerateCore.generateCoreFile (js "74161") (js "0.9.2") (js "ttl_74161")
                   (js "test")) !! 1%nat
    = Some (js "name: icechips:ttl:" ++ js "74161" ++ js ":" ++ js "0.9.2").
Proof.
  assert (H1 : 10 ∉ js "74161") by (vm_compute; set_solver).
  assert (H2 : 10 ∉ js "0.9.2") by (vm_compute; set_solver).
  assert (H3 : 10 ∉ js "ttl_74161") by (vm_compute; set_solver).
  assert (H4 : 10 ∉ js "test") by (vm_compute; set_solver).
  refine (conj H1 (conj H2 (conj H3 (conj H4 _)))).
  exact (proj1 (proj2 (proj2 (generateCoreFile_renders_manifest (js "74161") (js "0.9.2")
                                (js "ttl_74161") (js "test")) H1 H2 H3 H4))).
Defined.

(** ** The version of the project *)

Lemma getVersion_runs `{Host} root w :
  ∃ o, GenerateCore.getVersionFromPackageJson root w
       = (o, add_events w [FsRead (path_join root (js "package.json"))])
       ∧ ∀ code, o ≠ Exit code.
Proof.
  unfold GenerateCore.getVersionFromPackageJson, readFileSync. run.
  destruct (fs w !! _) as [[text| |]|]; run; try (eexists; split; [reflexivity|done]).
  destruct (JSON_parse text) as [e|value]; run; [eexists; split; [reflexivity|done]|].
  destruct (get_version value) as [e|v]; run; eexists; split; try reflexivity; done.
Qed.

(** C5, as amended: for a readable manifest that parses to an object,
    [getVersionFromPackageJson] returns the [version] property itself when
    it is present and truthy, and the string [0.1.0] when it is absent or
    falsy (an empty string, zero, [false] or [null]). *)
Theorem getVersion_or_default `{Host} (root text : jsstring) (props : list (jsstring * JSValue))
    (w : World) :
  fs w !! path_join root (js "package.json") = Some (File text) →
  JSON_parse text = inr (JObj props) →
  (∀ v, own_property (js "version") props = Some v → truthy v = true →
        (GenerateCore.getVersionFromPackageJson root w).1 = Ret v)
  ∧ (∀ v, own_property (js "version") props = Some v → truthy v = false →
        (GenerateCore.getVersionFromPackageJson root w).1 = Ret (JStr (js "0.1.0")))
  ∧ (own_property (js "version") props = None →
        (GenerateCore.getVersionFromPackageJson root w).1 = Ret (JStr (js "0.1.0"))).
Proof.
  intros Hfile Hparse.
  unfold GenerateCore.getVersionFromPackageJson, readFileSync. run.
  rewrite Hfile. run. rewrite Hparse. run. cbn [get_version].
  split_and!; [intros v -> ->|intros v -> ->|intros ->]; done.
Qed.

Lemma getVersion_or_default_witness :
  fs repo_world !! (js "/repo/package.json") = Some (File manifest_0_9_2)
  ∧ demo_parse manifest_0_9_2 = inr (JObj [(js "version", JStr (js "0.9.2"))])
  ∧ (@GenerateCore.getVersionFromPackageJson demo_host (js "/repo") repo_world).1
    = Ret (JStr (js "0.9.2")).
Proof.
  split_and!; [vm_compute; reflexivity..|].
  refine (proj1 (@getVersion_or_default demo_host (js "/repo") manifest_0_9_2
            [(js "version", JStr (js "0.9.2"))] repo_world _ _) (JStr (js "0.9.2")) _ _);
    vm_compute; reflexivity.
Defined.

(** C5, as stated, fails: a manifest whose [version] is the empty string has
    the field, yet the default is returned instead of the field. *)
Lemma getVersion_not_verbatim :
  fs unversioned_world !! (js "/repo/package.json") = Some (File manifest_empty_version)
  ∧ demo_parse manifest_empty_version = inr (JObj [(js "version", JStr [])])
  ∧ own_property (js "version") [(js "version", JStr [])] = Some (JStr [])
  ∧ (@GenerateCore.getVersionFromPackageJson demo_host (js "/repo") unversioned_world).1
    = Ret (JStr (js "0.1.0"))
  ∧ (@GenerateCore.getVersionFromPackageJson demo_host (js "/repo") unversioned_world).1
    ≠ Ret (JStr []).
Proof. vm_compute. split_and!; done. Qed.

(** An extracted name is a word that occurs in the text. *)
Lemma extracted_name_word (text name : jsstring) :
  GenerateCore.extractModuleName text = Some name →
  name ≠ [] ∧ all_in is_word name ∧ includes text name = true.
Proof.
  intros (i & [Hi (_ & ws & ws1 & ws2 & t & rest & Hd & _ & _ & _ & Hname & Hne & _)] & _)
    %extractModuleName_Some.
  split_and!; [done..|].
  apply includes_true.
  exists (take i text ++ ws ++ js "module" ++ ws1), (ws2 ++ t :: rest).
  rewrite <- (take_drop i text) at 1. rewrite Hd. by rewrite <- !app_assoc.
Qed.

(** ** generateCoreForChip *)

Lemma isExistingFile_runs `{Host} base fileName w :
  FsReadFileHelper.isExistingFile base fileName w
  = (Ret (is_file (fs w !! path_join base fileName)),
     add_events w [FsExists (path_join base fileName)]).
Proof. unfold FsReadFileHelper.isExistingFile. by run. Qed.

Lemma readFile_runs `{Host} base fileName w :
  ∃ o, FsReadFileHelper.readFile base fileName w
       = (o, add_events w [FsRead (path_join base fileName)])
       ∧ ∀ code, o ≠ Exit code.
Proof.
  unfold FsReadFileHelper.readFile, readFileSync. run.
  destruct (fs w !! _) as [[text| |]|]; eexists; split; try reflexivity; done.
Qed.

Lemma readFile_File `{Host} base fileName text w :
  fs w !! path_join base fileName = Some (File text) →
  FsReadFileHelper.readFile base fileName w
  = (Ret text, add_events w [FsRead (path_join base fileName)]).
Proof.
  intros Hf. unfold FsReadFileHelper.readFile, readFileSync. run. by rewrite Hf.
Qed.

(** The first step of the body: the version to use. *)
Lemma finalVersion_runs `{Host} root version w :
  ∃ o evs,
    match version with
    | Some v => if nonempty v then mret (JStr v)
                else GenerateCore.getVersionFromPackageJson root
    | None => GenerateCore.getVersionFromPackageJson root
    end w = (o, add_events w evs)
    ∧ (∀ code, o ≠ Exit code)
    ∧ (∀ p c, FsWrite p c ∉ evs)
    ∧ (supplied version = true → ∃ v, o = Ret v)
    ∧ (supplied version = false →
         (o, add_events w evs) = GenerateCore.getVersionFromPackageJson root w).
Proof.
  assert (Hlookup : ∃ o evs,
    GenerateCore.getVersionFromPackageJson root w = (o, add_events w evs)
    ∧ (∀ code, o ≠ Exit code) ∧ (∀ p c, FsWrite p c ∉ evs)).
  { destruct (getVersion_runs root w) as (o & Hrun & Hne).
    exists o, [FsRead (path_join root (js "package.json"))]. split_and!; [done..|].
    intros p c [[=]|[]%elem_of_nil]%elem_of_cons. }
  destruct version as [[|c v]|]; cbn [nonempty supplied].
  - destruct Hlookup as (o & evs & Hrun & Hne & Hw). exists o, evs. rewrite Hrun.
    split_and!; done.
  - exists (Ret (JStr (c :: v))), []. rewrite add_events_nil.
    split_and!; [done|done|intros p q []%elem_of_nil|eauto|done].
  - destruct Hlookup as (o & evs & Hrun & Hne & Hw). exists o, evs. rewrite Hrun.
    split_and!; done.
Qed.

Ltac read_step :=
  match goal with
  | |- context [FsReadFileHelper.readFile ?b ?f ?W] =>
      let o := fresh "o" in
      let Hr := fresh "Hr" in
      let Hne := fresh "Hne" in
      destruct (readFile_runs b f W) as (o & Hr & Hne); rewrite Hr; clear Hr;
      destruct o as [?content|?e|?code]; [| |by destruct (Hne code)]; run
  end.

Ltac returned :=
  eexists _, _; split; [reflexivity|]; split_and!; try done.

(** The generation always returns a result; the shell is left alone, the
    trace only grows, and a failure leaves the files as they were. *)
Lemma generateCoreForChip_shape `{Host} chip root version w :
  ∃ r w', GenerateCore.generateCoreForChip chip root version w = (Ret r, w')
    ∧ sh w' = sh w
    ∧ (∃ evs, trace w' = trace w ++ evs)
    ∧ (success r = false → fs w' = fs w).
Proof.
  unfold GenerateCore.generateCoreForChip.
  destruct (finalVersion_runs root version w) as (o & evs & Hv & Hne & _).
  unfold try_catch at 1. unfold mbind at 1. unfold M_bind at 1. rewrite Hv. clear Hv.
  destruct o as [finalVersion|e|code]; [| |by destruct (Hne code)]; run.
  2:{ returned. eauto. }
  rewrite isExistingFile_runs. run.
  destruct (is_file _); cbn [negb]; run; [|returned; eauto].
  rewrite isExistingFile_runs. run.
  destruct (is_file _); cbn [negb]; run; [|returned; eauto].
  read_step; [|returned; eauto].
  read_step; [|returned; eauto].
  destruct (GenerateCore.extractModuleName content) as [[|? ?]|]; run;
    try (returned; eauto).
  destruct (GenerateCore.extractModuleName content0) as [[|? ?]|]; run;
    try (returned; eauto).
  destruct (ToString finalVersion) as [e|versionText]; run; [returned; eauto|].
  rewrite writeFileSync_runs.
  destruct (write_failure _ _); run; returned; eauto.
Qed.

(** The version step and the text of the version. *)
Lemma finalVersion_outcome `{Host} root version w :
  ∃ o evs,
    match version with
    | Some v => if nonempty v then mret (JStr v)
                else GenerateCore.getVersionFromPackageJson root
    | None => GenerateCore.getVersionFromPackageJson root
    end w = (o, add_events w evs)
    ∧ (∀ code, o ≠ Exit code)
    ∧ version_text root version w
      = match o with
        | Ret v => match ToString v with
                   | inr text => Some text
                   | inl _ => None
                   end
        | _ => None
        end.
Proof.
  assert (Hlookup : supplied version = false → ∃ o evs,
    GenerateCore.getVersionFromPackageJson root w = (o, add_events w evs)
    ∧ (∀ code, o ≠ Exit code)
    ∧ version_text root version w
      = match o with
        | Ret v => match ToString v with
                   | inr text => Some text
                   | inl _ => None
                   end
        | _ => None
        end).
  { intros Hs. destruct (getVersion_runs root w) as (o & Hrun & Hne).
    exists o, [FsRead (path_join root (js "package.json"))]. split_and!; [done..|].
    unfold version_text. by rewrite Hs, Hrun. }
  destruct version as [[|c v]|]; cbn [nonempty]; [by apply Hlookup| |by apply Hlookup].
  exists (Ret (JStr (c :: v))), []. rewrite add_events_nil. done.
Qed.

Ltac not_ready :=
  let H1 := fresh in let H2 := fresh in let H3 := fresh in
  let H4 := fresh in let H5 := fresh in let H6 := fresh in
  intros ? ? ? [(? & ? & H1 & H2 & H3 & H4 & H5) H6];
  repeat match goal with
    | Ha : ?x = Some _, Hb : ?x = Some _ |- _ => rewrite Ha in Hb; simplify_eq
    | Ha : ?x = Some _, Hb : ?x = None |- _ => rewrite Ha in Hb; discriminate Hb
    | Ha : ?x = None, Hb : ?x = Some _ |- _ => rewrite Ha in Hb; discriminate Hb
    end;
  try congruence.

(** What a generation does, case by case: either it fails and the files are
    as they were, and then something it needs is missing, or everything it
    needs is there and the manifest is written. *)
Lemma generateCoreForChip_cases `{Host} chip root version w :
  ∃ r w',
    GenerateCore.generateCoreForChip chip root version w = (Ret r, w')
    ∧ ((success r = false ∧ fs w' = fs w
        ∧ ∀ versionText rtlName tbName,
            ¬ (generation_ready chip root version w versionText rtlName tbName
               ∧ write_failure w (path_join root (js "icechips_" ++ chip ++ js ".core"))
                 = None))
       ∨ (∃ versionText rtlName tbName,
            generation_ready chip root version w versionText rtlName tbName
            ∧ write_failure w (path_join root (js "icechips_" ++ chip ++ js ".core")) = None
            ∧ r = {| success := true;
                     message := js "Generated core file: "
                                ++ path_join root (js "icechips_" ++ chip ++ js ".core");
                     output := None;
                     chipNumber := Some chip;
                     rtlModuleName := Some rtlName;
                     tbModuleName := Some tbName |}
            ∧ fs w' = <[path_join root (js "icechips_" ++ chip ++ js ".core")
                        := File (GenerateCore.generateCoreFile chip versionText
                                   rtlName tbName)]> (fs w))).
Proof.
  unfold GenerateCore.generateCoreForChip.
  destruct (finalVersion_outcome root version w) as (o & evs & Hv & Hne & Hvt).
  unfold try_catch at 1. unfold mbind at 1. unfold M_bind at 1. rewrite Hv. clear Hv.
  destruct o as [finalVersion|e|code]; [| |by destruct (Hne code)]; run.
  2:{ eexists _, _. split; [reflexivity|]. left. split_and!; [done..|]. not_ready. }
  rewrite isExistingFile_runs. run.
  destruct (fs w !! path_join (path_join root (js "source-7400")) (chip ++ js ".v"))
    as [[rtlText| |]|] eqn:Hrtl; cbn [is_file negb]; run;
    try (eexists _, _; split; [reflexivity|]; left; split_and!; [done..|]; not_ready).
  - rewrite isExistingFile_runs. run.
    destruct (fs w !! path_join (path_join root (js "source-7400")) (chip ++ js "-tb.v"))
      as [[tbText| |]|] eqn:Htb; cbn [is_file negb]; run;
      try (eexists _, _; split; [reflexivity|]; left; split_and!; [done..|]; not_ready).
    + rewrite (readFile_File _ _ rtlText) by done. run.
      rewrite (readFile_File _ _ tbText) by done. run.
      destruct (GenerateCore.extractModuleName rtlText) as [rtlName|] eqn:Hrn.
      2:{ run. eexists _, _. split; [reflexivity|]. left. split_and!; [done..|]. not_ready. }
      pose proof (extracted_name_word _ _ Hrn) as [Hr1 _].
      destruct rtlName as [|r0 rtlName]; [done|].
      destruct (GenerateCore.extractModuleName tbText) as [tbName|] eqn:Htn.
      2:{ run. eexists _, _. split; [reflexivity|]. left. split_and!; [done..|]. not_ready. }
      pose proof (extracted_name_word _ _ Htn) as [Ht1 _].
      destruct tbName as [|t0 tbName]; [done|].
      destruct (ToString finalVersion) as [e|versionText] eqn:Hstr; run.
      { eexists _, _. split; [reflexivity|]. left. split_and!; [done..|]. not_ready. }
      rewrite writeFileSync_runs. unfold write_failure at 1. run.
      fold (write_failure w (path_join root (js "icechips_" ++ chip ++ js ".core"))).
      destruct (write_failure w _) as [e|] eqn:Hwrite; run.
      * eexists _, _. split; [reflexivity|]. left. split_and!; [done..|]. not_ready.
      * eexists _, _. split; [reflexivity|]. right.
        exists versionText, (r0 :: rtlName), (t0 :: tbName).
        split; [by exists rtlText, tbText|]. done.
    + unfold FsReadFileHelper.readFile at 1, readFileSync. run. rewrite Hrtl. run.
      unfold FsReadFileHelper.readFile at 1, readFileSync. run. rewrite Htb. run.
      eexists _, _. split; [reflexivity|]. left. split_and!; [done..|]. not_ready.
  - rewrite isExistingFile_runs. run.
    destruct (is_file (fs w !! path_join (path_join root (js "source-7400"))
                                (chip ++ js "-tb.v"))); cbn [negb]; run.
    + unfold FsReadFileHelper.readFile at 1, readFileSync. run. rewrite Hrtl. run.
      eexists _, _. split; [reflexivity|]. left. split_and!; [done..|]. not_ready.
    + eexists _, _. split; [reflexivity|]. left. split_and!; [done..|]. not_ready.
Qed.




(** A write that the operating system refuses: the generation reports the
    error of the write and the manifest on disk is as it was. *)
Example refused_write_is_a_failure :
  @generation_ready demo_host (js "7400") (js "/repo") None read_only_world
    (js "0.9.2") (js "ttl_7400") (js "test")
  ∧ (@GenerateCore.generateCoreForChip demo_host (js "7400") (js "/repo") None
       read_only_world).1
    = Ret (failure (js "Error processing 7400: EROFS: read-only file system, open '/repo/icechips_7400.core'"))
  ∧ fs (@GenerateCore.generateCoreForChip demo_host (js "7400") (js "/repo") None
          read_only_world).2
    = fs read_only_world.
Proof.
  split_and!; [|vm_compute; reflexivity..].
  eexists _, _. split_and!; vm_compute; reflexivity.
Qed.


(** C6, as amended: when the RTL file of a chip is not in the source
    directory, [generateCoreForChip] returns a failure, leaves the files as
    they were and attempts no write; the message names the missing RTL path
    provided the version was supplied or the manifest lookup returned. *)
Theorem missing_rtl_is_reported `{Host} (chip root : jsstring) (version : option jsstring)
    (w : World) :
  is_file (fs w !! path_join (path_join root (js "source-7400")) (chip ++ js ".v")) = false →
  ∃ r evs,
    GenerateCore.generateCoreForChip chip root version w = (Ret r, add_events w evs)
    ∧ success r = false
    ∧ (∀ p c, FsWrite p c ∉ evs)
    ∧ (supplied version = true
       ∨ (∃ v, (GenerateCore.getVersionFromPackageJson root w).1 = Ret v) →
       message r = js "RTL file not found: "
                   ++ path_join (path_join root (js "source-7400")) (chip ++ js ".v")).
Proof.
  intros Hmissing. unfold GenerateCore.generateCoreForChip.
  destruct (finalVersion_runs root version w) as (o & evs & Hv & Hne & Hw & Hsup & Hlookup).
  unfold try_catch at 1. unfold mbind at 1. unfold M_bind at 1. rewrite Hv.
  destruct o as [finalVersion|e|code]; [| |by destruct (Hne code)]; run.
  - rewrite isExistingFile_runs. run. rewrite Hmissing. cbn [negb]. run.
    eexists _, _. split; [reflexivity|]. split_and!; [done| |done].
    intros p c [?|[[=]|[]%elem_of_nil]%elem_of_cons]%elem_of_app. by eapply Hw.
  - eexists _, _. split; [reflexivity|]. split_and!; [done|done|].
    intros [Hs|[v Hv']].
    + by destruct (Hsup Hs).
    + destruct (supplied version) eqn:Hs; [by destruct (Hsup eq_refl)|].
      rewrite <- (Hlookup eq_refl) in Hv'. done.
Qed.

Lemma missing_rtl_is_reported_witness :
  is_file (fs repo_world !! (js "/repo/source-7400/99999.v")) = false
  ∧ ∃ r evs,
      @GenerateCore.generateCoreForChip demo_host (js "99999") (js "/repo") None repo_world
      = (Ret r, add_events repo_world evs)
      ∧ success r = false
      ∧ (∀ p c, FsWrite p c ∉ evs)
      ∧ (supplied None = true
         ∨ (∃ v, (@GenerateCore.getVersionFromPackageJson demo_host (js "/repo") repo_world).1
                 = Ret v) →
         message r = js "RTL file not found: " ++ js "/repo/source-7400/99999.v").
Proof.
  split; [vm_compute; reflexivity|].
  apply (@missing_rtl_is_reported demo_host (js "99999") (js "/repo") None repo_world).
  vm_compute; reflexivity.
Defined.

(** C6, as stated, fails: with neither the manifest nor the RTL file on disk
    and no version given, the failure reports the manifest, and its message
    does not mention the RTL file. *)
Lemma missing_rtl_without_manifest :
  is_file (fs bare_world !! (js "/repo/source-7400/99999.v")) = false
  ∧ (@GenerateCore.generateCoreForChip demo_host (js "99999") (js "/repo") None bare_world).1
    = Ret (failure (js "Error processing 99999: ENOENT: no such file or directory, open '/repo/package.json'"))
  ∧ includes (js "Error processing 99999: ENOENT: no such file or directory, open '/repo/package.json'")
             (js "99999.v") = false.
Proof. split_and!; vm_compute; reflexivity. Qed.

(** ** test-core.js *)

Lemma isFuseSoCAvailable_runs w :
  TestCore.isFuseSoCAvailable w
  = (Ret (match sh w (js "which fusesoc") with Done _ => true | Failed _ _ _ => false end),
     add_events w [Exec (js "which fusesoc")]).
Proof.
  unfold TestCore.isFuseSoCAvailable, execSync. run.
  by destruct (sh w _).
Qed.

Lemma parseCoreName_missing `{Host} input root w :
  includes input (js ":") = false →
  fs w !! path_join root (js "icechips_" ++ input ++ js ".core") = None →
  TestCore.parseCoreName input root w
  = (Throw (Error (core_not_found input)),
     add_events w [FsExists (path_join root (js "icechips_" ++ input ++ js ".core"))]).
Proof.
  intros Hbare Hnone. unfold TestCore.parseCoreName, TestCore.coreFileExists, existsSync.
  rewrite Hbare. run. rewrite Hnone. reflexivity.
Qed.

Lemma parseCoreName_qualified `{Host} input root w :
  includes input (js ":") = true → TestCore.parseCoreName input root w = (Ret input, w).
Proof. intros Hq. unfold TestCore.parseCoreName. by rewrite Hq. Qed.

(** The simulation runs one command and always returns a Result. *)
Lemma runFuseSoCSim_runs coreName verbose w :
  ∃ r evs, TestCore.runFuseSoCSim coreName verbose w = (Ret r, add_events w evs)
    ∧ execs evs = [sim_command coreName]
    ∧ fs_events evs = []
    ∧ success r = negb (sim_fails w coreName).
Proof.
  unfold TestCore.runFuseSoCSim, execSync, sim_fails, sim_command.
  destruct verbose; run; destruct (sh w _); run; eexists _, _; split; try reflexivity; done.
Qed.

(** C7: a bare chip identifier whose core file is not at the project root
    fails resolution with the "Core file not found" error; the runner prints
    it when the orchestrator is installed, exits with status 1 either way,
    and the only command it runs is the probe, never a simulation. *)
Theorem unknown_chip_is_not_simulated `{Host} (input root : jsstring) (w : World) :
  includes input (js ":") = false →
  fs w !! path_join root (js "icechips_" ++ input ++ js ".core") = None →
  TestCore.parseCoreName input root w
  = (Throw (Error (core_not_found input)),
     add_events w [FsExists (path_join root (js "icechips_" ++ input ++ js ".core"))])
  ∧ ∀ rest, ∃ evs,
      TestCore.main (input :: rest) root w = (Exit 1, add_events w evs)
      ∧ execs evs = [js "which fusesoc"]
      ∧ (fusesoc_available w →
         Stderr ((js "Error: " ++ core_not_found input) ++ [10]) ∈ evs).
Proof.
  intros Hbare Hnone. split; [by apply parseCoreName_missing|].
  intros rest. unfold TestCore.main. unfold mbind at 1. unfold M_bind at 1.
  rewrite isFuseSoCAvailable_runs.
  destruct (sh w (js "which fusesoc")) eqn:Hwhich; cbn [negb].
  - unfold mbind at 1. unfold M_bind at 1. unfold try_catch at 1.
    rewrite parseCoreName_missing; [|done..]. run.
    eexists. split; [reflexivity|]. split; [done|].
    intros _. set_solver.
  - run. eexists. split; [reflexivity|]. split; [done|].
    intros [o Ho]. congruence.
Qed.

Lemma fs_events_app evs1 evs2 : fs_events (evs1 ++ evs2) = fs_events evs1 ++ fs_events evs2.
Proof. apply filter_app. Qed.

Ltac sim_step :=
  match goal with
  | |- context [TestCore.runFuseSoCSim ?c ?v ?W] =>
      let r := fresh "r" in
      let evs := fresh "evs" in
      let Hrun := fresh "Hrun" in
      let Hex := fresh "Hex" in
      let Hfs := fresh "Hfs" in
      let Hok := fresh "Hok" in
      destruct (runFuseSoCSim_runs c v W) as (r & evs & Hrun & Hex & Hfs & Hok);
      rewrite Hrun; clear Hrun; run
  end.

(** C8: an identifier that contains a colon is returned unchanged and the
    world is untouched (no existence check, no manifest read); the runner
    touches no file at all and, when the orchestrator is installed, the
    command it runs after the probe is the simulation of that very string. *)
Theorem qualified_name_is_forwarded `{Host} (input root : jsstring) (w : World) :
  includes input (js ":") = true →
  TestCore.parseCoreName input root w = (Ret input, w)
  ∧ ∀ rest, ∃ code evs,
      TestCore.main (input :: rest) root w = (Exit code, add_events w evs)
      ∧ fs_events evs = []
      ∧ (fusesoc_available w →
         execs evs = [js "which fusesoc"; sim_command input]).
Proof.
  intros Hq. split; [by apply parseCoreName_qualified|].
  intros rest. unfold TestCore.main. unfold mbind at 1. unfold M_bind at 1.
  rewrite isFuseSoCAvailable_runs.
  destruct (sh w (js "which fusesoc")) eqn:Hwhich; cbn [negb].
  - unfold mbind at 1. unfold M_bind at 1. unfold try_catch at 1.
    rewrite parseCoreName_qualified; [|done].
    destruct (wants_verbose (input :: rest)); run; sim_step;
      destruct (success r); run;
      destruct (output r) as [[|c o]|]; cbn [negb andb nonempty]; run;
      eexists _, _; (split; [reflexivity|]);
      rewrite ?fs_events_app, ?execs_app, Hfs, Hex; done.
  - run. eexists _, _. split; [reflexivity|]. split; [done|].
    intros [o Ho]. congruence.
Qed.

Lemma unknown_chip_is_not_simulated_witness :
  includes (js "12345") (js ":") = false
  ∧ fs repo_world !! @path_join demo_host (js "/repo") (js "icechips_" ++ js "12345" ++ js ".core")
    = None
  ∧ ∀ rest, ∃ evs,
      @TestCore.main demo_host (js "12345" :: rest) (js "/repo") repo_world
      = (Exit 1, add_events repo_world evs)
      ∧ execs evs = [js "which fusesoc"]
      ∧ (fusesoc_available repo_world →
         Stderr ((js "Error: " ++ core_not_found (js "12345")) ++ [10]) ∈ evs).
Proof.
  split_and!; [vm_compute; reflexivity..|].
  refine (proj2 (@unknown_chip_is_not_simulated demo_host (js "12345") (js "/repo")
                   repo_world _ _)); vm_compute; reflexivity.
Defined.

Lemma qualified_name_is_forwarded_witness :
  includes (js "icechips:ttl:74161:0.9.2") (js ":") = true
  ∧ @TestCore.parseCoreName demo_host (js "icechips:ttl:74161:0.9.2") (js "/repo") bare_world
    = (Ret (js "icechips:ttl:74161:0.9.2"), bare_world).
Proof.
  split; [vm_compute; reflexivity|].
  refine (proj1 (@qualified_name_is_forwarded demo_host (js "icechips:ttl:74161:0.9.2")
                   (js "/repo") bare_world _)); vm_compute; reflexivity.
Defined.

(** ** Core discovery *)

Lemma take_upto (a b : jsstring) : take (length (a ++ b) - length b) (a ++ b) = a.
Proof.
  rewrite length_app. replace (length a + length b - length b)%nat with (length a) by lia.
  apply take_app_length.
Qed.

Lemma core_here line :
  String_match line false TestCores.coreRegex =
    match strip_prefix (js "icechips:ttl:") line with
    | Some rest =>
        if nonempty (run is_core_char rest)
        then Some (Some (js "icechips:ttl:" ++ run is_core_char rest))
        else None
    | None => None
    end.
Proof.
  unfold String_match, TestCores.coreRegex. rewrite search_anchored.
  unfold match_here, Plus. cbn [rmatch at_line_start].
  destruct (strip_prefix _ _) as [rest|] eqn:Hp; [|done].
  apply strip_prefix_Some in Hp as ->.
  destruct rest as [|c rest]; [done|]. cbn [run after_run].
  destruct (is_core_char c) eqn:Hc; [|done].
  rewrite star_longest_total; [|done]. cbn [nonempty]. do 2 f_equal.
  assert (js "icechips:ttl:" ++ c :: rest
          = (js "icechips:ttl:" ++ c :: run is_core_char rest) ++ after_run is_core_char rest)
    as -> by (by rewrite <- app_assoc, <- app_comm_cons, run_after_run).
  apply take_upto.
Qed.






(** ** The test loop *)

Lemma testCore_runs verbose total tally coreName index w :
  ∃ tally' evs,
    TestCores.testCore verbose total tally coreName index w = (Ret tally', add_events w evs)
    ∧ execs evs = [sim_command coreName]
    ∧ (if sim_fails w coreName
       then successCount tally' = successCount tally
            ∧ failureCount tally' = S (failureCount tally)
            ∧ length (failures tally') = S (length (failures tally))
       else successCount tally' = S (successCount tally)
            ∧ failureCount tally' = failureCount tally
            ∧ failures tally' = failures tally).
Proof.
  unfold TestCores.testCore.
  destruct verbose; run; sim_step; change (sim_fails (add_events w _) coreName)
    with (sim_fails w coreName) in *;
    destruct (sim_fails w coreName); rewrite Hok; cbn [negb]; run;
    try (destruct (output r) as [[|c o]|]; cbn [nonempty]; run);
    eexists _, _; (split; [reflexivity|]);
    rewrite ?execs_app, Hex; cbn [successCount failureCount failures];
    rewrite ?length_app; cbn [length]; (split; [done|]); split_and!; try done; lia.
Qed.

Lemma count_failing_cons w c cores :
  count_failing w (c :: cores)
  = ((if sim_fails w c then 1 else 0) + count_failing w cores)%nat.
Proof.
  unfold count_failing. rewrite filter_cons.
  destruct (sim_fails w c); by case_decide.
Qed.

Lemma count_failing_le w cores : (count_failing w cores ≤ length cores)%nat.
Proof. apply length_filter. Qed.

Lemma testFrom_runs verbose total index cores tally w :
  ∃ tally' evs,
    TestCores.testFrom verbose total index cores tally w = (Ret tally', add_events w evs)
    ∧ execs evs = sim_command <$> cores
    ∧ successCount tally' = (successCount tally + (length cores - count_failing w cores))%nat
    ∧ failureCount tally' = (failureCount tally + count_failing w cores)%nat
    ∧ length (failures tally') = (length (failures tally) + count_failing w cores)%nat.
Proof.
  revert index tally w. induction cores as [|c cores IH]; intros index tally w.
  - exists tally, []. rewrite add_events_nil. cbn. split_and!; try done; lia.
  - cbn [TestCores.testFrom]. unfold mbind at 1. unfold M_bind at 1.
    destruct (testCore_runs verbose total tally c index w) as (t1 & evs1 & -> & Hex1 & Ht1).
    destruct (IH (S index) t1 (add_events w evs1)) as (t2 & evs2 & -> & Hex2 & Hs & Hf & Hl).
    exists t2, (evs1 ++ evs2). rewrite add_events_app, execs_app, Hex1, Hex2.
    change (count_failing (add_events w evs1) cores) with (count_failing w cores) in *.
    rewrite count_failing_cons. pose proof (count_failing_le w cores).
    split; [done|]. split; [done|]. cbn [length].
    destruct (sim_fails w c); destruct Ht1 as (Hs1 & Hf1 & Hl1);
      rewrite ?Hl1 in *; split_and!; lia.
Qed.

Lemma forEach_emits {A} (f : A → M unit) (ev : A → Event) (l : list A) w :
  (∀ x w', f x w' = (Ret (), add_events w' [ev x])) →
  forEach f l w = (Ret (), add_events w (ev <$> l)).
Proof.
  intros Hf. revert w. induction l as [|x l IH]; intros w; cbn [forEach fmap list_fmap].
  - run. by rewrite add_events_nil.
  - unfold mbind, M_bind. rewrite Hf, IH. by rewrite add_events_app.
Qed.

Lemma execs_stderr {A} (line : A → jsstring) (l : list A) :
  execs ((λ x, Stderr (line x)) <$> l) = [].
Proof. induction l; done. Qed.

Lemma execs_stdout {A} (line : A → jsstring) (l : list A) :
  execs ((λ x, Stdout (line x)) <$> l) = [].
Proof. induction l; done. Qed.

(** The second half of [main], for any list of cores. *)
Lemma testAll_runs (cores : list jsstring) (verbose : bool) (w : World) :
  ∃ o before closing,
    TestCores.testAll cores verbose w
    = (o, add_events w
            (before
             ++ summary_lines (length cores) (length cores - count_failing w cores)
                  (count_failing w cores)
             ++ closing))
    ∧ execs before = sim_command <$> cores
    ∧ execs closing = []
    ∧ (o = Exit 1 ↔ (0 < count_failing w cores)%nat)
    ∧ (o = Ret () ↔ count_failing w cores = 0%nat).
Proof.
  unfold TestCores.testAll. unfold mbind at 1. unfold M_bind at 1.
  destruct (testFrom_runs verbose (length cores) 0 cores
              {| successCount := 0; failureCount := 0; failures := [] |} w)
    as (t & evs & -> & Hex & Hs & Hf & Hl).
  cbn [successCount failureCount failures length] in Hs, Hf, Hl.
  rewrite Hs, Hf. cbn [Nat.add]. run.
  case_bool_decide as Hk; run.
  - rewrite (forEach_emits _
               (λ f, Stderr ((js "  " ++ failed_core f ++ js ": " ++ failed_message f) ++ [10])))
      by done.
    run. eexists _, evs, _. split.
    { unfold summary_lines. rewrite <- !app_assoc. reflexivity. }
    rewrite !execs_app, execs_stderr. split_and!; try done.
    + split; [lia|done].
    + split; [done|lia].
  - eexists _, evs, _. split.
    { unfold summary_lines. rewrite <- !app_assoc. reflexivity. }
    split_and!; try done.
    + split; [done|lia].
    + split; [lia|done].
Qed.


Lemma getAllIceChipsCores_runs w :
  TestCores.getAllIceChipsCores w
  = (match sh w (js "fusesoc list-cores") with
     | Done out => Ret (TestCores.coresOf out)
     | Failed msg _ _ => Throw (Error (js "Failed to list cores: " ++ msg))
     end, add_events w [Exec (js "fusesoc list-cores")]).
Proof.
  unfold TestCores.getAllIceChipsCores, execSync. run.
  by destruct (sh w _).
Qed.


Lemma execs_summary total succeeded failed : execs (summary_lines total succeeded failed) = [].
Proof. done. Qed.


Lemma filterCores_nil pattern : TestCores.filterCores [] pattern = [].
Proof. by destruct pattern as [[|c p]|]. Qed.

Lemma listed_cores args cores w :
  cores ≠ [] →
  ∃ lines,
    execs lines = []
    ∧ (console_log (js "Found " ++ show_nat (length cores) ++ js " icechips core(s) to test:");;
       (if wants_verbose args || bool_decide (length cores ≤ 10)%nat then
          forEach (λ core, console_log (js "  " ++ core)) cores
        else
          console_log (js "  " ++ default [] (head cores) ++ js " ... "
                       ++ default [] (last cores)));;
       console_log (js "");;
       TestCores.testAll cores (wants_verbose args)) w
      = TestCores.testAll cores (wants_verbose args) (add_events w lines).
Proof.
  intros Hne.
  destruct (wants_verbose args || bool_decide (length cores ≤ 10)%nat).
  - unfold mbind at 1. unfold M_bind at 1. unfold console_log at 1. unfold emit at 1.
    unfold mbind at 1. unfold M_bind at 1.
    rewrite (forEach_emits _ (λ core, Stdout ((js "  " ++ core) ++ [10]))) by done.
    unfold mbind at 1. unfold M_bind at 1. unfold console_log at 1. unfold emit at 1.
    rewrite !add_events_app. eexists. split; [|reflexivity].
    rewrite !execs_app, execs_stdout. done.
  - unfold mbind at 1. unfold M_bind at 1. unfold console_log at 1. unfold emit at 1.
    unfold mbind at 1. unfold M_bind at 1. unfold console_log at 1. unfold emit at 1.
    unfold mbind at 1. unfold M_bind at 1. unfold console_log at 1. unfold emit at 1.
    rewrite !add_events_app. eexists. split; [|reflexivity]. reflexivity.
Qed.

Lemma main_filtered args w tool listing :
  sh w (js "which fusesoc") = Done tool →
  sh w (js "fusesoc list-cores") = Done listing →
  (TestCores.coresOf listing = [] →
   TestCores.main args w
   = (Exit 1, add_events w
        [Exec (js "which fusesoc"); Exec (js "fusesoc list-cores");
         Stderr (js "Error: No icechips cores found." ++ [10]);
         Stderr (js "Make sure core files are in the project root and fusesoc.conf is configured."
                 ++ [10])]))
  ∧ (∀ p, TestCores.coresOf listing ≠ [] → filter_arg args = Some p →
       TestCores.filterCores (TestCores.coresOf listing) (Some p) = [] →
       TestCores.main args w
       = (Exit 1, add_events w
            [Exec (js "which fusesoc"); Exec (js "fusesoc list-cores");
             Stderr ((js "Error: No cores match filter pattern: " ++ p) ++ [10])]))
  ∧ (TestCores.filterCores (TestCores.coresOf listing) (filter_arg args) ≠ [] →
     ∃ o evs,
       TestCores.main args w = (o, add_events w evs)
       ∧ execs evs
         = [js "which fusesoc"; js "fusesoc list-cores"]
           ++ (sim_command
                 <$> TestCores.filterCores (TestCores.coresOf listing) (filter_arg args))).
Proof.
  intros Hwhich Hlist.
  remember (TestCores.main args w) as res eqn:Hmain.
  unfold TestCores.main in Hmain. fold (filter_arg args) in Hmain.
  unfold mbind at 1 in Hmain. unfold M_bind at 1 in Hmain.
  rewrite isFuseSoCAvailable_runs, Hwhich in Hmain. cbn [negb] in Hmain.
  unfold mbind at 1 in Hmain. unfold M_bind at 1 in Hmain. unfold try_catch at 1 in Hmain.
  rewrite getAllIceChipsCores_runs, sh_add_events, Hlist, add_events_app in Hmain.
  split_and!.
  - intros Hnone. rewrite Hnone in Hmain. subst res.
    case_bool_decide; [|done]. run. reflexivity.
  - intros p Hsome Hp Hnomatch. rewrite Hp in Hmain.
    case_bool_decide as Hlen; [by destruct (TestCores.coresOf listing)|].
    rewrite Hnomatch in Hmain. subst res.
    case_bool_decide; [|done]. run. reflexivity.
  - intros Hne.
    case_bool_decide as Hlen.
    { destruct (TestCores.coresOf listing); [|done]. by rewrite filterCores_nil in Hne. }
    set (cores := TestCores.filterCores (TestCores.coresOf listing) (filter_arg args)) in *.
    assert (Hmain' : res =
      (console_log (js "Found " ++ show_nat (length cores) ++ js " icechips core(s) to test:");;
       (if wants_verbose args || bool_decide (length cores ≤ 10)%nat then
          forEach (λ core, console_log (js "  " ++ core)) cores
        else
          console_log (js "  " ++ default [] (head cores) ++ js " ... "
                       ++ default [] (last cores)));;
       console_log (js "");;
       TestCores.testAll cores (wants_verbose args))
        (add_events w ([Exec (js "which fusesoc")] ++ [Exec (js "fusesoc list-cores")]))).
    { subst cores. destruct (filter_arg args) as [p|].
      - case_bool_decide as Hnomatch.
        { exfalso. apply Hne. by apply nil_length_inv. }
        exact Hmain.
      - exact Hmain. }
    clear Hmain.
    destruct (listed_cores args cores
                (add_events w ([Exec (js "which fusesoc")] ++ [Exec (js "fusesoc list-cores")]))
                Hne) as (lines & Hlines & Hrun).
    rewrite Hrun in Hmain'.
    destruct (testAll_runs cores (wants_verbose args)
                (add_events (add_events w ([Exec (js "which fusesoc")]
                                           ++ [Exec (js "fusesoc list-cores")])) lines))
      as (o & before & closing & Htest & Hbefore & Hclosing & _).
    rewrite Htest in Hmain'. subst res. rewrite !add_events_app.
    eexists _, _. split; [reflexivity|].
    rewrite !execs_app, Hlines, Hbefore, Hclosing, execs_summary. cbn. by rewrite app_nil_r.
Qed.

(** [main] from the probe to the summary, case by case. *)
Lemma main_cases args w :
  (∀ msg out err, sh w (js "which fusesoc") = Failed msg out err →
     TestCores.main args w
     = (Exit 1, add_events w (Exec (js "which fusesoc") :: fusesoc_missing_lines)))
  ∧ (∀ tool msg out err,
       sh w (js "which fusesoc") = Done tool →
       sh w (js "fusesoc list-cores") = Failed msg out err →
       TestCores.main args w
       = (Exit 1, add_events w
            [Exec (js "which fusesoc"); Exec (js "fusesoc list-cores");
             Stderr ((js "Error: " ++ js "Failed to list cores: " ++ msg) ++ [10])]))
  ∧ (∀ tool listing,
       sh w (js "which fusesoc") = Done tool →
       sh w (js "fusesoc list-cores") = Done listing →
       (TestCores.coresOf listing = [] →
        TestCores.main args w
        = (Exit 1, add_events w
             [Exec (js "which fusesoc"); Exec (js "fusesoc list-cores");
              Stderr (js "Error: No icechips cores found." ++ [10]);
              Stderr (js "Make sure core files are in the project root and fusesoc.conf is configured."
                      ++ [10])]))
       ∧ (∀ p, TestCores.coresOf listing ≠ [] → filter_arg args = Some p →
            TestCores.filterCores (TestCores.coresOf listing) (Some p) = [] →
            TestCores.main args w
            = (Exit 1, add_events w
                 [Exec (js "which fusesoc"); Exec (js "fusesoc list-cores");
                  Stderr ((js "Error: No cores match filter pattern: " ++ p) ++ [10])]))
       ∧ (∀ cores,
            cores = TestCores.filterCores (TestCores.coresOf listing) (filter_arg args) →
            cores ≠ [] →
            ∃ o before closing,
              TestCores.main args w
              = (o, add_events w
                      (before
                       ++ summary_lines (length cores)
                            (length cores - count_failing w cores) (count_failing w cores)
                       ++ closing))
              ∧ execs before
                = [js "which fusesoc"; js "fusesoc list-cores"] ++ (sim_command <$> cores)
              ∧ execs closing = []
              ∧ (o = Exit 1 ↔ (0 < count_failing w cores)%nat)
              ∧ (o = Ret () ↔ count_failing w cores = 0%nat))).
Proof.
  split_and!.
  - intros msg out err Hwhich. unfold TestCores.main. unfold mbind at 1. unfold M_bind at 1.
    rewrite isFuseSoCAvailable_runs, Hwhich. cbn [negb]. by run.
  - intros tool msg out err Hwhich Hlist.
    unfold TestCores.main. unfold mbind at 1. unfold M_bind at 1.
    rewrite isFuseSoCAvailable_runs, Hwhich. cbn [negb].
    unfold mbind at 1. unfold M_bind at 1. unfold try_catch at 1.
    rewrite getAllIceChipsCores_runs, sh_add_events, Hlist. by run.
  - intros tool listing Hwhich Hlist.
    destruct (main_filtered args w tool listing Hwhich Hlist) as (Hnone & Hnomatch & _).
    split; [exact Hnone|]. split; [exact Hnomatch|].
    intros cores -> Hne.
    remember (TestCores.main args w) as res eqn:Hmain.
    unfold TestCores.main in Hmain. fold (filter_arg args) in Hmain.
    unfold mbind at 1 in Hmain. unfold M_bind at 1 in Hmain.
    rewrite isFuseSoCAvailable_runs, Hwhich in Hmain. cbn [negb] in Hmain.
    unfold mbind at 1 in Hmain. unfold M_bind at 1 in Hmain. unfold try_catch at 1 in Hmain.
    rewrite getAllIceChipsCores_runs, sh_add_events, Hlist, add_events_app in Hmain.
    case_bool_decide as Hlen.
    { destruct (TestCores.coresOf listing); [|done]. by rewrite filterCores_nil in Hne. }
    set (cores := TestCores.filterCores (TestCores.coresOf listing) (filter_arg args)) in *.
    assert (Hmain' : res =
      (console_log (js "Found " ++ show_nat (length cores) ++ js " icechips core(s) to test:");;
       (if wants_verbose args || bool_decide (length cores ≤ 10)%nat then
          forEach (λ core, console_log (js "  " ++ core)) cores
        else
          console_log (js "  " ++ default [] (head cores) ++ js " ... "
                       ++ default [] (last cores)));;
       console_log (js "");;
       TestCores.testAll cores (wants_verbose args))
        (add_events w ([Exec (js "which fusesoc")] ++ [Exec (js "fusesoc list-cores")]))).
    { subst cores. destruct (filter_arg args) as [p|].
      - case_bool_decide as Hnm.
        { exfalso. apply Hne. by apply nil_length_inv. }
        exact Hmain.
      - exact Hmain. }
    clear Hmain.
    destruct (listed_cores args cores
                (add_events w ([Exec (js "which fusesoc")] ++ [Exec (js "fusesoc list-cores")]))
                Hne) as (lines & Hlines & Hrun).
    rewrite Hrun in Hmain'.
    destruct (testAll_runs cores (wants_verbose args)
                (add_events (add_events w ([Exec (js "which fusesoc")]
                                           ++ [Exec (js "fusesoc list-cores")])) lines))
      as (o & before & closing & Htest & Hbefore & Hclosing & Hexit & Hret).
    change (count_failing (add_events _ lines) cores) with (count_failing w cores) in *.
    rewrite Htest in Hmain'. subst res. rewrite !add_events_app.
    exists o, (([Exec (js "which fusesoc")] ++ [Exec (js "fusesoc list-cores")])
               ++ lines ++ before), closing.
    split; [by rewrite <- !app_assoc|].
    rewrite !execs_app, Hlines, Hbefore. done.
Qed.

(** C9, as amended: for every list of n cores handed to the test loop, of
    which k simulations fail, every core is run exactly once and in order
    whatever the earlier results, the summary reports Total n, Success n-k
    and Failed k, and the run ends with status 1 when k > 0 and normally
    when k = 0.  [main] hands over the discovered cores that contain the
    [--filter] pattern (all of them without a pattern), after the probe and
    the listing, only when there is at least one.  Otherwise (orchestrator
    missing, listing failed, nothing discovered or nothing matching) it
    prints the error of that case and exits with status 1, having run no
    simulation and printed no summary. *)
Theorem summary_counts :
  (∀ cores verbose w, ∃ o before closing,
     TestCores.testAll cores verbose w
     = (o, add_events w
             (before
              ++ summary_lines (length cores) (length cores - count_failing w cores)
                   (count_failing w cores)
              ++ closing))
     ∧ execs before = sim_command <$> cores
     ∧ execs closing = []
     ∧ (o = Exit 1 ↔ (0 < count_failing w cores)%nat)
     ∧ (o = Ret () ↔ count_failing w cores = 0%nat))
  ∧ (∀ args w,
       (∀ msg out err, sh w (js "which fusesoc") = Failed msg out err →
          TestCores.main args w
          = (Exit 1, add_events w (Exec (js "which fusesoc") :: fusesoc_missing_lines)))
       ∧ (∀ tool msg out err,
            sh w (js "which fusesoc") = Done tool →
            sh w (js "fusesoc list-cores") = Failed msg out err →
            TestCores.main args w
            = (Exit 1, add_events w
                 [Exec (js "which fusesoc"); Exec (js "fusesoc list-cores");
                  Stderr ((js "Error: " ++ js "Failed to list cores: " ++ msg) ++ [10])]))
       ∧ (∀ tool listing,
            sh w (js "which fusesoc") = Done tool →
            sh w (js "fusesoc list-cores") = Done listing →
            (TestCores.coresOf listing = [] →
             TestCores.main args w
             = (Exit 1, add_events w
                  [Exec (js "which fusesoc"); Exec (js "fusesoc list-cores");
                   Stderr (js "Error: No icechips cores found." ++ [10]);
                   Stderr (js "Make sure core files are in the project root and fusesoc.conf is configured."
                           ++ [10])]))
            ∧ (∀ p, TestCores.coresOf listing ≠ [] → filter_arg args = Some p →
                 TestCores.filterCores (TestCores.coresOf listing) (Some p) = [] →
                 TestCores.main args w
                 = (Exit 1, add_events w
                      [Exec (js "which fusesoc"); Exec (js "fusesoc list-cores");
                       Stderr ((js "Error: No cores match filter pattern: " ++ p) ++ [10])]))
            ∧ (∀ cores,
                 cores = TestCores.filterCores (TestCores.coresOf listing) (filter_arg args) →
                 cores ≠ [] →
                 ∃ o before closing,
                   TestCores.main args w
                   = (o, add_events w
                           (before
                            ++ summary_lines (length cores)
                                 (length cores - count_failing w cores)
                                 (count_failing w cores)
                            ++ closing))
                   ∧ execs before
                     = [js "which fusesoc"; js "fusesoc list-cores"]
                       ++ (sim_command <$> cores)
                   ∧ execs closing = []
                   ∧ (o = Exit 1 ↔ (0 < count_failing w cores)%nat)
                   ∧ (o = Ret () ↔ count_failing w cores = 0%nat)))).
Proof. split; [apply testAll_runs|apply main_cases]. Qed.

(** Five cores, two failing: Total 5, Success 3, Failed 2, status 1. *)
Example summary_of_five :
  TestCores.coresOf five_cores_listing
  = [js "icechips:ttl:7400"; js "icechips:ttl:7402"; js "icechips:ttl:7404";
     js "icechips:ttl:7408"; js "icechips:ttl:7410"]
  ∧ count_failing five_cores_world (TestCores.coresOf five_cores_listing) = 2%nat
  ∧ (TestCores.main [] five_cores_world).1 = Exit 1
  ∧ take 5 (drop 24 (trace (TestCores.main [] five_cores_world).2)) = summary_lines 5 3 2.
Proof. split_and!; vm_compute; reflexivity. Qed.

(** C9, as stated, fails for the empty list: when the listing names no core,
    nothing fails, yet the runner exits with status 1 and prints no
    summary. *)
Lemma no_cores_exits_1 :
  TestCores.coresOf [] = []
  ∧ count_failing bare_world [] = 0%nat
  ∧ (TestCores.main [] bare_world).1 = Exit 1
  ∧ Stdout (js "Summary:" ++ [10]) ∉ trace (TestCores.main [] bare_world).2.
Proof.
  split_and!; try (vm_compute; reflexivity).
  vm_compute. intros Hin. repeat (apply elem_of_cons in Hin as [[=]|Hin]).
  by apply elem_of_nil in Hin.
Qed.



(** * Further properties *)

(** ** More about generate-core.js *)

Lemma all_in_app p a b : all_in p (a ++ b) ↔ all_in p a ∧ all_in p b.
Proof. apply Forall_app. Qed.

(** X1: whatever [extractModuleName] returns is a non-empty run of word
    characters (letters, digits, underscore) that occurs in the text; in
    particular the result is never the empty string, so the caller's test
    [!rtlModuleName] fails only when nothing was found. *)
Theorem extractModuleName_is_identifier (text name : jsstring) :
  GenerateCore.extractModuleName text = Some name →
  name ≠ [] ∧ all_in is_word name ∧ includes text name = true.
Proof. apply extracted_name_word. Qed.

Lemma extractModuleName_is_identifier_witness :
  GenerateCore.extractModuleName (js "module ttl_7400 #(parameter N = 4)") = Some (js "ttl_7400")
  ∧ js "ttl_7400" ≠ [] ∧ all_in is_word (js "ttl_7400")
  ∧ includes (js "module ttl_7400 #(parameter N = 4)") (js "ttl_7400") = true.
Proof.
  split; [vm_compute; reflexivity|].
  apply (extractModuleName_is_identifier (js "module ttl_7400 #(parameter N = 4)")).
  vm_compute; reflexivity.
Defined.

(** The version step, when it yields a text. *)
Lemma finalVersion_text `{Host} root version w text :
  version_text root version w = Some text →
  ∃ v evs,
    match version with
    | Some v => if nonempty v then mret (JStr v)
                else GenerateCore.getVersionFromPackageJson root
    | None => GenerateCore.getVersionFromPackageJson root
    end w = (Ret v, add_events w evs)
    ∧ ToString v = inr text
    ∧ (∀ p c, FsWrite p c ∉ evs).
Proof.
  unfold version_text. intros Htext.
  assert (Hlookup : supplied version = false →
    ∃ v evs, GenerateCore.getVersionFromPackageJson root w = (Ret v, add_events w evs)
      ∧ ToString v = inr text ∧ (∀ p c, FsWrite p c ∉ evs)).
  { intros Hs. rewrite Hs in Htext.
    destruct (getVersion_runs root w) as (o & Hrun & _). rewrite Hrun in *. cbn [fst] in Htext.
    destruct o as [v| |]; [|done..].
    destruct (ToString v) as [|t] eqn:Ht; [done|]. injection Htext as ->.
    eexists _, _. split_and!; [done..|].
    intros p c [[=]|[]%elem_of_nil]%elem_of_cons. }
  destruct version as [[|c v]|]; cbn [nonempty supplied] in *; [by apply Hlookup| |by apply Hlookup].
  injection Htext as <-. exists (JStr (c :: v)), []. rewrite add_events_nil.
  split_and!; [done..|]. intros p q []%elem_of_nil.
Qed.

(** The successful path of [generateCoreForChip]. *)
Lemma generateCoreForChip_succeeds `{Host} (chip root : jsstring)
    (version : option jsstring) (w : World)
    (versionText rtlText tbText rtlName tbName : jsstring) :
  version_text root version w = Some versionText →
  fs w !! path_join (path_join root (js "source-7400")) (chip ++ js ".v")
    = Some (File rtlText) →
  fs w !! path_join (path_join root (js "source-7400")) (chip ++ js "-tb.v")
    = Some (File tbText) →
  GenerateCore.extractModuleName rtlText = Some rtlName →
  GenerateCore.extractModuleName tbText = Some tbName →
  write_failure w (path_join root (js "icechips_" ++ chip ++ js ".core")) = None →
  ∃ w',
    GenerateCore.generateCoreForChip chip root version w
    = (Ret {| success := true;
              message := js "Generated core file: "
                         ++ path_join root (js "icechips_" ++ chip ++ js ".core");
              output := None;
              chipNumber := Some chip;
              rtlModuleName := Some rtlName;
              tbModuleName := Some tbName |}, w')
    ∧ fs w' = <[path_join root (js "icechips_" ++ chip ++ js ".core")
                := File (GenerateCore.generateCoreFile chip versionText rtlName tbName)]> (fs w).
Proof.
  intros Hversion Hrtl Htb Hrname Htname Hwritable.
  destruct (generateCoreForChip_cases chip root version w)
    as (r & w' & Hrun & [(_ & _ & Hnot)|(vt & rn & tn & Hready & _ & -> & Hfs)]).
  - destruct (Hnot versionText rtlName tbName). split; [|done].
    by exists rtlText, tbText.
  - destruct Hready as (rtlText' & tbText' & Hv' & Hrtl' & Htb' & Hrn' & Htn').
    rewrite Hversion in Hv'. rewrite Hrtl in Hrtl'. rewrite Htb in Htb'. simplify_eq.
    exists w'. done.
Qed.

(** X2: when the version is known (supplied, or read from the manifest),
    both source files are regular files from which a module name can be
    extracted and the write of the core file meets no error (the path is not
    a directory and the operating system lets the process create or
    truncate the file), [generateCoreForChip] returns a success result that
    carries the chip and the two module names, and the only change to the
    file system is that [<root>/icechips_<chip>.core] now holds the manifest
    rendered by [generateCoreFile] for that version and those names. *)
Theorem generateCoreForChip_writes_core `{Host} (chip root : jsstring)
    (version : option jsstring) (w : World)
    (versionText rtlText tbText rtlName tbName : jsstring) :
  version_text root version w = Some versionText →
  fs w !! path_join (path_join root (js "source-7400")) (chip ++ js ".v")
    = Some (File rtlText) →
  fs w !! path_join (path_join root (js "source-7400")) (chip ++ js "-tb.v")
    = Some (File tbText) →
  GenerateCore.extractModuleName rtlText = Some rtlName →
  GenerateCore.extractModuleName tbText = Some tbName →
  write_failure w (path_join root (js "icechips_" ++ chip ++ js ".core")) = None →
  ∃ w',
    GenerateCore.generateCoreForChip chip root version w
    = (Ret {| success := true;
              message := js "Generated core file: "
                         ++ path_join root (js "icechips_" ++ chip ++ js ".core");
              output := None;
              chipNumber := Some chip;
              rtlModuleName := Some rtlName;
              tbModuleName := Some tbName |}, w')
    ∧ fs w' = <[path_join root (js "icechips_" ++ chip ++ js ".core")
                := File (GenerateCore.generateCoreFile chip versionText rtlName tbName)]> (fs w).
Proof. apply generateCoreForChip_succeeds. Qed.

Lemma generateCoreForChip_writes_core_witness :
  @version_text demo_host (js "/repo") None repo_world = Some (js "0.9.2")
  ∧ ∃ w',
      @GenerateCore.generateCoreForChip demo_host (js "7400") (js "/repo") None repo_world
      = (Ret {| success := true;
                message := js "Generated core file: "
                           ++ @path_join demo_host (js "/repo")
                                (js "icechips_" ++ js "7400" ++ js ".core");
                output := None;
                chipNumber := Some (js "7400");
                rtlModuleName := Some (js "ttl_7400");
                tbModuleName := Some (js "test") |}, w')
      ∧ fs w' = <[@path_join demo_host (js "/repo") (js "icechips_" ++ js "7400" ++ js ".core")
                  := File (GenerateCore.generateCoreFile (js "7400") (js "0.9.2")
                             (js "ttl_7400") (js "test"))]> (fs repo_world).
Proof.
  split; [vm_compute; reflexivity|].
  apply (@generateCoreForChip_writes_core demo_host (js "7400") (js "/repo") None repo_world
           (js "0.9.2") (js "module ttl_7400 #(parameter N = 4)") (js "module test;"));
    vm_compute; reflexivity.
Defined.

(** The version step, when the version is supplied or the lookup returns. *)
Lemma finalVersion_resolves `{Host} root version w :
  supplied version = true
  ∨ (∃ v, (GenerateCore.getVersionFromPackageJson root w).1 = Ret v) →
  ∃ v evs,
    match version with
    | Some v => if nonempty v then mret (JStr v)
                else GenerateCore.getVersionFromPackageJson root
    | None => GenerateCore.getVersionFromPackageJson root
    end w = (Ret v, add_events w evs)
    ∧ (∀ p c, FsWrite p c ∉ evs).
Proof.
  intros Hres.
  destruct (finalVersion_runs root version w) as (o & evs & Hv & Hne & Hw & Hsup & Hlookup).
  rewrite Hv. destruct (supplied version) eqn:Hs.
  - destruct (Hsup eq_refl) as [v ->]. eauto.
  - destruct Hres as [?|[v Hret]]; [done|].
    rewrite <- (Hlookup eq_refl) in Hret. cbn [fst] in Hret. subst o. eauto.
Qed.

Ltac no_write :=
  intros ? ? ?Hin; rewrite ?elem_of_app, ?elem_of_cons, ?elem_of_nil in Hin;
  repeat match goal with
    | H : _ ∨ _ |- _ => destruct H
    | H : FsWrite _ _ = _ |- _ => discriminate H
    | H : False |- _ => destruct H
    | Hw : ∀ p c, FsWrite p c ∉ ?evs, H : FsWrite _ _ ∈ ?evs |- _ => by apply Hw in H
    end.

(** X3: when the version is known and the RTL file is a regular file but the
    test bench is not, [generateCoreForChip] returns a failure whose message
    is [Testbench file not found: ] followed by the path of the test bench,
    and writes no file. *)
Theorem missing_testbench_is_reported `{Host} (chip root : jsstring)
    (version : option jsstring) (w : World) :
  supplied version = true
  ∨ (∃ v, (GenerateCore.getVersionFromPackageJson root w).1 = Ret v) →
  is_file (fs w !! path_join (path_join root (js "source-7400")) (chip ++ js ".v")) = true →
  is_file (fs w !! path_join (path_join root (js "source-7400")) (chip ++ js "-tb.v")) = false →
  ∃ evs,
    GenerateCore.generateCoreForChip chip root version w
    = (Ret (failure (js "Testbench file not found: "
                     ++ path_join (path_join root (js "source-7400")) (chip ++ js "-tb.v"))),
       add_events w evs)
    ∧ (∀ p c, FsWrite p c ∉ evs).
Proof.
  intros Hres Hrtl Htb. unfold GenerateCore.generateCoreForChip.
  destruct (finalVersion_resolves root version w Hres) as (v & evs & Hv & Hw).
  unfold try_catch at 1. unfold mbind at 1. unfold M_bind at 1. rewrite Hv. clear Hv. run.
  rewrite isExistingFile_runs. run. rewrite Hrtl. cbn [negb]. run.
  rewrite isExistingFile_runs. run. rewrite Htb. cbn [negb]. run.
  eexists. split; [reflexivity|]. no_write.
Qed.

Lemma missing_testbench_is_reported_witness :
  supplied (Some (js "1.0.0")) = true
  ∧ ∃ evs,
      @GenerateCore.generateCoreForChip demo_host (js "7402") (js "/repo") (Some (js "1.0.0"))
        partial_world
      = (Ret (failure (js "Testbench file not found: "
                       ++ @path_join demo_host (@path_join demo_host (js "/repo")
                                                  (js "source-7400")) (js "7402" ++ js "-tb.v"))),
         add_events partial_world evs)
      ∧ (∀ p c, FsWrite p c ∉ evs).
Proof.
  split; [reflexivity|].
  apply (@missing_testbench_is_reported demo_host (js "7402") (js "/repo") (Some (js "1.0.0"))
           partial_world); [left|..]; vm_compute; reflexivity.
Defined.

(** X4: when both source files can be read but [extractModuleName] finds no
    module in one of them, [generateCoreForChip] returns a failure whose
    message names the offending file, [<chip>.v] first, [<chip>-tb.v] only
    when the RTL did declare a module, and writes no file. *)
Theorem unextractable_module_is_reported `{Host} (chip root : jsstring)
    (version : option jsstring) (w : World) (rtlText tbText : jsstring) :
  supplied version = true
  ∨ (∃ v, (GenerateCore.getVersionFromPackageJson root w).1 = Ret v) →
  fs w !! path_join (path_join root (js "source-7400")) (chip ++ js ".v")
    = Some (File rtlText) →
  fs w !! path_join (path_join root (js "source-7400")) (chip ++ js "-tb.v")
    = Some (File tbText) →
  GenerateCore.extractModuleName rtlText = None
  ∨ GenerateCore.extractModuleName tbText = None →
  ∃ evs,
    GenerateCore.generateCoreForChip chip root version w
    = (Ret (failure (js "Could not extract module name from "
                     ++ match GenerateCore.extractModuleName rtlText with
                        | Some _ => chip ++ js "-tb.v"
                        | None => chip ++ js ".v"
                        end)),
       add_events w evs)
    ∧ (∀ p c, FsWrite p c ∉ evs).
Proof.
  intros Hres Hrtl Htb Hnone. unfold GenerateCore.generateCoreForChip.
  destruct (finalVersion_resolves root version w Hres) as (v & evs & Hv & Hw).
  unfold try_catch at 1. unfold mbind at 1. unfold M_bind at 1. rewrite Hv. clear Hv. run.
  rewrite isExistingFile_runs. run. rewrite Hrtl. cbn [is_file negb]. run.
  rewrite isExistingFile_runs. run. rewrite Htb. cbn [is_file negb]. run.
  rewrite (readFile_File _ _ rtlText) by done. run.
  rewrite (readFile_File _ _ tbText) by done. run.
  destruct (GenerateCore.extractModuleName rtlText) as [rtlName|] eqn:Hr.
  - assert (rtlName ≠ []) by (by apply extracted_name_word in Hr as [? _]).
    destruct rtlName as [|r0 rtlName]; [done|].
    destruct Hnone as [?|Ht]; [done|]. rewrite Ht. run.
    eexists. split; [reflexivity|]. no_write.
  - run. eexists. split; [reflexivity|]. no_write.
Qed.

Lemma unextractable_module_is_reported_witness :
  GenerateCore.extractModuleName (js "// nothing declared here") = None
  ∧ ∃ evs,
      @GenerateCore.generateCoreForChip demo_host (js "7404") (js "/repo") None partial_world
      = (Ret (failure (js "Could not extract module name from "
                       ++ match GenerateCore.extractModuleName
                                  (js "// nothing declared here") with
                          | Some _ => js "7404" ++ js "-tb.v"
                          | None => js "7404" ++ js ".v"
                          end)),
         add_events partial_world evs)
      ∧ (∀ p c, FsWrite p c ∉ evs).
Proof.
  split; [vm_compute; reflexivity|].
  apply (@unextractable_module_is_reported demo_host (js "7404") (js "/repo") None
           partial_world (js "// nothing declared here") (js "module test;"));
    [right; eexists|..|left]; vm_compute; reflexivity.
Defined.

(** ** The command line of generate-core.js *)

Lemma cli_version args : 
  match args !! 1%nat with
  | Some v => if nonempty v then Some v else None
  | None => None
  end = arg_or_null args 1.
Proof. done. Qed.

(** The command line and the library function, side by side. *)
Lemma cli_and_library `{Host} chip rest root w :
  ∃ r w1 o w2,
    GenerateCore.generateCoreForChip chip root (arg_or_null (chip :: rest) 1) w = (Ret r, w1)
    ∧ GenerateCoreCli.main (chip :: rest) root w = (o, w2)
    ∧ fs w2 = fs w1
    ∧ (o = Ret () ↔ success r = true)
    ∧ (success r = false → o = Exit 1 ∨ ∃ e, o = Throw e).
Proof.
  unfold GenerateCore.generateCoreForChip, GenerateCoreCli.main.
  rewrite cli_version.
  assert (Hrest : ∀ (finalVersion : JSValue) evs, ∃ r w1 o w2,
    try_catch
      (let sourceDir := path_join root (js "source-7400") in
       let rtlFileName := chip ++ js ".v" in
       let tbFileName := chip ++ js "-tb.v" in
       rtlThere ← FsReadFileHelper.isExistingFile sourceDir rtlFileName;
       if negb rtlThere then
         mret (failure (js "RTL file not found: " ++ path_join sourceDir rtlFileName))
       else
       tbThere ← FsReadFileHelper.isExistingFile sourceDir tbFileName;
       if negb tbThere then
         mret (failure (js "Testbench file not found: " ++ path_join sourceDir tbFileName))
       else
       rtlContent ← FsReadFileHelper.readFile sourceDir rtlFileName;
       tbContent ← FsReadFileHelper.readFile sourceDir tbFileName;
       let rtlModuleName := GenerateCore.extractModuleName rtlContent in
       let tbModuleName := GenerateCore.extractModuleName tbContent in
       match rtlModuleName, tbModuleName with
       | None, _ | Some [], _ =>
           mret (failure (js "Could not extract module name from " ++ rtlFileName))
       | _, None | _, Some [] =>
           mret (failure (js "Could not extract module name from " ++ tbFileName))
       | Some rtlName, Some tbName =>
           versionText ← lift (ToString finalVersion);
           let coreContent := GenerateCore.generateCoreFile chip versionText rtlName tbName in
           let coreFileName := js "icechips_" ++ chip ++ js ".core" in
           let coreFilePath := path_join root coreFileName in
           writeFileSync coreFilePath coreContent;;
           mret {| success := true;
                   message := js "Generated core file: " ++ coreFilePath;
                   output := None;
                   chipNumber := Some chip;
                   rtlModuleName := Some rtlName;
                   tbModuleName := Some tbName |}
       end)
      (λ error,
         mret (failure (js "Error processing " ++ chip ++ js ": "
                        ++ error_message error))) (add_events w evs) = (Ret r, w1)
    ∧ (let sourceDir := path_join root (js "source-7400") in
       let rtlFileName := chip ++ js ".v" in
       let tbFileName := chip ++ js "-tb.v" in
       rtlThere ← FsReadFileHelper.isExistingFile sourceDir rtlFileName;
       if negb rtlThere then
         console_error (js "Error: RTL file not found: " ++ path_join sourceDir rtlFileName);;
         process_exit 1
       else
       tbThere ← FsReadFileHelper.isExistingFile sourceDir tbFileName;
       if negb tbThere then
         console_error (js "Error: Testbench file not found: "
                        ++ path_join sourceDir tbFileName);;
         process_exit 1
       else
       rtlContent ← FsReadFileHelper.readFile sourceDir rtlFileName;
       tbContent ← FsReadFileHelper.readFile sourceDir tbFileName;
       let rtlModuleName := GenerateCore.extractModuleName rtlContent in
       let tbModuleName := GenerateCore.extractModuleName tbContent in
       match rtlModuleName, tbModuleName with
       | None, _ | Some [], _ =>
           console_error (js "Error: Could not extract module name from " ++ rtlFileName);;
           process_exit 1
       | _, None | _, Some [] =>
           console_error (js "Error: Could not extract module name from " ++ tbFileName);;
           process_exit 1
       | Some rtlName, Some tbName =>
           console_log (js "Extracted RTL module name: " ++ rtlName);;
           console_log (js "Extracted testbench module name: " ++ tbName);;
           versionText ← lift (ToString finalVersion);
           let coreContent :=
             GenerateCore.generateCoreFile chip versionText rtlName tbName in
           let coreFileName := js "icechips_" ++ chip ++ js ".core" in
           let coreFilePath := path_join root coreFileName in
           writeFileSync coreFilePath coreContent;;
           console_log (js "Generated core file: " ++ coreFilePath)
       end) (add_events w evs) = (o, w2)
    ∧ fs w2 = fs w1
    ∧ (o = Ret () ↔ success r = true)
    ∧ (success r = false → o = Exit 1 ∨ ∃ e, o = Throw e)).
  { intros finalVersion evs. cbv zeta.
    unfold FsReadFileHelper.isExistingFile, FsReadFileHelper.readFile, readFileSync,
      writeFileSync.
    run.
    destruct (fs w !! path_join (path_join root (js "source-7400")) (chip ++ js ".v"))
      as [[rtlText| |]|] eqn:Hrtl; cbn [is_file negb]; repeat (run; rewrite ?Hrtl);
      try (eexists _, _, _, _; split_and!; try reflexivity; try done; by eauto).
    all: destruct (fs w !! path_join (path_join root (js "source-7400")) (chip ++ js "-tb.v"))
      as [[tbText| |]|] eqn:Htb; cbn [is_file negb]; repeat (run; rewrite ?Hrtl, ?Htb);
      try (eexists _, _, _, _; split_and!; try reflexivity; try done; by eauto).
    destruct (GenerateCore.extractModuleName rtlText) as [[|? ?]|]; run;
      try (eexists _, _, _, _; split_and!; try reflexivity; try done; by eauto).
    destruct (GenerateCore.extractModuleName tbText) as [[|? ?]|]; run;
      try (eexists _, _, _, _; split_and!; try reflexivity; try done; by eauto).
    destruct (ToString finalVersion) as [e|versionText]; run;
      try (eexists _, _, _, _; split_and!; try reflexivity; try done; by eauto).
    destruct (fs w !! path_join root _) as [[| |]|]; run;
      try destruct (write_error w (path_join root (js "icechips_" ++ chip ++ js ".core")));
      run;
      eexists _, _, _, _; split_and!; try reflexivity; try done; by eauto. }
  remember (arg_or_null (chip :: rest) 1) as version eqn:Hversion. clear Hversion.
  match goal with
  | |- ∃ r w1 o w2, _ ∧ ?m = _ ∧ _ => remember m as res eqn:Hm
  end.
  unfold mbind at 1 in Hm. unfold M_bind at 1 in Hm.
  unfold try_catch at 1. unfold mbind at 1. unfold M_bind at 1.
  destruct (finalVersion_runs root version w) as (o0 & evs & Hv & Hne & _).
  rewrite Hv in Hm. rewrite Hv. clear Hv.
  destruct o0 as [finalVersion|e|code]; [| |by destruct (Hne code)].
  - destruct (Hrest finalVersion evs) as (r & w1 & o & w2 & H1 & H2 & ?).
    unfold try_catch in H1.
    exists r, w1, o, w2. split; [exact H1|]. split; [by rewrite Hm|]. done.
  - subst res. run. eexists _, _, _, _. split_and!; try reflexivity; try done; by eauto.
Qed.

(** X5: [main] of generate-core.js, given a chip and an optional version,
    leaves the file system exactly as [generateCoreForChip] does for the
    same arguments (an empty version argument counts as none); it returns
    normally exactly when the library function reports success, and where
    the library function reports failure it exits with status 1 or
    throws. *)
Theorem cli_writes_what_library_writes `{Host} (chip : jsstring) (rest : list jsstring)
    (root : jsstring) (w : World) :
  ∃ r w1 o w2,
    GenerateCore.generateCoreForChip chip root (arg_or_null (chip :: rest) 1) w = (Ret r, w1)
    ∧ GenerateCoreCli.main (chip :: rest) root w = (o, w2)
    ∧ fs w2 = fs w1
    ∧ (o = Ret () ↔ success r = true)
    ∧ (success r = false → o = Exit 1 ∨ ∃ e, o = Throw e).
Proof. apply cli_and_library. Qed.

(** X6: run as a script, generate-core.js calls [main] inside a [try] whose
    [catch] is empty, so it ends normally or with exit status 1, never with
    an exception; in particular, when no version is given and the lookup in
    the project manifest throws, the script ends normally, having printed
    nothing and written nothing after the failed read. *)
Theorem script_swallows_errors `{Host} (args : list jsstring) (root : jsstring) (w : World) :
  (∃ w', GenerateCoreCli.script args root w = (Ret (), w')
         ∨ GenerateCoreCli.script args root w = (Exit 1, w'))
  ∧ (∀ e w1, args ≠ [] → arg_or_null args 1 = None →
       GenerateCore.getVersionFromPackageJson root w = (Throw e, w1) →
       GenerateCoreCli.script args root w = (Ret (), w1)).
Proof.
  split.
  - unfold GenerateCoreCli.script. destruct args as [|chip rest].
    + unfold GenerateCoreCli.main. run. eauto.
    + destruct (cli_and_library chip rest root w)
        as (r & w1 & o & w2 & _ & Hmain & _ & Hok & Hfail).
      unfold try_catch. rewrite Hmain. destruct (success r).
      * assert (o = Ret ()) as -> by (by apply Hok). eauto.
      * destruct (Hfail eq_refl) as [->|[e ->]]; run; eauto.
  - intros e w1 Hargs Hnone Hthrow. destruct args as [|chip rest]; [done|].
    unfold GenerateCoreCli.script, GenerateCoreCli.main. rewrite cli_version, Hnone.
    unfold try_catch, mbind at 1. unfold M_bind at 1. by rewrite Hthrow.
Qed.

Lemma script_swallows_errors_witness :
  [js "7400"] ≠ [] ∧ arg_or_null [js "7400"] 1 = None
  ∧ @GenerateCoreCli.script demo_host [js "7400"] (js "/repo") bare_world
    = (Ret (), add_events bare_world [FsRead (js "/repo/package.json")]).
Proof.
  split; [done|]. split; [reflexivity|].
  refine (proj2 (@script_swallows_errors demo_host [js "7400"] (js "/repo") bare_world)
            (Error (js "ENOENT: no such file or directory, open '/repo/package.json'"))
            _ _ _ _); [done|reflexivity|vm_compute; reflexivity].
Defined.

(** X7: [getVersionFromPackageJson] reads [<root>/package.json] once; it
    throws the file system's error when the manifest is missing, the
    parser's error when the text is not JSON, and it throws as well when
    the JSON is [null]; for any other JSON value that is not an object (a number, a
    string, a boolean, an array) it returns the default [0.1.0]. *)
Theorem getVersion_failures `{Host} (root : jsstring) (w : World) :
  let path := path_join root (js "package.json") in
  (fs w !! path = None →
     GenerateCore.getVersionFromPackageJson root w
     = (Throw (Error (js "ENOENT: no such file or directory, open " ++ quoted path)),
        add_events w [FsRead path]))
  ∧ (∀ text e, fs w !! path = Some (File text) → JSON_parse text = inl e →
       GenerateCore.getVersionFromPackageJson root w = (Throw e, add_events w [FsRead path]))
  ∧ (∀ text, fs w !! path = Some (File text) → JSON_parse text = inr JNull →
       ∃ e, GenerateCore.getVersionFromPackageJson root w
            = (Throw e, add_events w [FsRead path]))
  ∧ (∀ text value, fs w !! path = Some (File text) → JSON_parse text = inr value →
       match value with JNull | JObj _ => False | _ => True end →
       GenerateCore.getVersionFromPackageJson root w
       = (Ret (JStr (js "0.1.0")), add_events w [FsRead path])).
Proof.
  intros path. unfold GenerateCore.getVersionFromPackageJson, readFileSync. fold path.
  split_and!.
  - intros Hf. run. by rewrite Hf.
  - intros text e Hf Hp. run. rewrite Hf. run. by rewrite Hp.
  - intros text Hf Hp. run. rewrite Hf. run. rewrite Hp. run. cbn [get_version]. eauto.
  - intros text value Hf Hp Hv. run. rewrite Hf. run. rewrite Hp. run.
    by destruct value.
Qed.

Lemma getVersion_failures_witness :
  fs bare_world !! @path_join demo_host (js "/repo") (js "package.json") = None
  ∧ @GenerateCore.getVersionFromPackageJson demo_host (js "/repo") bare_world
    = (Throw (Error (js "ENOENT: no such file or directory, open "
                     ++ quoted (@path_join demo_host (js "/repo") (js "package.json")))),
       add_events bare_world [FsRead (@path_join demo_host (js "/repo") (js "package.json"))]).
Proof.
  split; [vm_compute; reflexivity|].
  refine (proj1 (@getVersion_failures demo_host (js "/repo") bare_world) _).
  vm_compute; reflexivity.
Defined.

(** ** generate-cores.js *)

Lemma console_events_app evs1 evs2 :
  console_events (evs1 ++ evs2) = console_events evs1 ++ console_events evs2.
Proof. apply filter_app. Qed.

(** The generation prints nothing and runs no command. *)
Lemma generateCoreForChip_quiet `{Host} chip root version w :
  ∃ r w' evs, GenerateCore.generateCoreForChip chip root version w = (Ret r, w')
    ∧ trace w' = trace w ++ evs
    ∧ sh w' = sh w
    ∧ console_events evs = []
    ∧ execs evs = [].
Proof.
  unfold GenerateCore.generateCoreForChip.
  destruct (finalVersion_runs root version w) as (o & evs & Hv & Hne & _ & Hsup & Hlookup).
  assert (Hquiet : console_events evs = [] ∧ execs evs = []).
  { destruct (supplied version) eqn:Hs.
    - destruct version as [[|c v]|]; try done. unfold mret, M_ret in Hv.
      apply (f_equal snd) in Hv. cbn [snd] in Hv. apply (f_equal trace) in Hv. cbn in Hv.
      rewrite <- (app_nil_r (trace w)) in Hv at 1. apply app_inv_head in Hv. by subst evs.
    - pose proof (Hlookup eq_refl) as Heq.
      destruct (getVersion_runs root w) as (o' & Hrun & _). rewrite Hrun in Heq.
      apply (f_equal snd) in Heq. cbn [snd] in Heq. apply (f_equal trace) in Heq. cbn in Heq.
      apply app_inv_head in Heq. by subst evs. }
  destruct Hquiet as [Hq1 Hq2].
  unfold try_catch at 1. unfold mbind at 1. unfold M_bind at 1. rewrite Hv. clear Hv.
  assert (Hleaf : ∀ (r : Result) more,
    console_events more = [] → execs more = [] →
    ∃ r' w' evs', (Ret r, add_events w (evs ++ more)) = (Ret r', w')
      ∧ trace w' = trace w ++ evs' ∧ sh w' = sh w
      ∧ console_events evs' = [] ∧ execs evs' = []).
  { intros r more Hm1 Hm2. exists r, (add_events w (evs ++ more)), (evs ++ more).
    rewrite console_events_app, execs_app, Hq1, Hq2, Hm1, Hm2. done. }
  destruct o as [finalVersion|e|code]; [| |by destruct (Hne code)]; run.
  2:{ rewrite <- (app_nil_r evs). by apply Hleaf. }
  rewrite isExistingFile_runs. run.
  destruct (is_file _); cbn [negb]; run; [|by apply Hleaf].
  rewrite isExistingFile_runs. run.
  destruct (is_file _); cbn [negb]; run; [|rewrite <- app_assoc; by apply Hleaf].
  read_step; [|rewrite <- !app_assoc; by apply Hleaf].
  read_step; [|rewrite <- !app_assoc; by apply Hleaf].
  destruct (GenerateCore.extractModuleName content) as [[|? ?]|]; run;
    try (rewrite <- !app_assoc; by apply Hleaf).
  destruct (GenerateCore.extractModuleName content0) as [[|? ?]|]; run;
    try (rewrite <- !app_assoc; by apply Hleaf).
  destruct (ToString finalVersion) as [e|versionText]; run;
    [rewrite <- !app_assoc; by apply Hleaf|].
  unfold writeFileSync. run.
  destruct (fs w !! _) as [[| |]|]; run; try (rewrite <- !app_assoc; by apply Hleaf).
  all: destruct (write_error w _); run; try (rewrite <- !app_assoc; by apply Hleaf).
  all: eexists _, _, _; split; [reflexivity|]; cbn [trace sh add_events];
    split; [reflexivity|]; split; [done|];
    rewrite !console_events_app, !execs_app, Hq1, Hq2; done.
Qed.

Lemma succeeded_failed results : (succeeded results + failed results)%nat = length results.
Proof.
  unfold succeeded, failed. induction results as [|r results IH]; [done|].
  rewrite !filter_cons. destruct (success r); repeat case_decide; try done; cbn [length]; lia.
Qed.

Lemma processChip_step `{Host} root version tally chip w r w1 :
  GenerateCore.generateCoreForChip chip root version w = (Ret r, w1) →
  ∃ tally',
    GenerateCoresCli.processChip root version tally chip w
    = (Ret tally', add_events w1 [chip_report chip r])
    ∧ GenerateCoresCli.successCount tally'
      = (GenerateCoresCli.successCount tally + succeeded [r])%nat
    ∧ GenerateCoresCli.failureCount tally'
      = (GenerateCoresCli.failureCount tally + failed [r])%nat
    ∧ length (GenerateCoresCli.failures tally')
      = (length (GenerateCoresCli.failures tally) + failed [r])%nat.
Proof.
  intros Hrun. unfold GenerateCoresCli.processChip. unfold mbind at 1. unfold M_bind at 1.
  rewrite Hrun. unfold chip_report, succeeded, failed. rewrite !filter_cons, !filter_nil.
  destruct (success r); run; eexists; (split; [reflexivity|]);
    cbn [GenerateCoresCli.successCount GenerateCoresCli.failureCount
         GenerateCoresCli.failures];
    rewrite ?length_app; repeat case_decide; try done; cbn [length]; split_and!; lia.
Qed.

Lemma processFrom_each `{Host} root version chips tally w :
  ∃ tally',
    GenerateCoresCli.processFrom root version chips tally w
    = (Ret tally', (generate_each root version chips w).2)
    ∧ length (generate_each root version chips w).1 = length chips
    ∧ GenerateCoresCli.successCount tally'
      = (GenerateCoresCli.successCount tally
         + succeeded (generate_each root version chips w).1)%nat
    ∧ GenerateCoresCli.failureCount tally'
      = (GenerateCoresCli.failureCount tally
         + failed (generate_each root version chips w).1)%nat
    ∧ length (GenerateCoresCli.failures tally')
      = (length (GenerateCoresCli.failures tally)
         + failed (generate_each root version chips w).1)%nat.
Proof.
  revert tally w. induction chips as [|chip chips IH]; intros tally w.
  - exists tally. cbn. split_and!; try done; lia.
  - cbn [GenerateCoresCli.processFrom generate_each].
    unfold mbind at 1. unfold M_bind at 1.
    destruct (generateCoreForChip_shape chip root version w) as (r & w1 & Hrun & _).
    destruct (processChip_step root version tally chip w r w1 Hrun)
      as (t1 & -> & Hs1 & Hf1 & Hl1).
    rewrite Hrun. cbn [fst snd].
    destruct (IH t1 (add_events w1 [chip_report chip r]))
      as (t2 & -> & Hlen & Hs2 & Hf2 & Hl2).
    exists t2. rewrite Hs2, Hs1, Hf2, Hf1, Hl2, Hl1.
    unfold succeeded, failed. rewrite !filter_cons, !filter_nil.
    destruct (success r); repeat case_decide; try done; cbn [length];
      split_and!; try done; lia.
Qed.

(** What the generations print, and that they run nothing. *)
Lemma generate_each_trace `{Host} root version chips w :
  ∃ before,
    trace (generate_each root version chips w).2 = trace w ++ before
    ∧ console_events before
      = zip_with chip_report chips (generate_each root version chips w).1
    ∧ execs before = [].
Proof.
  revert w. induction chips as [|chip chips IH]; intros w.
  - exists []. cbn. by rewrite app_nil_r.
  - cbn [generate_each].
    destruct (generateCoreForChip_quiet chip root version w)
      as (r & w1 & evs & -> & Htrace & _ & Hq & Hx).
    cbn [fst snd].
    destruct (IH (add_events w1 [chip_report chip r])) as (before & -> & Hc & Hx').
    exists (evs ++ [chip_report chip r] ++ before). cbn [trace add_events].
    rewrite Htrace, <- !app_assoc. split; [done|].
    assert (console_events [chip_report chip r] = [chip_report chip r]
            ∧ execs [chip_report chip r] = []) as [Hr1 Hr2]
      by (unfold chip_report; by destruct (success r)).
    by rewrite !console_events_app, !execs_app, Hq, Hx, Hc, Hx', Hr1, Hr2.
Qed.

(** A regular file stays one through the generations. *)
Lemma generate_each_keeps `{Host} root version chips w path content :
  fs w !! path = Some (File content) →
  ∃ content', fs (generate_each root version chips w).2 !! path = Some (File content').
Proof.
  revert w content. induction chips as [|chip chips IH]; intros w content Hfile.
  - cbn. eauto.
  - cbn [generate_each].
    destruct (generateCoreForChip_cases chip root version w)
      as (r & w1 & -> & [(_ & Hfs & _)|(vt & rn & tn & _ & _ & _ & Hfs)]); cbn [fst snd].
    + apply (IH _ content). by rewrite fs_add_events, Hfs.
    + destruct (decide (path_join root (js "icechips_" ++ chip ++ js ".core") = path))
        as [<-|Hne].
      * eapply IH. by rewrite fs_add_events, Hfs, lookup_insert_eq.
      * apply (IH _ content). by rewrite fs_add_events, Hfs, lookup_insert_ne.
Qed.

Lemma generate_each_writes `{Host} root version chips w i chip r :
  chips !! i = Some chip →
  (generate_each root version chips w).1 !! i = Some r →
  success r = true →
  ∃ content,
    fs (generate_each root version chips w).2
    !! path_join root (js "icechips_" ++ chip ++ js ".core") = Some (File content).
Proof.
  revert w i. induction chips as [|c chips IH]; intros w i Hchip Hr Hok; [done|].
  cbn [generate_each] in *.
  destruct (generateCoreForChip_cases c root version w)
    as (r0 & w1 & Hrun & Hcases). rewrite Hrun in *. cbn [fst snd] in *.
  destruct i as [|i]; cbn in Hchip, Hr.
  - injection Hchip as ->. injection Hr as ->.
    destruct Hcases as [(Hfail & _)|(vt & rn & tn & _ & _ & _ & Hfs)]; [congruence|].
    eapply generate_each_keeps. by rewrite fs_add_events, Hfs, lookup_insert_eq.
  - by eapply IH.
Qed.

(** The second half of [main], for any list of chips. *)
Lemma processAll_runs `{Host} root version chips w :
  ∃ o closing,
    GenerateCoresCli.processAll root version chips w
    = (o, add_events (generate_each root version chips w).2
            (generation_summary (succeeded (generate_each root version chips w).1)
               (failed (generate_each root version chips w).1) ++ closing))
    ∧ execs closing = []
    ∧ (o = Exit 1 ↔ (0 < failed (generate_each root version chips w).1)%nat)
    ∧ (o = Ret () ↔ failed (generate_each root version chips w).1 = 0%nat).
Proof.
  unfold GenerateCoresCli.processAll. unfold mbind at 1. unfold M_bind at 1.
  destruct (processFrom_each root version chips
              {| GenerateCoresCli.successCount := 0; GenerateCoresCli.failureCount := 0;
                 GenerateCoresCli.failures := [] |} w)
    as (t & -> & Hlen & Hs & Hf & Hl).
  cbn [GenerateCoresCli.successCount GenerateCoresCli.failureCount GenerateCoresCli.failures
       length Nat.add] in Hs, Hf, Hl.
  rewrite Hs, Hf. run. case_bool_decide as Hk; run.
  - rewrite (forEach_emits _
      (λ f, Stderr ((js "  " ++ GenerateCoresCli.failed_chip f ++ js ": "
                     ++ GenerateCoresCli.failed_message f) ++ [10]))) by done.
    run. eexists _, _. split.
    { unfold generation_summary. rewrite <- !app_assoc. reflexivity. }
    rewrite !execs_app, execs_stderr. split_and!; try done.
    + split; [lia|done].
    + split; [done|lia].
  - eexists _, []. split.
    { unfold generation_summary. rewrite <- !app_assoc. reflexivity. }
    split_and!; try done.
    + split; [done|lia].
    + split; [lia|done].
Qed.

(** X8: the loop of the bulk generator calls [generateCoreForChip] once for
    each chip, in order, each call in the world the earlier ones and their
    reports have left, and keeps going after a failure.  It prints one line
    for each chip, a check mark and the message on standard output for a
    success, a cross and the message on the error stream for a failure,
    then a summary with the numbers of successful and of failed results,
    which add up to the number of chips; it runs no command; it exits with
    status 1 exactly when at least one generation failed and returns
    normally otherwise; and every chip whose generation succeeded has its
    core file on disk at the end. *)
Theorem generation_counts `{Host} (root : jsstring) (version : option jsstring)
    (chips : list jsstring) (w : World) :
  let results := (generate_each root version chips w).1 in
  let w1 := (generate_each root version chips w).2 in
  length results = length chips
  ∧ (succeeded results + failed results)%nat = length chips
  ∧ (∃ o closing,
       GenerateCoresCli.processAll root version chips w
       = (o, add_events w1
               (generation_summary (succeeded results) (failed results) ++ closing))
       ∧ execs closing = []
       ∧ (o = Exit 1 ↔ (0 < failed results)%nat)
       ∧ (o = Ret () ↔ failed results = 0%nat))
  ∧ (∃ before,
       trace w1 = trace w ++ before
       ∧ console_events before = zip_with chip_report chips results
       ∧ execs before = [])
  ∧ (∀ i chip r,
       chips !! i = Some chip → results !! i = Some r → success r = true →
       ∃ content,
         fs w1 !! path_join root (js "icechips_" ++ chip ++ js ".core")
         = Some (File content)).
Proof.
  intros results w1.
  assert (Hlen : length results = length chips).
  { destruct (processFrom_each root version chips
                {| GenerateCoresCli.successCount := 0; GenerateCoresCli.failureCount := 0;
                   GenerateCoresCli.failures := [] |} w) as (t & _ & Hlen & _).
    exact Hlen. }
  split_and!.
  - exact Hlen.
  - by rewrite succeeded_failed.
  - apply processAll_runs.
  - apply generate_each_trace.
  - apply generate_each_writes.
Qed.

(** X9: before its loop the bulk generator checks that [<root>/source-7400]
    exists and lists it; a missing directory or a listing without any chip
    file ends the run with a message on the error stream and status 1; a
    path that is not a directory, or cannot be opened, makes [readdirSync]
    throw, and nothing catches it; otherwise the loop runs over the chip
    numbers of the listing with the first argument as version (an empty one
    counts as none). *)
Theorem bulk_generator_prelude `{Host} (args : list jsstring) (root : jsstring) (w : World) :
  let sourceDir := path_join root (js "source-7400") in
  (fs w !! sourceDir = None →
     GenerateCoresCli.main args root w
     = (Exit 1,
        add_events w
          [FsExists sourceDir;
           Stderr ((js "Error: Source directory not found: " ++ sourceDir) ++ [10])]))
  ∧ (fs w !! sourceDir = Some Locked ∨ (∃ text, fs w !! sourceDir = Some (File text)) →
     ∃ e, GenerateCoresCli.main args root w
          = (Throw e, add_events w [FsExists sourceDir; FsReaddir sourceDir]))
  ∧ (∀ files, fs w !! sourceDir = Some (Dir files) →
       GenerateCores.chipNumbersOf files = [] →
       GenerateCoresCli.main args root w
       = (Exit 1,
          add_events w
            [FsExists sourceDir; FsReaddir sourceDir;
             Stderr (js "Error: No chip files found in source-7400 directory" ++ [10])]))
  ∧ (∀ files, fs w !! sourceDir = Some (Dir files) →
       GenerateCores.chipNumbersOf files ≠ [] →
       ∃ evs,
         GenerateCoresCli.main args root w
         = GenerateCoresCli.processAll root (arg_or_null args 0)
             (GenerateCores.chipNumbersOf files) (add_events w evs)
         ∧ fs_events evs = [FsExists sourceDir; FsReaddir sourceDir]
         ∧ execs evs = []).
Proof.
  intros sourceDir.
  assert (Hexists : ∀ node, fs w !! sourceDir = node →
    existsSync sourceDir w
    = (Ret (match node with Some _ => true | None => false end),
       add_events w [FsExists sourceDir])).
  { intros node <-. unfold existsSync. run. by destruct (fs w !! sourceDir). }
  unfold GenerateCoresCli.main, GenerateCores.getAllChipNumbers, readdirSync.
  fold sourceDir. split_and!.
  - intros Hf. unfold mbind at 1. unfold M_bind at 1.
    rewrite (Hexists _ Hf). cbn [negb]. by run.
  - intros Hc. unfold mbind at 1. unfold M_bind at 1.
    destruct Hc as [Hf|[text Hf]]; rewrite (Hexists _ Hf); cbn [negb]; run; rewrite Hf; eauto.
  - intros files Hf Hnone. unfold mbind at 1. unfold M_bind at 1.
    rewrite (Hexists _ Hf). cbn [negb]. run. rewrite Hf. run. rewrite Hnone.
    case_bool_decide; [|done]. by run.
  - intros files Hf Hsome. unfold mbind at 1. unfold M_bind at 1.
    rewrite (Hexists _ Hf). cbn [negb]. run. rewrite Hf. run.
    case_bool_decide as Hlen; [by destruct (GenerateCores.chipNumbersOf files)|].
    run. eexists. split; [reflexivity|]. done.
Qed.

Lemma bulk_generator_prelude_witness :
  fs bare_world !! @path_join demo_host (js "/repo") (js "source-7400") = None
  ∧ @GenerateCoresCli.main demo_host [] (js "/repo") bare_world
    = (Exit 1,
       add_events bare_world
         [FsExists (@path_join demo_host (js "/repo") (js "source-7400"));
          Stderr ((js "Error: Source directory not found: "
                   ++ @path_join demo_host (js "/repo") (js "source-7400")) ++ [10])]).
Proof.
  split; [vm_compute; reflexivity|].
  refine (proj1 (@bulk_generator_prelude demo_host [] (js "/repo") bare_world) _).
  vm_compute; reflexivity.
Defined.

(** The run of the bulk generator over the project with three chips: one
    manifest written, two failures reported, status 1. *)
Example bulk_generation_of_three :
  GenerateCores.chipNumbersOf
    [js "7400.v"; js "7400-tb.v"; js "7402.v"; js "7404.v"; js "7404-tb.v"; js "readme.v"]
  = [js "7400"; js "7402"; js "7404"]
  ∧ (@GenerateCoresCli.main demo_host [] (js "/repo") partial_world).1 = Exit 1
  ∧ is_Some (fs (@GenerateCoresCli.main demo_host [] (js "/repo") partial_world).2
             !! js "/repo/icechips_7400.core")
  ∧ fs (@GenerateCoresCli.main demo_host [] (js "/repo") partial_world).2
    !! js "/repo/icechips_7402.core" = None.
Proof. split_and!; vm_compute; eauto. Qed.

(** X10: a file name that ends in [-tb.v] is never taken for a chip, whatever
    precedes the suffix, and its presence in the directory listing does not
    change the chip numbers found. *)
Theorem testbench_is_never_a_chip (name : jsstring) (pre post : list jsstring) :
  GenerateCores.extractChipNumber (name ++ js "-tb.v") = None
  ∧ GenerateCores.chipNumbersOf (pre ++ (name ++ js "-tb.v") :: post)
    = GenerateCores.chipNumbersOf (pre ++ post).
Proof.
  assert (Hnone : GenerateCores.extractChipNumber (name ++ js "-tb.v") = None).
  { destruct (GenerateCores.extractChipNumber _) as [d|] eqn:E; [|done].
    apply extractChipNumber_Some in E as (Heq & _ & Hd).
    assert (45 ∈ d) as Hin.
    { assert (45 ∈ d ++ js ".v") as [?|Hv]%elem_of_app; [|done|].
      - rewrite <- Heq. apply elem_of_app. right. vm_compute. set_solver.
      - revert Hv. vm_compute. set_solver. }
    unfold all_in in Hd. rewrite Forall_forall in Hd. by apply Hd in Hin. }
  split; [done|]. by apply chipNumbersOf_skip.
Qed.

(** ** More about test-cores.js *)

Lemma starts_includes l s : strip_prefix l s ≠ None → includes s l = true.
Proof.
  destruct (strip_prefix l s) as [rest|] eqn:Hp; [|done]. intros _.
  apply strip_prefix_Some in Hp as ->. apply includes_true. by exists [], rest.
Qed.

Lemma scan_line_core_of_line cores line :
  TestCores.scan_line cores line = cores ++ option_list (core_of_line line).
Proof.
  unfold TestCores.scan_line, core_of_line.
  destruct (includes _ _) eqn:Hin.
  - rewrite core_here. destruct (strip_prefix _ _) as [rest|]; [|by rewrite app_nil_r].
    destruct (nonempty _); [done|by rewrite app_nil_r].
  - destruct (strip_prefix _ _) as [rest|] eqn:Hp; [|by rewrite app_nil_r].
    rewrite starts_includes in Hin; [done|by rewrite Hp].
Qed.

Lemma scanned_lines cores lines :
  foldl TestCores.scan_line cores lines = cores ++ omap core_of_line lines.
Proof.
  revert cores. induction lines as [|line lines IH]; intros cores; cbn [foldl omap list_omap].
  - by rewrite app_nil_r.
  - rewrite IH, scan_line_core_of_line, <- app_assoc. f_equal.
    by destruct (core_of_line line).
Qed.

Lemma core_of_line_Some line name :
  core_of_line line = Some name
  ↔ ∃ rest, line = js "icechips:ttl:" ++ rest
            ∧ run is_core_char rest ≠ []
            ∧ name = js "icechips:ttl:" ++ run is_core_char rest.
Proof.
  unfold core_of_line. split.
  - destruct (strip_prefix _ _) as [rest|] eqn:Hp; [|done].
    apply strip_prefix_Some in Hp as ->.
    destruct (nonempty _) eqn:Hne; [|done]. intros [= <-].
    exists rest. split_and!; [done| |done]. by apply nonempty_true.
  - intros (rest & -> & Hne & ->). rewrite strip_prefix_app.
    apply nonempty_true in Hne. by rewrite Hne.
Qed.

(** X11: the discovery keeps, for every line of the listing that starts with
    [icechips:ttl:] followed by at least one character that is neither white
    space nor a colon, that prefix and the run of such characters, and
    nothing for any other line (a line that only mentions the prefix further
    on contributes nothing); a name that occurs on several lines comes back
    as many times, and the names come back in ascending order. *)
Theorem discovery_reads_line_starts (listing : jsstring) :
  TestCores.coresOf listing ≡ₚ omap core_of_line (split_on 10 listing)
  ∧ Sorted str_le (TestCores.coresOf listing)
  ∧ (∀ name, name ∈ TestCores.coresOf listing
       ↔ ∃ line rest, line ∈ split_on 10 listing
                      ∧ line = js "icechips:ttl:" ++ rest
                      ∧ run is_core_char rest ≠ []
                      ∧ name = js "icechips:ttl:" ++ run is_core_char rest).
Proof.
  assert (Hperm : TestCores.coresOf listing ≡ₚ omap core_of_line (split_on 10 listing)).
  { unfold TestCores.coresOf, Array_sort. rewrite merge_sort_Permutation.
    by rewrite scanned_lines. }
  split_and!; [done|apply Sorted_merge_sort, _|].
  intros name. rewrite Hperm, list_elem_of_omap. split.
  - intros (line & Hin & (rest & Hrest)%core_of_line_Some). by exists line, rest.
  - intros (line & rest & Hin & Hrest). exists line. split; [done|].
    apply core_of_line_Some. by exists rest.
Qed.

(** Two versions of one chip in the registry: the chip is listed, and
    tested, twice. *)
Example discovery_keeps_duplicates :
  TestCores.coresOf (js "icechips:ttl:7400:0.9.2 : local
icechips:ttl:7400:1.0.0 : local
 icechips:ttl:7402:1.0.0 : indented
")
  = [js "icechips:ttl:7400"; js "icechips:ttl:7400"].
Proof. vm_compute. reflexivity. Qed.

Lemma indexOf_Some x l i :
  indexOf x l = Some i ↔ l !! i = Some x ∧ x ∉ take i l.
Proof.
  revert i. induction l as [|y l IH]; intros i; cbn [indexOf].
  - split; [done|]. by intros [? _].
  - case_bool_decide as Hy.
    + subst y. split.
      * intros [= <-]. split; [done|]. cbn. set_solver.
      * intros [_ Hnot]. destruct i as [|i]; [done|]. cbn in Hnot. set_solver.
    + destruct (indexOf x l) as [j|] eqn:Hj; cbn [fmap option_fmap option_map].
      * destruct (proj1 (IH j) eq_refl) as [Hl Hnot]. split.
        -- intros [= <-]. split; [done|]. cbn. set_solver.
        -- intros [Hl' Hnot']. destruct i as [|i]; [cbn in Hl'; congruence|].
           f_equal. f_equal. cbn in Hl', Hnot'.
           assert (indexOf x l = Some i) as E; [|congruence].
           { rewrite Hj. apply IH. split; [done|]. set_solver. }
      * split; [done|]. intros [Hl Hnot]. destruct i as [|i]; [cbn in Hl; congruence|].
        cbn in Hl, Hnot. assert (None = Some i) as E; [|done].
        apply IH. split; [done|]. set_solver.
Qed.

Lemma filter_arg_Some args p :
  filter_arg args = Some p
  ↔ p ≠ [] ∧ ∃ pre post, args = pre ++ js "--filter" :: p :: post ∧ js "--filter" ∉ pre.
Proof.
  unfold filter_arg. split.
  - destruct (indexOf _ _) as [i|] eqn:Hi; [|done].
    apply indexOf_Some in Hi as [Hi Hnot].
    destruct (args !! (i + 1)%nat) as [q|] eqn:Hq; [|done].
    destruct (nonempty q) eqn:Hne; [|done]. intros [= ->].
    split; [by apply nonempty_true|].
    exists (take i args), (drop (S (S i)) args). split; [|done].
    rewrite <- (take_drop i args) at 1. f_equal.
    rewrite (drop_S _ _ _ Hi). f_equal.
    replace (i + 1)%nat with (S i) in Hq by lia. by rewrite (drop_S _ _ _ Hq).
  - intros (Hne & pre & post & -> & Hnot).
    assert (indexOf (js "--filter") (pre ++ js "--filter" :: p :: post) = Some (length pre))
      as ->.
    { apply indexOf_Some. split.
      - by rewrite list_lookup_middle.
      - by rewrite take_app_length. }
    replace (length pre + 1)%nat with (S (length pre)) by lia.
    rewrite (lookup_app_r pre) by lia.
    replace (S (length pre) - length pre)%nat with 1%nat by lia. cbn.
    apply nonempty_true in Hne. by rewrite Hne.
Qed.

(** X12: [filterCores] keeps exactly the cores that contain the pattern, in
    their order; filtering twice changes nothing more; without a pattern, or
    with the empty one, every core is kept. *)
Theorem filterCores_selects (cores : list jsstring) (pattern : jsstring) :
  pattern ≠ [] →
  (∀ core, core ∈ TestCores.filterCores cores (Some pattern)
           ↔ core ∈ cores ∧ ∃ pre post, core = pre ++ pattern ++ post)
  ∧ TestCores.filterCores cores (Some pattern) `sublist_of` cores
  ∧ TestCores.filterCores (TestCores.filterCores cores (Some pattern)) (Some pattern)
    = TestCores.filterCores cores (Some pattern)
  ∧ TestCores.filterCores cores None = cores
  ∧ TestCores.filterCores cores (Some []) = cores.
Proof.
  intros Hne. destruct pattern as [|c p]; [done|]. cbn [TestCores.filterCores].
  split_and!; try done.
  - intros core. rewrite list_elem_of_filter, includes_true. tauto.
  - apply sublist_filter.
  - rewrite list_filter_filter. apply list_filter_iff. tauto.
Qed.

Lemma filterCores_selects_witness :
  js "74" ≠ []
  ∧ TestCores.filterCores
      (TestCores.filterCores [js "icechips:ttl:7400"; js "icechips:ttl:4000"] (Some (js "74")))
      (Some (js "74"))
    = TestCores.filterCores [js "icechips:ttl:7400"; js "icechips:ttl:4000"] (Some (js "74")).
Proof.
  split; [done|].
  refine (proj1 (proj2 (proj2 (filterCores_selects
            [js "icechips:ttl:7400"; js "icechips:ttl:4000"] (js "74") _)))).
  done.
Defined.

(** X13: with the orchestrator installed and a listing obtained, the bulk
    runner takes as pattern the non-empty argument that follows the first
    [--filter]; it simulates exactly the discovered cores that contain the
    pattern (all of them without a pattern), in order, after the probe and
    the listing; when none matches it reports the pattern and exits with
    status 1 having simulated nothing. *)
Theorem filter_option_selects_cores (args : list jsstring) (w : World)
    (tool listing : jsstring) :
  sh w (js "which fusesoc") = Done tool →
  sh w (js "fusesoc list-cores") = Done listing →
  (∀ p, filter_arg args = Some p
        ↔ p ≠ [] ∧ ∃ pre post, args = pre ++ js "--filter" :: p :: post
                               ∧ js "--filter" ∉ pre)
  ∧ (∀ p, TestCores.coresOf listing ≠ [] → filter_arg args = Some p →
       TestCores.filterCores (TestCores.coresOf listing) (Some p) = [] →
       TestCores.main args w
       = (Exit 1, add_events w
            [Exec (js "which fusesoc"); Exec (js "fusesoc list-cores");
             Stderr ((js "Error: No cores match filter pattern: " ++ p) ++ [10])]))
  ∧ (TestCores.filterCores (TestCores.coresOf listing) (filter_arg args) ≠ [] →
     ∃ o evs,
       TestCores.main args w = (o, add_events w evs)
       ∧ execs evs
         = [js "which fusesoc"; js "fusesoc list-cores"]
           ++ (sim_command
                 <$> TestCores.filterCores (TestCores.coresOf listing) (filter_arg args))).
Proof.
  intros Hwhich Hlist. split; [apply filter_arg_Some|].
  apply (main_filtered args w tool listing Hwhich Hlist).
Qed.

Lemma filter_option_selects_cores_witness :
  sh five_cores_world (js "which fusesoc") = Done []
  ∧ sh five_cores_world (js "fusesoc list-cores") = Done five_cores_listing
  ∧ TestCores.main [js "--filter"; js "4000"] five_cores_world
    = (Exit 1, add_events five_cores_world
         [Exec (js "which fusesoc"); Exec (js "fusesoc list-cores");
          Stderr ((js "Error: No cores match filter pattern: " ++ js "4000") ++ [10])]).
Proof.
  split_and!; [done..|].
  refine (proj1 (proj2 (filter_option_selects_cores [js "--filter"; js "4000"]
                          five_cores_world [] five_cores_listing _ _))
            (js "4000") _ _ _); vm_compute; done.
Defined.

(** A filter that selects two of five cores. *)
Example filter_selects_two_of_five :
  filter_arg [js "-v"; js "--filter"; js "740"; js "--filter"; js "x"] = Some (js "740")
  ∧ filter_arg [js "--filter"] = None
  ∧ execs (trace (TestCores.main [js "--filter"; js "740"] five_cores_world).2)
    = [js "which fusesoc"; js "fusesoc list-cores";
       sim_command (js "icechips:ttl:7400"); sim_command (js "icechips:ttl:7402");
       sim_command (js "icechips:ttl:7404"); sim_command (js "icechips:ttl:7408")].
Proof. split_and!; vm_compute; reflexivity. Qed.

(** ** More about test-core.js *)

Lemma getFullCoreName_runs `{Host} chip root w :
  ∃ o, TestCore.getFullCoreName chip root w
       = (o, add_events w [FsRead (path_join root (js "package.json"))])
       ∧ (∀ code, o ≠ Exit code)
       ∧ (∀ v text, (GenerateCore.getVersionFromPackageJson root w).1 = Ret v →
            ToString v = inr text →
            o = Ret (js "icechips:ttl:" ++ chip ++ js ":" ++ text)).
Proof.
  unfold TestCore.getFullCoreName. unfold mbind at 1. unfold M_bind at 1.
  destruct (getVersion_runs root w) as (o & Hrun & Hexit). rewrite Hrun. cbn [fst].
  destruct o as [v|e|code]; [| |by destruct (Hexit code)].
  - destruct (ToString v) as [e|text] eqn:Htext; run.
    + eexists. split; [reflexivity|]. split; [done|]. intros ?? [= <-]. congruence.
    + eexists. split; [reflexivity|]. split; [done|]. intros ?? [= <-]. congruence.
  - eexists. split; [reflexivity|]. split; [done|]. done.
Qed.

Lemma parseCoreName_runs `{Host} input root w :
  ∃ o evs, TestCore.parseCoreName input root w = (o, add_events w evs)
    ∧ execs evs = []
    ∧ ∀ code, o ≠ Exit code.
Proof.
  unfold TestCore.parseCoreName, TestCore.coreFileExists, existsSync.
  destruct (includes input (js ":")).
  - exists (Ret input), []. by rewrite add_events_nil.
  - run. destruct (bool_decide _); cbn [negb].
    + destruct (getFullCoreName_runs input root
                  (add_events w [FsExists (path_join root (js "icechips_" ++ input ++ js ".core"))]))
        as (o & Hrun & Hexit & _).
      rewrite Hrun. run. eexists _, _. split; [reflexivity|]. done.
    + eexists _, _. split; [reflexivity|]. done.
Qed.

Lemma parseCoreName_frame `{Host} input root w evs0 :
  (TestCore.parseCoreName input root (add_events w evs0)).1
  = (TestCore.parseCoreName input root w).1.
Proof.
  unfold TestCore.parseCoreName, TestCore.coreFileExists, existsSync,
    TestCore.getFullCoreName, GenerateCore.getVersionFromPackageJson, readFileSync.
  destruct (includes input (js ":")); run; [done|].
  destruct (bool_decide _); cbn [negb]; run; [|done].
  destruct (fs w !! _) as [[text| |]|]; run; try done.
  destruct (JSON_parse text) as [e|value]; run; [done|].
  destruct (get_version value) as [e|v]; run; [done|].
  destruct (ToString _); run; done.
Qed.

Lemma test_core_main_runs `{Host} args root w :
  ∃ code evs,
    TestCore.main args root w = (Exit code, add_events w evs)
    ∧ (code = 0%nat ∨ code = 1%nat)
    ∧ (code = 0%nat
       ↔ ∃ input rest name,
           args = input :: rest
           ∧ fusesoc_available w
           ∧ (TestCore.parseCoreName input root w).1 = Ret name
           ∧ sim_fails w name = false)
    ∧ (code = 0%nat → ∃ name, execs evs = [js "which fusesoc"; sim_command name]).
Proof.
  unfold TestCore.main. destruct args as [|input rest].
  { run. eexists _, _. split; [reflexivity|]. split; [by right|].
    split; [|done]. split; [done|]. by intros (? & ? & ? & ? & _). }
  unfold mbind at 1. unfold M_bind at 1. rewrite isFuseSoCAvailable_runs.
  destruct (sh w (js "which fusesoc")) as [tool|msg o e] eqn:Hwhich; cbn [negb].
  2:{ run. eexists _, _. split; [reflexivity|]. split; [by right|].
      split; [|done]. split; [done|].
      intros (? & ? & ? & _ & [? Ha] & _). congruence. }
  unfold mbind at 1. unfold M_bind at 1. unfold try_catch at 1.
  pose proof (parseCoreName_frame input root w [Exec (js "which fusesoc")]) as Hframe.
  destruct (parseCoreName_runs input root (add_events w [Exec (js "which fusesoc")]))
    as (o & evs & Hparse & Hex & Hexit).
  rewrite Hparse in Hframe |- *. cbn [fst] in Hframe.
  destruct o as [name|e|code]; [| |by destruct (Hexit code)].
  - match goal with
    | |- ∃ code evs, ?lhs = _ ∧ _ =>
        assert (∃ evs', lhs = (Exit (if sim_fails w name then 1%nat else 0%nat),
                               add_events w evs')
                        ∧ execs evs' = [js "which fusesoc"; sim_command name])
          as (evs' & -> & Hex')
    end.
    { destruct (wants_verbose (input :: rest)); run; sim_step;
        change (sim_fails (add_events w _) name) with (sim_fails w name) in *;
        destruct (sim_fails w name); rewrite Hok; cbn [negb]; run;
        destruct (output r) as [[|c out]|]; cbn [negb andb nonempty]; run;
        eexists; (split; [reflexivity|]); by rewrite ?execs_app, Hex, Hex0. }
    eexists _, _. split; [reflexivity|].
    destruct (sim_fails w name) eqn:Hfails.
    + split; [by right|]. split; [|done]. split; [done|].
      intros (i' & r' & n' & [= <- <-] & _ & Hn & Hf). rewrite <- Hframe in Hn.
      injection Hn as <-. congruence.
    + split; [by left|]. split; [|intros _; by exists name]. split; [|done].
      intros _. exists input, rest, name. split; [done|]. split; [by exists tool|].
      split; [by rewrite <- Hframe|done].
  - run. eexists _, _. split; [reflexivity|]. split; [by right|].
    split; [|done]. split; [done|].
    intros (i' & r' & n' & [= <- <-] & _ & Hn & _). congruence.
Qed.

(** X14: the single-core runner always ends by [process.exit], with status 0
    or 1; the status is 0 exactly when an identifier was given, the probe
    for the orchestrator succeeded, the identifier resolved to a name and
    the simulation of that name succeeded, and then the commands run were
    the probe and that one simulation. *)
Theorem test_core_exit_status `{Host} (args : list jsstring) (root : jsstring) (w : World) :
  ∃ code evs,
    TestCore.main args root w = (Exit code, add_events w evs)
    ∧ (code = 0%nat ∨ code = 1%nat)
    ∧ (code = 0%nat
       ↔ ∃ input rest name,
           args = input :: rest
           ∧ fusesoc_available w
           ∧ (TestCore.parseCoreName input root w).1 = Ret name
           ∧ sim_fails w name = false)
    ∧ (code = 0%nat → ∃ name, execs evs = [js "which fusesoc"; sim_command name]).
Proof. apply test_core_main_runs. Qed.

(** X15: without the orchestrator both runners print the same four lines of
    guidance on the error stream and exit with status 1, having run the
    probe and nothing else (no listing, no file access, no simulation);
    called without an identifier, the single-core runner prints its usage
    and exits with status 1 without even running the probe. *)
Theorem missing_orchestrator_stops_both_runners `{Host} (w : World) (msg out err : jsstring) :
  sh w (js "which fusesoc") = Failed msg out err →
  (∀ input rest root,
     TestCore.main (input :: rest) root w
     = (Exit 1, add_events w (Exec (js "which fusesoc") :: fusesoc_missing_lines)))
  ∧ (∀ args,
       TestCores.main args w
       = (Exit 1, add_events w (Exec (js "which fusesoc") :: fusesoc_missing_lines)))
  ∧ (∀ root, ∃ evs,
       TestCore.main [] root w = (Exit 1, add_events w evs)
       ∧ execs evs = [] ∧ fs_events evs = []
       ∧ head evs = Some (Stderr (js "Usage: node test-core.js <core-name> [--verbose]"
                                  ++ [10]))).
Proof.
  intros Hwhich. split_and!.
  - intros input rest root. unfold TestCore.main. unfold mbind at 1. unfold M_bind at 1.
    rewrite isFuseSoCAvailable_runs, Hwhich. cbn [negb]. by run.
  - intros args. unfold TestCores.main. unfold mbind at 1. unfold M_bind at 1.
    rewrite isFuseSoCAvailable_runs, Hwhich. cbn [negb]. by run.
  - intros root. unfold TestCore.main. run. eexists. split; [reflexivity|]. done.
Qed.

Lemma missing_orchestrator_stops_both_runners_witness :
  sh no_fusesoc_world (js "which fusesoc")
  = Failed (js "Command failed: " ++ js "which fusesoc") [] []
  ∧ ∀ args,
      TestCores.main args no_fusesoc_world
      = (Exit 1, add_events no_fusesoc_world
                   (Exec (js "which fusesoc") :: fusesoc_missing_lines)).
Proof.
  split; [reflexivity|].
  refine (proj1 (proj2 (@missing_orchestrator_stops_both_runners demo_host no_fusesoc_world
                          (js "Command failed: " ++ js "which fusesoc") [] [] _))).
  reflexivity.
Defined.

(** X16: a simulation runs the one command [fusesoc run --target=sim <name>]
    and never throws.  When the command succeeds the result carries the
    child's output (none in verbose mode, where the child writes to the
    terminal itself); when it fails the result carries the child's standard
    output if it wrote any, otherwise its standard error if it wrote any,
    otherwise the error's message (in verbose mode always the message), and
    the message of the result ends with the error's message. *)
Theorem simulation_result (coreName : jsstring) (w : World) :
  (∀ out, sh w (sim_command coreName) = Done out →
     TestCore.runFuseSoCSim coreName false w
     = (Ret {| success := true; output := Some out;
               message := js "Simulation completed successfully for " ++ coreName;
               chipNumber := None; rtlModuleName := None; tbModuleName := None |},
        add_events w [Exec (sim_command coreName)])
     ∧ TestCore.runFuseSoCSim coreName true w
       = (Ret {| success := true; output := None;
                 message := js "Simulation completed successfully for " ++ coreName;
                 chipNumber := None; rtlModuleName := None; tbModuleName := None |},
          add_events w [Stdout ((js "Running: " ++ sim_command coreName) ++ [10]);
                        Exec (sim_command coreName)]))
  ∧ (∀ msg out err, sh w (sim_command coreName) = Failed msg out err →
       TestCore.runFuseSoCSim coreName false w
       = (Ret {| success := false;
                 output := Some (if nonempty out then out
                                 else if nonempty err then err else msg);
                 message := js "Simulation failed for " ++ coreName ++ js ": " ++ msg;
                 chipNumber := None; rtlModuleName := None; tbModuleName := None |},
          add_events w [Exec (sim_command coreName)])
       ∧ TestCore.runFuseSoCSim coreName true w
         = (Ret {| success := false; output := Some msg;
                   message := js "Simulation failed for " ++ coreName ++ js ": " ++ msg;
                   chipNumber := None; rtlModuleName := None; tbModuleName := None |},
            add_events w [Stdout ((js "Running: " ++ sim_command coreName) ++ [10]);
                          Exec (sim_command coreName)])).
Proof.
  unfold TestCore.runFuseSoCSim, execSync, sim_command. split.
  - intros out Hsh. split; run; rewrite Hsh; run; reflexivity.
  - intros msg out err Hsh. split; run; rewrite Hsh; run; reflexivity.
Qed.

Lemma simulation_result_witness :
  sh failing_world (sim_command (js "icechips:ttl:7402:0.9.2"))
  = Failed (js "Command failed") [] (js "stderr text")
  ∧ (TestCore.runFuseSoCSim (js "icechips:ttl:7402:0.9.2") false failing_world).1
    = Ret {| success := false;
             output := Some (js "stderr text");
             message := js "Simulation failed for " ++ js "icechips:ttl:7402:0.9.2" ++ js ": "
                        ++ js "Command failed";
             chipNumber := None; rtlModuleName := None; tbModuleName := None |}.
Proof.
  split; [vm_compute; reflexivity|].
  exact (f_equal fst (proj1 (proj2 (simulation_result (js "icechips:ttl:7402:0.9.2")
                                      failing_world)
                               (js "Command failed") [] (js "stderr text") eq_refl))).
Defined.

Lemma parseCoreName_bare `{Host} chip root w :
  includes chip (js ":") = false →
  is_Some (fs w !! path_join root (js "icechips_" ++ chip ++ js ".core")) →
  ∃ o, TestCore.parseCoreName chip root w
       = (o, add_events w [FsExists (path_join root (js "icechips_" ++ chip ++ js ".core"));
                           FsRead (path_join root (js "package.json"))])
       ∧ (∀ v text, (GenerateCore.getVersionFromPackageJson root w).1 = Ret v →
            ToString v = inr text →
            o = Ret (js "icechips:ttl:" ++ chip ++ js ":" ++ text))
       ∧ (∀ e, (GenerateCore.getVersionFromPackageJson root w).1 = Throw e → o = Throw e).
Proof.
  intros Hbare Hcore.
  unfold TestCore.parseCoreName, TestCore.coreFileExists, existsSync,
    TestCore.getFullCoreName, GenerateCore.getVersionFromPackageJson, readFileSync.
  rewrite Hbare. run. rewrite bool_decide_eq_true_2 by done. cbn [negb]. run.
  destruct (fs w !! path_join root (js "package.json")) as [[text| |]|]; run;
    try (eexists; split; [reflexivity|]; split; [done|]; by intros ? [= <-]).
  destruct (JSON_parse text) as [e|value]; run;
    try (eexists; split; [reflexivity|]; split; [done|]; by intros ? [= <-]).
  destruct (get_version value) as [e|v]; run;
    try (eexists; split; [reflexivity|]; split; [done|]; by intros ? [= <-]).
  destruct (ToString _) as [e|vt] eqn:Hvt; run;
    eexists; (split; [reflexivity|]); (split; [|done]); intros ?? [= <-]; congruence.
Qed.

(** X17: a bare chip identifier whose core file is at the project root
    resolves, after one existence check and one read of the manifest, to
    [icechips:ttl:<chip>:<version>] with the version the generator uses when
    none is supplied; resolving the result again returns it unchanged
    without touching anything. *)
Theorem bare_chip_resolution `{Host} (chip root versionText : jsstring) (w : World) :
  includes chip (js ":") = false →
  is_Some (fs w !! path_join root (js "icechips_" ++ chip ++ js ".core")) →
  version_text root None w = Some versionText →
  let name := js "icechips:ttl:" ++ chip ++ js ":" ++ versionText in
  TestCore.parseCoreName chip root w
  = (Ret name,
     add_events w [FsExists (path_join root (js "icechips_" ++ chip ++ js ".core"));
                   FsRead (path_join root (js "package.json"))])
  ∧ (∀ root' w', TestCore.parseCoreName name root' w' = (Ret name, w')).
Proof.
  intros Hbare Hcore Hversion name. split.
  - destruct (parseCoreName_bare chip root w Hbare Hcore) as (o & -> & Hret & _).
    unfold version_text in Hversion. cbn [supplied] in Hversion.
    destruct (GenerateCore.getVersionFromPackageJson root w).1 as [v| |]; [|done..].
    destruct (ToString v) as [|text] eqn:Htext; [done|]. injection Hversion as ->.
    by rewrite (Hret v versionText eq_refl Htext).
  - intros root' w'. apply parseCoreName_qualified.
    apply includes_true. exists (js "icechips"), (js "ttl:" ++ chip ++ js ":" ++ versionText).
    reflexivity.
Qed.

Lemma bare_chip_resolution_witness :
  includes (js "7400") (js ":") = false
  ∧ is_Some (fs failing_world
             !! @path_join demo_host (js "/repo") (js "icechips_" ++ js "7400" ++ js ".core"))
  ∧ @version_text demo_host (js "/repo") None failing_world = Some (js "0.9.2")
  ∧ (@TestCore.parseCoreName demo_host (js "7400") (js "/repo") failing_world).1
    = Ret (js "icechips:ttl:" ++ js "7400" ++ js ":" ++ js "0.9.2").
Proof.
  split_and!; [vm_compute; reflexivity|by eexists|vm_compute; reflexivity|].
  refine (f_equal fst (proj1 (@bare_chip_resolution demo_host (js "7400") (js "/repo")
                               (js "0.9.2") failing_world _ _ _)));
    [vm_compute; reflexivity|by eexists|vm_compute; reflexivity].
Defined.

(** X18: when the core file of a bare chip identifier is there but the version
    lookup throws (the project manifest is missing, unreadable or not JSON),
    the single-core runner prints [Error: ] and the message of that error,
    and exits with status 1 after the probe, the existence check and the
    read; no simulation is run. *)
Theorem unreadable_manifest_stops_the_runner `{Host} (chip : jsstring)
    (rest : list jsstring) (root : jsstring) (w : World) (tool : jsstring) (e : JSError) :
  sh w (js "which fusesoc") = Done tool →
  includes chip (js ":") = false →
  is_Some (fs w !! path_join root (js "icechips_" ++ chip ++ js ".core")) →
  (GenerateCore.getVersionFromPackageJson root w).1 = Throw e →
  TestCore.main (chip :: rest) root w
  = (Exit 1,
     add_events w [Exec (js "which fusesoc");
                   FsExists (path_join root (js "icechips_" ++ chip ++ js ".core"));
                   FsRead (path_join root (js "package.json"));
                   Stderr ((js "Error: " ++ error_message e) ++ [10])]).
Proof.
  intros Hwhich Hbare Hcore Hthrow.
  unfold TestCore.main. unfold mbind at 1. unfold M_bind at 1.
  rewrite isFuseSoCAvailable_runs, Hwhich. cbn [negb].
  unfold mbind at 1. unfold M_bind at 1. unfold try_catch at 1.
  pose proof (parseCoreName_frame chip root w [Exec (js "which fusesoc")]) as Hframe.
  destruct (parseCoreName_bare chip root (add_events w [Exec (js "which fusesoc")]) Hbare)
    as (o & Hrun & _); [by rewrite fs_add_events|].
  destruct (parseCoreName_bare chip root w Hbare Hcore) as (o' & Hrun' & _ & Hfail).
  rewrite Hrun, Hrun' in Hframe. cbn [fst] in Hframe. subst o'.
  rewrite Hrun, (Hfail e Hthrow). by run.
Qed.

Lemma unreadable_manifest_stops_the_runner_witness :
  sh orphan_core_world (js "which fusesoc") = Done []
  ∧ includes (js "7400") (js ":") = false
  ∧ is_Some (fs orphan_core_world
             !! @path_join demo_host (js "/repo") (js "icechips_" ++ js "7400" ++ js ".core"))
  ∧ (@TestCore.main demo_host [js "7400"] (js "/repo") orphan_core_world).1 = Exit 1.
Proof.
  split_and!; [reflexivity|vm_compute; reflexivity|by eexists|].
  refine (f_equal fst (@unreadable_manifest_stops_the_runner demo_host (js "7400") []
                         (js "/repo") orphan_core_world []
                         (Error (js "ENOENT: no such file or directory, open '/repo/package.json'"))
                         _ _ _ _));
    [reflexivity|vm_compute; reflexivity|by eexists|vm_compute; reflexivity].
Defined.

Lemma quiet_progress_frame w evs total index cores :
  quiet_progress (add_events w evs) total index cores = quiet_progress w total index cores.
Proof. revert index. induction cores as [|c cores IH]; intros index; cbn; [done|].
  by rewrite IH. Qed.

Lemma testCore_records verbose total tally coreName index w :
  ∃ tally' evs,
    TestCores.testCore verbose total tally coreName index w = (Ret tally', add_events w evs)
    ∧ failed_pair <$> failures tally'
      = (failed_pair <$> failures tally)
        ++ (if sim_fails w coreName then [(coreName, failure_message w coreName)] else [])
    ∧ (verbose = false → evs = quiet_progress w total index [coreName]).
Proof.
  unfold TestCores.testCore, TestCore.runFuseSoCSim, execSync, sim_fails, failure_message,
    sim_command.
  destruct verbose; run; destruct (sh w _) as [out|msg out err] eqn:Hsh; run;
    cbn [success output message or_string error_stdout error_stderr error_message Error];
    run; try (destruct (nonempty msg); run);
    eexists _, _; (split; [reflexivity|]); cbn [failures];
    rewrite ?fmap_app, ?app_nil_r.
  all: try (split; [done|]).
  all: try done.
  all: intros _; cbn [quiet_progress]; unfold sim_fails, sim_command; by rewrite Hsh.
Qed.

Lemma testFrom_records verbose total index cores tally w :
  ∃ tally' evs,
    TestCores.testFrom verbose total index cores tally w = (Ret tally', add_events w evs)
    ∧ failed_pair <$> failures tally'
      = (failed_pair <$> failures tally)
        ++ ((λ c, (c, failure_message w c)) <$> filter (λ c, sim_fails w c = true) cores)
    ∧ (verbose = false → evs = quiet_progress w total index cores).
Proof.
  revert index tally w. induction cores as [|c cores IH]; intros index tally w.
  - exists tally, []. rewrite add_events_nil. cbn. by rewrite app_nil_r.
  - cbn [TestCores.testFrom]. unfold mbind at 1. unfold M_bind at 1.
    destruct (testCore_records verbose total tally c index w) as (t1 & evs1 & -> & Hf1 & Hq1).
    destruct (IH (S index) t1 (add_events w evs1)) as (t2 & evs2 & -> & Hf2 & Hq2).
    exists t2, (evs1 ++ evs2). rewrite add_events_app. split; [done|]. split.
    + rewrite Hf2, Hf1, <- app_assoc. f_equal. rewrite filter_cons.
      change (sim_fails (add_events w evs1)) with (sim_fails w).
      change (failure_message (add_events w evs1)) with (failure_message w).
      destruct (sim_fails w c); by case_decide.
    + intros Hv. rewrite (Hq1 Hv), (Hq2 Hv), quiet_progress_frame.
      cbn [quiet_progress]. by rewrite app_nil_r.
Qed.

Lemma testAll_trace cores verbose w :
  ∃ before,
    TestCores.testAll cores verbose w
    = ((if bool_decide (count_failing w cores = 0%nat) then Ret () else Exit 1),
       add_events w
         (before
          ++ summary_lines (length cores) (length cores - count_failing w cores)
               (count_failing w cores)
          ++ closing_lines w cores))
    ∧ execs before = sim_command <$> cores
    ∧ (verbose = false → before = quiet_progress w (length cores) 0 cores).
Proof.
  unfold TestCores.testAll. unfold mbind at 1. unfold M_bind at 1.
  destruct (testFrom_runs verbose (length cores) 0 cores
              {| successCount := 0; failureCount := 0; failures := [] |} w)
    as (t & evs & Hrun & Hex & Hs & Hf & Hl).
  destruct (testFrom_records verbose (length cores) 0 cores
              {| successCount := 0; failureCount := 0; failures := [] |} w)
    as (t' & evs' & Hrun' & Hpairs & Hquiet).
  rewrite Hrun in Hrun'. injection Hrun' as <- Hw.
  assert (evs' = evs) as ->.
  { symmetry. by apply app_inv_head in Hw. }
  rewrite Hrun. clear Hrun Hw.
  cbn [successCount failureCount failures length] in Hs, Hf, Hl, Hpairs.
  rewrite Hs, Hf. cbn [Nat.add]. run. exists evs.
  split; [|done]. unfold closing_lines.
  case_bool_decide as Hk; case_bool_decide as Hz; try lia; run.
  - rewrite (forEach_emits _
               (λ f, Stderr ((js "  " ++ failed_core f ++ js ": " ++ failed_message f) ++ [10])))
      by done.
    run. f_equal. f_equal. unfold summary_lines. rewrite <- !app_assoc. cbn [app].
    do 8 f_equal.
    change (λ f, Stderr ((js "  " ++ failed_core f ++ js ": " ++ failed_message f) ++ [10]))
      with ((λ p : jsstring * jsstring, Stderr ((js "  " ++ p.1 ++ js ": " ++ p.2) ++ [10]))
            ∘ failed_pair).
    rewrite list_fmap_compose, Hpairs, fmap_nil, app_nil_l.
    by rewrite <- list_fmap_compose.
  - f_equal. f_equal. unfold summary_lines. by rewrite <- !app_assoc.
Qed.

(** X19: the test loop and the summary from end to end.  In quiet mode the
    loop prints, for each core in turn, [[i/n] <core>... ] without a line
    end, runs its simulation, and closes the line with a check mark or a
    cross; after the summary come either [All cores passed!] and a normal
    return, or [Failures:] and one line on the error stream for each failed
    core, in order, each with the message of its failure, and exit status
    1.  The closing lines are the same in verbose mode. *)
Theorem test_run_report (cores : list jsstring) (w : World) :
  TestCores.testAll cores false w
  = ((if bool_decide (count_failing w cores = 0%nat) then Ret () else Exit 1),
     add_events w
       (quiet_progress w (length cores) 0 cores
        ++ summary_lines (length cores) (length cores - count_failing w cores)
             (count_failing w cores)
        ++ closing_lines w cores))
  ∧ ∃ before,
      TestCores.testAll cores true w
      = ((if bool_decide (count_failing w cores = 0%nat) then Ret () else Exit 1),
         add_events w
           (before
            ++ summary_lines (length cores) (length cores - count_failing w cores)
                 (count_failing w cores)
            ++ closing_lines w cores))
      ∧ execs before = sim_command <$> cores.
Proof.
  split.
  - destruct (testAll_trace cores false w) as (before & -> & _ & Hq). by rewrite Hq.
  - destruct (testAll_trace cores true w) as (before & -> & Hex & _). by exists before.
Qed.

(** The quiet run of five cores, two failing, line by line. *)
Example quiet_run_of_two :
  trace (TestCores.testAll [js "icechips:ttl:7400"; js "icechips:ttl:7402"] false
           five_cores_world).2
  = [ Stdout (js "[1/2] icechips:ttl:7400... ");
      Exec (js "fusesoc run --target=sim icechips:ttl:7400");
      Stdout (check_mark ++ [10]);
      Stdout (js "[2/2] icechips:ttl:7402... ");
      Exec (js "fusesoc run --target=sim icechips:ttl:7402");
      Stdout (cross_mark ++ [10]);
      Stdout [10];
      Stdout (js "Summary:" ++ [10]);
      Stdout (js "  Total:   2" ++ [10]);
      Stdout (js "  Success: 1" ++ [10]);
      Stdout (js "  Failed:  1" ++ [10]);
      Stdout [10];
      Stdout (js "Failures:" ++ [10]);
      Stderr (js "  icechips:ttl:7402: Simulation failed for icechips:ttl:7402: Command failed"
              ++ [10]) ].
Proof. vm_compute. reflexivity. Qed.

Lemma getVersion_same_manifest `{Host} root w w' :
  fs w' !! path_join root (js "package.json") = fs w !! path_join root (js "package.json") →
  (GenerateCore.getVersionFromPackageJson root w').1
  = (GenerateCore.getVersionFromPackageJson root w).1.
Proof.
  intros Hsame. unfold GenerateCore.getVersionFromPackageJson, readFileSync. run.
  rewrite Hsame. destruct (fs w !! _) as [[text| |]|]; run; try done.
  destruct (JSON_parse text) as [e|value]; run; [done|].
  destruct (get_version value) as [e|v]; run; done.
Qed.

(** X20: generation and test fit together.  Whenever [generateCoreForChip],
    called without a version, reports success, the core file it has written
    starts with [CAPI=2:] and [name: icechips:ttl:<chip>:<version>], where
    the version is that of the project manifest, and in the world it leaves
    the single-core runner resolves the bare chip identifier to that very
    name. *)
Theorem generated_core_resolves `{Host} (chip root : jsstring) (w w' : World) (r : Result) :
  GenerateCore.generateCoreForChip chip root None w = (Ret r, w') →
  success r = true →
  includes chip (js ":") = false →
  path_join root (js "icechips_" ++ chip ++ js ".core") ≠ path_join root (js "package.json") →
  ∃ versionText rest,
    version_text root None w = Some versionText
    ∧ fs w' !! path_join root (js "icechips_" ++ chip ++ js ".core")
      = Some (File (js "CAPI=2:" ++ [10] ++ js "name: "
                    ++ (js "icechips:ttl:" ++ chip ++ js ":" ++ versionText) ++ [10] ++ rest))
    ∧ (TestCore.parseCoreName chip root w').1
      = Ret (js "icechips:ttl:" ++ chip ++ js ":" ++ versionText).
Proof.
  intros Hrun Hsuccess Hbare Hpaths.
  destruct (generateCoreForChip_cases chip root None w)
    as (r' & w1 & Hrun' & [(Hfail & _)|(vt & rn & tn & Hready & _ & Hr & Hfs)]);
    rewrite Hrun in Hrun'; injection Hrun' as <- <-; [congruence|].
  destruct Hready as (rtlText & tbText & Hversion & _).
  exists vt. eexists. split; [done|]. split.
  { rewrite Hfs, lookup_insert_eq. unfold GenerateCore.generateCoreFile.
    rewrite <- !app_assoc. reflexivity. }
  destruct (parseCoreName_bare chip root w' Hbare) as (o & -> & Hret & _).
  { rewrite Hfs, lookup_insert_eq. by eexists. }
  cbn [fst].
  assert (Hsame : (GenerateCore.getVersionFromPackageJson root w').1
                  = (GenerateCore.getVersionFromPackageJson root w).1).
  { apply getVersion_same_manifest. by rewrite Hfs, lookup_insert_ne. }
  unfold version_text in Hversion. cbn [supplied] in Hversion. rewrite <- Hsame in Hversion.
  destruct (GenerateCore.getVersionFromPackageJson root w').1 as [v| |] eqn:Hv; [|done..].
  destruct (ToString v) as [|text] eqn:Htext; [done|]. injection Hversion as ->.
  by apply (Hret v).
Qed.

Lemma generated_core_resolves_witness :
  success {| success := true;
             message := js "Generated core file: /repo/icechips_7400.core";
             output := None;
             chipNumber := Some (js "7400");
             rtlModuleName := Some (js "ttl_7400");
             tbModuleName := Some (js "test") |} = true
  ∧ includes (js "7400") (js ":") = false
  ∧ ∃ versionText rest,
      @version_text demo_host (js "/repo") None partial_world = Some versionText
      ∧ fs (@GenerateCore.generateCoreForChip demo_host (js "7400") (js "/repo") None
              partial_world).2
        !! @path_join demo_host (js "/repo") (js "icechips_" ++ js "7400" ++ js ".core")
        = Some (File (js "CAPI=2:" ++ [10] ++ js "name: "
                      ++ (js "icechips:ttl:" ++ js "7400" ++ js ":" ++ versionText)
                      ++ [10] ++ rest))
      ∧ (@TestCore.parseCoreName demo_host (js "7400") (js "/repo")
           (@GenerateCore.generateCoreForChip demo_host (js "7400") (js "/repo") None
              partial_world).2).1
        = Ret (js "icechips:ttl:" ++ js "7400" ++ js ":" ++ versionText).
Proof.
  split_and!; [reflexivity|vm_compute; reflexivity|].
  apply (@generated_core_resolves demo_host (js "7400") (js "/repo") partial_world
           (@GenerateCore.generateCoreForChip demo_host (js "7400") (js "/repo") None
              partial_world).2
           {| success := true;
              message := js "Generated core file: /repo/icechips_7400.core";
              output := None;
              chipNumber := Some (js "7400");
              rtlModuleName := Some (js "ttl_7400");
              tbModuleName := Some (js "test") |});
    try (vm_compute; reflexivity).
  vm_compute. discriminate.
Defined.
